(** * The authorization core of the EffectiveMobileTZ service

    A shallow embedding of the Django/DRF code under [core/api]: the
    models of [models.py] (users, sessions, the revoked-token ledger,
    roles and access rules), the token authentication of
    [authentication.py] and [middleware.py], the permission classes of
    [permissions.py], the credential check of [serializers.py] and the
    login/logout and mock product views.

    Conventions.
    - Time is a number of seconds ([Z]); each operation receives the
      value of [timezone.now()] as an argument [now].
    - Python exceptions are values of [exn]; code that can raise lives
      in the state-and-exception monad [M] over the world [World]
      (the database and the log of access-rule queries).
    - Dictionaries with a fixed, small key set read through [.get] are
      records of options (the token payload) or [gmap]s (the method
      table); database tables with a primary or unique key that the code
      looks rows up by are [gmap]s, the other tables are lists of rows.
    - What the libraries and the database decide is a parameter of the
      code: PyJWT, the password hasher, the order of rows that tie under
      a model's ordering, and the conversions that reject a value (of a
      text to a UUID or to an integer, of a timestamp to a [datetime],
      of a request field by a serializer field, of an integer to a
      database integer). *)

From Stdlib Require Import Ascii.
From stdpp Require Import base gmap strings list.

Local Open Scope string_scope.
Local Open Scope Z_scope.

(** ** Python values *)

(** Truthiness of an optional string ([None] and [''] are falsy). *)
Definition truthy_str (o : option string) : bool :=
  match o with
  | Some s => negb (String.eqb s "")
  | None => false
  end.

(** Truthiness of an optional number ([None] and [0] are falsy). *)
Definition truthy_num (o : option Z) : bool :=
  match o with
  | Some z => negb (z =? 0)
  | None => false
  end.

(** [s.startswith(p)] *)
Definition startswith (p s : string) : bool := String.prefix p s.

(** [s[n:]] *)
Definition slice_from (n : nat) (s : string) : string :=
  String.substring n (String.length s - n)%nat s.

(** [s] between double quotes *)
Definition quoted (s : string) : string :=
  String (ascii_of_nat 34) s +:+ String (ascii_of_nat 34) "".

(** ** Exceptions *)

Inductive exn : Type :=
| DecodeError
| InvalidSignatureError
| ExpiredSignatureError
| DoesNotExist
| AuthenticationFailed (detail : string)
| NotAuthenticated
| PermissionDenied
| ValidationError (detail : string)
| MethodNotAllowed (method : string)
| AttributeError
| DjangoValidationError     (* [django.core.exceptions.ValidationError] *)
| OverflowError
| ValueError.

(** [jwt.InvalidTokenError] is the base class of the three PyJWT errors. *)
Definition is_InvalidTokenError (e : exn) : bool :=
  match e with
  | DecodeError | InvalidSignatureError | ExpiredSignatureError => true
  | _ => false
  end.

Definition is_ExpiredSignatureError (e : exn) : bool :=
  match e with
  | ExpiredSignatureError => true
  | _ => false
  end.

Definition is_DoesNotExist (e : exn) : bool :=
  match e with
  | DoesNotExist => true
  | _ => false
  end.

(** ** The token payload: claims [{session_id, user_id, email, exp, iat, jti}] *)

Module Payload.
Record t : Type := mk {
  session_id : option string;
  user_id : option Z;
  email : option string;
  exp : option Z;
  iat : option Z;
  jti : option string
}.
End Payload.

(** ** Models ([models.py]) *)

Module User.
Record t : Type := mk {
  id : Z;
  email : string;
  password : string;
  is_active : bool
}.
End User.

Module UserSession.
Record t : Type := mk {
  user : Z;
  is_active : bool;
  created_at : Z;
  expires_at : Z;
  last_activity_at : Z
}.

(** [is_expired]: [timezone.now() > self.expires_at] *)
Definition is_expired (now : Z) (self : t) : bool := expires_at self <? now.
End UserSession.

Module RevokedToken.
Record t : Type := mk {
  jti : string;
  revoked_at : Z;
  expires_at : Z
}.

(** [is_valid]: [timezone.now() < self.expires_at] *)
Definition is_valid (now : Z) (self : t) : bool := now <? expires_at self.
End RevokedToken.

Module UserRole.
Record t : Type := mk {
  user : Z;
  role : Z;
  assigned_at : Z
}.
End UserRole.

Module AccessRoleRule.
Record t : Type := mk {
  read_all_permission : bool;
  create_permission : bool;
  update_all_permission : bool;
  delete_all_permission : bool;
  read_own_permission : bool;
  update_own_permission : bool;
  delete_own_permission : bool;
  can_export : bool;
  can_import : bool
}.

(** [has_global_permission]: [action_map.get(action, False)] *)
Definition has_global_permission (self : t) (action : string) : bool :=
  let action_map : gmap string bool :=
    list_to_map [("read", read_all_permission self);
                 ("create", create_permission self);
                 ("update", update_all_permission self);
                 ("delete", delete_all_permission self);
                 ("export", can_export self);
                 ("import", can_import self)] in
  default false (action_map !! action).

(** [has_own_permission]: [action_map.get(action, False)] *)
Definition has_own_permission (self : t) (action : string) : bool :=
  let action_map : gmap string bool :=
    list_to_map [("read", read_own_permission self);
                 ("update", update_own_permission self);
                 ("delete", delete_own_permission self)] in
  default false (action_map !! action).
End AccessRoleRule.

(** ** The database

    [sessions] is keyed by the session's primary key (a UUID, held as
    the text [str] gives of it); [access_rules] by the pair (role,
    element name), which [unique_together] and the unique element name
    make a key. *)

Record Db : Type := mkDb {
  users : list User.t;
  sessions : gmap string UserSession.t;
  revoked_tokens : list RevokedToken.t;
  user_roles : list UserRole.t;
  access_rules : gmap (Z * string) AccessRoleRule.t
}.

(** The world a request runs in: the database, and the log of the
    [AccessRoleRule.objects.get] queries issued so far (newest first). *)
Record World : Type := mkWorld {
  db : Db;
  rule_lookups : list (Z * string)
}.

(** ** The monad of code that reads and writes the world and may raise *)

Definition M (A : Type) : Type := World → (exn + A) * World.

Definition ret {A} (a : A) : M A := λ w, (inr a, w).

Definition bind {A B} (m : M A) (k : A → M B) : M B :=
  λ w, match m w with
       | (inr a, w') => k a w'
       | (inl e, w') => (inl e, w')
       end.

Definition raise {A} (e : exn) : M A := λ w, (inl e, w).

(** [try: m except: h] where the handler re-raises what it does not catch. *)
Definition try_except {A} (m : M A) (h : exn → M A) : M A :=
  λ w, match m w with
       | (inr a, w') => (inr a, w')
       | (inl e, w') => h e w'
       end.

Definition get_db : M Db := λ w, (inr (db w), w).

Definition put_db (d : Db) : M unit :=
  λ w, (inr tt, mkWorld d (rule_lookups w)).

Definition log_rule_lookup (role : Z) (element_name : string) : M unit :=
  λ w, (inr tt, mkWorld (db w) ((role, element_name) :: rule_lookups w)).

Notation "x <- m ;; k" := (bind m (λ x, k))
  (at level 100, m at next level, right associativity, only parsing).
Notation "m >> k" := (bind m (λ _, k))
  (at level 100, k at level 200, right associativity, only parsing).

(** ** Requests and views *)

Record Request : Type := mkRequest {
  method : string;
  Authorization : option string;
  user : option User.t;            (* [None] is [AnonymousUser] *)
  auth : option string;
  must_filter_by_owner : bool      (* [getattr(request, 'must_filter_by_owner', False)] *)
}.

Definition set_user_auth (request : Request) (u : option User.t) (a : option string) : Request :=
  mkRequest (method request) (Authorization request) u a (must_filter_by_owner request).

Definition set_must_filter_by_owner (request : Request) (b : bool) : Request :=
  mkRequest (method request) (Authorization request) (user request) (auth request) b.

(** [request.user.is_authenticated] *)
Definition is_authenticated (u : option User.t) : bool :=
  match u with
  | Some _ => true
  | None => false
  end.

Inductive Authentication : Type :=
| CustomJWTAuthentication.

(** [CustomJWTAuthentication.authenticate_header] returns a challenge,
    ['Bearer realm=api'] with the realm quoted; what matters to the
    framework is that it is not empty. *)
Definition authenticate_header (a : Authentication) : bool :=
  match a with
  | CustomJWTAuthentication => true
  end.

(** Modelled from the spec: [settings.py] is not among the sources. The
    REST framework setting DEFAULT_AUTHENTICATION_CLASSES names the
    repository's own authentication class: every identity-resolution
    failure is to surface as 401, which the framework does only when an
    authenticator with a challenge header is configured. *)
Definition DEFAULT_AUTHENTICATION_CLASSES : list Authentication :=
  [CustomJWTAuthentication].

Inductive Permission : Type :=
| AllowAny
| IsAuthenticated
| CustomIsAuthenticated
| HasPermission.

Record View : Type := mkView {
  permission_classes : list Permission;
  resource_name : option string;
  queryset_model_name : option string
}.

(** A business object as the ownership check sees it: for each of the
    attributes [owner], [user] and [created_by] the id of the user it
    holds, or [None] when the object has no such attribute. *)
Record BusinessObject : Type := mkBusinessObject {
  model_name : string;
  owner : option Z;
  object_user : option Z;
  created_by : option Z
}.

Inductive Body : Type :=
| Message (text : string)
| Errors (detail : string)
| FieldErrors (email password : option string)   (* the message of each field in error *)
| Token (token : string) (user_id : Z)
| Objects (owner_ids : list (Z * option Z))   (* (id, owner_id) of each listed object *)
| Empty.

Record Response : Type := mkResponse {
  status_code : Z;
  data : Body
}.

(** The decision the permission check encodes in its result and in the
    flag it leaves on the request. *)
Inductive Decision : Type :=
| Denied
| GrantedGlobal
| GrantedOwnOnly.

Definition decision_of (r : bool * Request) : Decision :=
  if r.1 then (if must_filter_by_owner r.2 then GrantedOwnOnly else GrantedGlobal)
  else Denied.

(** What [request.data.get] gives for the key [user_id] of a request
    body: nothing (the key is absent, or holds null), an integer, or a
    text. *)
Inductive Datum : Type :=
| DataNone
| DataInt (i : Z)
| DataText (s : string).

(** What a serializer field makes of the value given for it. *)
Inductive FieldResult : Type :=
| Invalid (message : string)
| Valid (value : string).

Definition message_of (r : FieldResult) : option string :=
  match r with
  | Invalid message => Some message
  | Valid _ => None
  end.

(** ** Queries *)

(** [User.objects.get(email=email)] *)
Definition User_get_by_email (email : string) : M User.t :=
  d <- get_db ;;
  match List.find (λ u, String.eqb (User.email u) email) (users d) with
  | Some u => ret u
  | None => raise DoesNotExist
  end.

Definition find_user (d : Db) (uid : Z) : option User.t :=
  List.find (λ u, User.id u =? uid) (users d).

(** The filter of
    [UserSession.objects.get(id=.., is_active=True, expires_at__gt=now, user__is_active=True)];
    [UserSession_get] is the query for a primary key, once the value
    given for [id] has been converted to one (see
    [UserSession_objects_get]). *)
Definition session_usable (d : Db) (now : Z) (s : UserSession.t) : option User.t :=
  match find_user d (UserSession.user s) with
  | Some u =>
      if UserSession.is_active s && (now <? UserSession.expires_at s) && User.is_active u
      then Some u else None
  | None => None
  end.

Definition UserSession_get (now : Z) (pk : string) : M (UserSession.t * User.t) :=
  d <- get_db ;;
  match sessions d !! pk with
  | Some s =>
      match session_usable d now s with
      | Some u => ret (s, u)
      | None => raise DoesNotExist
      end
  | None => raise DoesNotExist
  end.

Definition with_sessions (d : Db) (ss : gmap string UserSession.t) : Db :=
  mkDb (users d) ss (revoked_tokens d) (user_roles d) (access_rules d).

Definition with_revoked_tokens (d : Db) (rs : list RevokedToken.t) : Db :=
  mkDb (users d) (sessions d) rs (user_roles d) (access_rules d).

(** [session.save()]: [last_activity_at] has [auto_now]; [expires_at] is set. *)
Definition touch (now : Z) (s : UserSession.t) : UserSession.t :=
  UserSession.mk (UserSession.user s) (UserSession.is_active s)
    (UserSession.created_at s) (UserSession.expires_at s) now.

Definition UserSession_save (now : Z) (session_id : string) (s : UserSession.t) : M unit :=
  d <- get_db ;;
  put_db (with_sessions d (<[session_id := touch now s]> (sessions d))).

(** [RevokedToken.objects.filter(jti=jti, expires_at__gt=now).exists()] *)
Definition RevokedToken_in_force (d : Db) (now : Z) (jti : string) : bool :=
  existsb (λ r, String.eqb (RevokedToken.jti r) jti && (now <? RevokedToken.expires_at r))
          (revoked_tokens d).

(** [RevokedToken.objects.get_or_create(jti=jti, defaults={'expires_at': expires_at})];
    [revoked_at] defaults to [timezone.now]. *)
Definition RevokedToken_get_or_create (now : Z) (jti : string) (expires_at : Z) : M unit :=
  d <- get_db ;;
  if existsb (λ r, String.eqb (RevokedToken.jti r) jti) (revoked_tokens d)
  then ret tt
  else put_db (with_revoked_tokens d
                 (revoked_tokens d ++ [RevokedToken.mk jti now expires_at])).

(** [sessions.filter(is_active=True).update(is_active=False)] on the
    sessions of user [uid]. *)
Definition deactivate_if_of (uid : Z) (s : UserSession.t) : UserSession.t :=
  if (UserSession.user s =? uid) && UserSession.is_active s
  then UserSession.mk (UserSession.user s) false (UserSession.created_at s)
         (UserSession.expires_at s) (UserSession.last_activity_at s)
  else s.

Definition deactivate_sessions (uid : Z) : M unit :=
  d <- get_db ;;
  put_db (with_sessions d (deactivate_if_of uid <$> sessions d)).

(** [AccessRoleRule.objects.get(role=role, element__name=resource_name)] *)
Definition AccessRoleRule_get (role : Z) (resource_name : string) : M AccessRoleRule.t :=
  log_rule_lookup role resource_name >>
  d <- get_db ;;
  match access_rules d !! (role, resource_name) with
  | Some rule => ret rule
  | None => raise DoesNotExist
  end.

(** [UserRole.Meta.ordering = ['-assigned_at']]: rows come newest first.
    The order among rows assigned at the same time is the database's
    choice, so the code below takes the order as a parameter. This is
    one such order, the one that keeps tied rows in table order; the
    examples are run on it. *)
Fixpoint insert_by_assigned_at (r : UserRole.t) (l : list UserRole.t) : list UserRole.t :=
  match l with
  | [] => [r]
  | x :: xs =>
      if UserRole.assigned_at x <=? UserRole.assigned_at r
      then r :: x :: xs
      else x :: insert_by_assigned_at r xs
  end.

Definition order_by_assigned_at_desc (l : list UserRole.t) : list UserRole.t :=
  foldr insert_by_assigned_at [] l.

(** Role rows newest first, in whatever order ties come. *)
Fixpoint newest_first (l : list UserRole.t) : Prop :=
  match l with
  | [] => True
  | x :: xs =>
      Forall (λ y, UserRole.assigned_at y ≤ UserRole.assigned_at x) xs ∧ newest_first xs
  end.

(** ** Further tables and queries *)

Module Role.
Record t : Type := mk {
  id : Z;
  name : string;
  is_system : bool
}.
End Role.

Definition with_users (d : Db) (us : list User.t) : Db :=
  mkDb us (sessions d) (revoked_tokens d) (user_roles d) (access_rules d).

Definition with_user_roles (d : Db) (rs : list UserRole.t) : Db :=
  mkDb (users d) (sessions d) (revoked_tokens d) rs (access_rules d).

(** [user.save()]: the row with the object's primary key is overwritten
    with the object; a row is added when there is none. *)
Definition User_save (self : User.t) : M unit :=
  d <- get_db ;;
  if existsb (λ r, User.id r =? User.id self) (users d)
  then put_db (with_users d
                 (List.map (λ r, if User.id r =? User.id self then self else r) (users d)))
  else put_db (with_users d (users d ++ [self])).

(** [UserRole.objects.get_or_create(user=user, role=role)];
    [assigned_at] defaults to [timezone.now]. *)
Definition UserRole_get_or_create (now : Z) (user role : Z) : M unit :=
  d <- get_db ;;
  if existsb (λ r, (UserRole.user r =? user) && (UserRole.role r =? role)) (user_roles d)
  then ret tt
  else put_db (with_user_roles d (user_roles d ++ [UserRole.mk user role now])).

(** [s.count(c)] for a single character [c] *)
Fixpoint count_char (c : ascii) (s : string) : nat :=
  match s with
  | EmptyString => 0
  | String c' r => ((if Ascii.eqb c' c then 1 else 0) + count_char c r)%nat
  end.

(** ** The code, over the settings and the libraries it calls

    [SECRET_KEY] is [settings.SECRET_KEY]. PyJWT is taken through what
    the code observes of it: [jwt_encode key payload] is the compact
    serialization, [jwt_claims token] the claims of a token that parses
    as a three-part structure, [jwt_verify key token] whether its HS256
    signature validates under [key]. [check_password raw stored] is
    Django's password hasher. The database's row order and the
    conversions Django and Python apply to values that come from
    outside are parameters as well. *)

Section Core.

Variable SECRET_KEY : string.
Variable jwt_encode : string → Payload.t → string.
Variable jwt_claims : string → option Payload.t.
Variable jwt_verify : string → string → bool.
Variable check_password : string → string → bool.

(** [ordered rows] is the rows of a [UserRole] queryset as the database
    returns them under [Meta.ordering = ['-assigned_at']]: a
    rearrangement of [rows], newest first (the two laws are assumed
    where the properties are proved). *)
Variable ordered : list UserRole.t → list UserRole.t.

(** [user.user_roles.select_related('role').all()] *)
Definition user_roles_all (d : Db) (u : User.t) : list UserRole.t :=
  ordered (List.filter (λ r, UserRole.user r =? User.id u) (user_roles d)).

(** [UUIDField.to_python]: the UUID a text denotes, as the text [str]
    gives of it, or [None] when the text denotes no UUID and Django
    raises its [ValidationError]. *)
Variable UUIDField_to_python : string → option string.

(** [UserSession.objects.get(id=session_id, is_active=True,
    expires_at__gt=now, user__is_active=True)] as the code calls it, with
    the text a token carries: the field converts the text first. The
    result is the row, under its primary key, and its user. *)
Definition UserSession_objects_get (now : Z) (session_id : string)
    : M (string * UserSession.t * User.t) :=
  match UUIDField_to_python session_id with
  | None => raise DjangoValidationError
  | Some pk =>
      found <- UserSession_get now pk ;;
      ret (pk, found.1, found.2)
  end.

(** [jwt.decode(token, SECRET_KEY, algorithms=['HS256'], options={'verify_exp': verify_exp})] *)
Definition jwt_decode (token : string) (verify_exp : bool) (now : Z) : M Payload.t :=
  match jwt_claims token with
  | None => raise DecodeError
  | Some payload =>
      if negb (jwt_verify SECRET_KEY token) then raise InvalidSignatureError
      else if verify_exp && match Payload.exp payload with
                            | Some e => e <=? now
                            | None => false
                            end
      then raise ExpiredSignatureError
      else ret payload
  end.

(** *** [authentication.py] *)

(** [CustomJWTAuthentication._is_token_revoked] *)
Definition _is_token_revoked (now : Z) (token : string) : M bool :=
  returned <- try_except
    (payload <- jwt_decode token false now ;;
     let jti := Payload.jti payload in
     d <- get_db ;;
     if truthy_str jti && RevokedToken_in_force d now (default "" jti)
     then ret (Some true)
     else ret None)
    (λ e, if is_InvalidTokenError e then ret None else raise e) ;;
  match returned with
  | Some b => ret b
  | None => ret false
  end.

(** [CustomJWTAuthentication.authenticate] *)
Definition authenticate (now : Z) (request : Request) : M (option (User.t * string)) :=
  let auth_header := Authorization request in
  if negb (truthy_str auth_header) || negb (startswith "Bearer " (default "" auth_header))
  then ret None
  else
    let token := slice_from 7 (default "" auth_header) in
    try_except
      (revoked <- _is_token_revoked now token ;;
       if revoked then raise (AuthenticationFailed "Token revoked") else
       payload <- jwt_decode token true now ;;
       let session_id := Payload.session_id payload in
       if negb (truthy_str session_id)
       then raise (AuthenticationFailed "Invalid token: no session_id") else
       found <- UserSession_objects_get now (default "" session_id) ;;
       UserSession_save now found.1.1 found.1.2 >>
       ret (Some (found.2, token)))
      (λ e, if is_ExpiredSignatureError e then raise (AuthenticationFailed "Token expired")
            else if is_InvalidTokenError e then raise (AuthenticationFailed "Invalid token")
            else if is_DoesNotExist e
                 then raise (AuthenticationFailed "Session not found or inactive")
            else raise e).

(** *** [middleware.py] *)

(** [CustomAuthMiddleware._is_token_revoked] *)
Definition Middleware_is_token_revoked (now : Z) (token : string) : M bool :=
  returned <- try_except
    (payload <- jwt_decode token false now ;;
     let jti := Payload.jti payload in
     d <- get_db ;;
     if truthy_str jti && RevokedToken_in_force d now (default "" jti)
     then ret (Some true)
     else ret None)
    (λ e, if is_InvalidTokenError e then ret None else raise e) ;;
  match returned with
  | Some b => ret b
  | None => ret false
  end.

(** *** [models.py]: sessions and tokens *)

(** [UserSession.create_jwt_token] *)
Definition create_jwt_token (now : Z) (session_id : string) (self : UserSession.t)
    (owner : User.t) : string :=
  let payload := Payload.mk
    (Some session_id)                    (* 'session_id': str(self.id) *)
    (Some (User.id owner))               (* 'user_id': self.user.id *)
    (Some (User.email owner))            (* 'email': self.user.email *)
    (Some (UserSession.expires_at self)) (* 'exp': self.expires_at *)
    (Some now)                           (* 'iat': timezone.now() *)
    None in
  jwt_encode SECRET_KEY payload.

(** [timezone.timedelta(days=7)] in seconds *)
Definition seven_days : Z := 7 * 24 * 60 * 60.

(** [User.create_session]; [new_id] is the [uuid.uuid4()] drawn for the row. *)
Definition create_session (now : Z) (new_id : string) (self : User.t) : M string :=
  let session := UserSession.mk (User.id self) true now (now + seven_days) now in
  d <- get_db ;;
  put_db (with_sessions d (<[new_id := session]> (sessions d))) >>
  ret (create_jwt_token now new_id session self).

(** *** [serializers.py] *)

(** [UserLoginSerializer.validate] *)
Definition UserLoginSerializer_validate (email password : string) : M User.t :=
  u <- try_except (User_get_by_email email)
         (λ e, if is_DoesNotExist e
               then raise (ValidationError "Неверный email или пароль")
               else raise e) ;;
  if negb (User.is_active u) then raise (ValidationError "Аккаунт деактивирован") else
  if negb (check_password password (User.password u))
  then raise (ValidationError "Неверный email или пароль") else
  ret u.

(** *** [permissions.py] *)

(** [HasPermission._get_action_from_method]: [method_map.get(method, 'read')] *)
Definition method_map : gmap string string :=
  list_to_map [("GET", "read"); ("POST", "create"); ("PUT", "update");
               ("PATCH", "update"); ("DELETE", "delete")].

Definition _get_action_from_method (method : string) : string :=
  default "read" (method_map !! method).

(** One turn of the [for user_role in user_roles] loop of
    [HasPermission.has_permission]: [Some r] when the body returns [r],
    [None] when the loop goes on to the next role. *)
Definition has_permission_body (request : Request) (resource_name action : string)
    (user_role : UserRole.t) : M (option (bool * Request)) :=
  try_except
    (rule <- AccessRoleRule_get (UserRole.role user_role) resource_name ;;
     if AccessRoleRule.has_global_permission rule action
     then ret (Some (true, request))
     else if AccessRoleRule.has_own_permission rule action
     then ret (Some (true, set_must_filter_by_owner request true))
     else ret None)
    (λ e, if is_DoesNotExist e then ret None else raise e).

Fixpoint has_permission_loop (request : Request) (resource_name action : string)
    (user_roles : list UserRole.t) : M (bool * Request) :=
  match user_roles with
  | [] => ret (false, request)
  | user_role :: rest =>
      returned <- has_permission_body request resource_name action user_role ;;
      match returned with
      | Some r => ret r
      | None => has_permission_loop request resource_name action rest
      end
  end.

(** The resource a view is checked against: its [resource_name], else
    the model name of its queryset, else none. *)
Definition view_resource_name (view : View) : option string :=
  if truthy_str (resource_name view) then resource_name view
  else queryset_model_name view.

(** [HasPermission.has_permission] *)
Definition HasPermission_has_permission (request : Request) (view : View)
    : M (bool * Request) :=
  match user request with
  | None => ret (false, request)
  | Some u =>
      match view_resource_name view with
      | None => ret (false, request)
      | Some resource_name =>
          let action := _get_action_from_method (method request) in
          d <- get_db ;;
          has_permission_loop request resource_name action (user_roles_all d u)
      end
  end.

(** [HasPermission._is_owner] *)
Definition _is_owner (u : User.t) (obj : BusinessObject) : bool :=
  if bool_decide (owner obj = Some (User.id u)) then true
  else if bool_decide (object_user obj = Some (User.id u)) then true
  else if bool_decide (created_by obj = Some (User.id u)) then true
  else false.

(** One turn of the loop of [HasPermission.has_object_permission]. *)
Definition has_object_permission_body (u : User.t) (obj : BusinessObject)
    (resource_name action : string) (user_role : UserRole.t) : M (option bool) :=
  try_except
    (rule <- AccessRoleRule_get (UserRole.role user_role) resource_name ;;
     if AccessRoleRule.has_global_permission rule action
     then ret (Some true)
     else if AccessRoleRule.has_own_permission rule action && _is_owner u obj
     then ret (Some true)
     else ret None)
    (λ e, if is_DoesNotExist e then ret None else raise e).

Fixpoint has_object_permission_loop (u : User.t) (obj : BusinessObject)
    (resource_name action : string) (user_roles : list UserRole.t) : M bool :=
  match user_roles with
  | [] => ret false
  | user_role :: rest =>
      returned <- has_object_permission_body u obj resource_name action user_role ;;
      match returned with
      | Some r => ret r
      | None => has_object_permission_loop u obj resource_name action rest
      end
  end.

(** [HasPermission.has_object_permission] *)
Definition HasPermission_has_object_permission (request : Request) (view : View)
    (obj : BusinessObject) : M bool :=
  let resource_name :=
    if truthy_str (resource_name view) then default "" (resource_name view)
    else model_name obj in
  let action := _get_action_from_method (method request) in
  match user request with
  | Some u =>
      d <- get_db ;;
      has_object_permission_loop u obj resource_name action (user_roles_all d u)
  | None => raise AttributeError      (* [AnonymousUser] has no [user_roles] *)
  end.

(** [CustomIsAuthenticated.has_permission] *)
Definition CustomIsAuthenticated_has_permission (request : Request) : M (bool * Request) :=
  if negb (is_authenticated (user request))
  then raise (AuthenticationFailed "Authentication credentials were not provided.")
  else ret (true, request).

(** The permission decision for a principal, a request method and a view:
    [HasPermission.has_permission] on a fresh request. *)
Definition decide (principal : option User.t) (method : string) (view : View) : M Decision :=
  r <- HasPermission_has_permission (mkRequest method None principal None false) view ;;
  ret (decision_of r).

(** *** Django REST framework: how a view runs its checks *)

Definition has_permission (p : Permission) (request : Request) (view : View)
    : M (bool * Request) :=
  match p with
  | AllowAny => ret (true, request)
  | IsAuthenticated => ret (is_authenticated (user request), request)
  | CustomIsAuthenticated => CustomIsAuthenticated_has_permission request
  | HasPermission => HasPermission_has_permission request view
  end.

(** [APIView.permission_denied]: a request that went through
    authenticators without success is answered [NotAuthenticated], any
    other [PermissionDenied]. *)
Definition permission_denied {A} (request : Request) : M A :=
  if negb (bool_decide (DEFAULT_AUTHENTICATION_CLASSES = []))
     && negb (is_authenticated (user request))
  then raise NotAuthenticated
  else raise PermissionDenied.

(** [APIView.check_permissions] *)
Fixpoint check_permissions (perms : list Permission) (request : Request) (view : View)
    : M Request :=
  match perms with
  | [] => ret request
  | p :: rest =>
      r <- has_permission p request view ;;
      if r.1 then check_permissions rest r.2 view
      else permission_denied r.2
  end.

(** [authenticator.authenticate(request)] *)
Definition authenticator_authenticate (a : Authentication) (now : Z) (request : Request)
    : M (option (User.t * string)) :=
  match a with
  | CustomJWTAuthentication => authenticate now request
  end.

(** [Request._authenticate]: the first authenticator that returns a
    pair decides; an exception of one ends the attempt. *)
Fixpoint perform_authentication (authenticators : list Authentication) (now : Z)
    (request : Request) : M (option (User.t * string)) :=
  match authenticators with
  | [] => ret None
  | a :: rest =>
      r <- authenticator_authenticate a now request ;;
      match r with
      | Some user_auth => ret (Some user_auth)
      | None => perform_authentication rest now request
      end
  end.

(** [APIView.handle_exception]: an authentication failure keeps its
    401 when the first authenticator supplies a [WWW-Authenticate]
    header, and is turned into 403 otherwise. *)
Definition handle_exception (e : exn) : M Response :=
  let unauthorized : Z :=
    match DEFAULT_AUTHENTICATION_CLASSES with
    | a :: _ => if authenticate_header a then 401 else 403
    | [] => 403
    end in
  match e with
  | AuthenticationFailed detail => ret (mkResponse unauthorized (Errors detail))
  | NotAuthenticated =>
      ret (mkResponse unauthorized
             (Errors "Authentication credentials were not provided."))
  | PermissionDenied =>
      ret (mkResponse 403 (Errors "You do not have permission to perform this action."))
  | ValidationError detail => ret (mkResponse 400 (Errors detail))
  | MethodNotAllowed method =>
      ret (mkResponse 405
             (Errors ("Method " +:+ quoted method +:+ " not allowed.")))
  | _ => raise e
  end.

(** [APIView.dispatch]: authenticate, check the permissions, then call
    the handler. *)
Definition dispatch (view : View) (handler : Request → M Response) (now : Z)
    (request : Request) : M Response :=
  try_except
    (a <- perform_authentication DEFAULT_AUTHENTICATION_CLASSES now request ;;
     let request :=
       match a with
       | Some (u, token) => set_user_auth request (Some u) (Some token)
       | None => set_user_auth request None None
       end in
     request <- check_permissions (permission_classes view) request view ;;
     handler request)
    handle_exception.

(** [@api_view(methods)]: the decorated function handles the listed
    methods; the framework itself answers OPTIONS, with a description
    of the view; any other method is not allowed. The view runs this
    after authentication and the permission checks. *)
Definition api_view (methods : list string) (handler : Request → M Response)
    (request : Request) : M Response :=
  if bool_decide (method request ∈ methods) then handler request
  else if String.eqb (method request) "OPTIONS" then ret (mkResponse 200 Empty)
  else raise (MethodNotAllowed (method request)).

(** *** [views/mock_views.py] *)

Definition MockProductView : View :=
  mkView [CustomIsAuthenticated; HasPermission] (Some "products") None.

(** [MockProductView.get]; a product is listed as (id, owner_id). *)
Definition MockProductView_get (request : Request) : M Response :=
  let me : option Z := User.id <$> user request in
  let mock_products : list (Z * option Z) := [(1, Some 999); (2, Some 998); (3, me)] in
  let mock_products :=
    if must_filter_by_owner request
    then List.filter (λ p, bool_decide (p.2 = me)) mock_products
    else mock_products in
  ret (mkResponse 200 (Objects mock_products)).

(** [MockProductView.post] *)
Definition MockProductView_post (request : Request) : M Response :=
  ret (mkResponse 201 (Message "Товар создан")).

Definition MockProductView_handler (request : Request) : M Response :=
  if String.eqb (method request) "GET" || String.eqb (method request) "HEAD"
  then MockProductView_get request
  else if String.eqb (method request) "POST" then MockProductView_post request
  else if String.eqb (method request) "OPTIONS" then ret (mkResponse 200 Empty)
  else raise (MethodNotAllowed (method request)).

(** A request to [/api/products/]. *)
Definition products (now : Z) (request : Request) : M Response :=
  dispatch MockProductView MockProductView_handler now request.

(** *** [views/auth.py] *)

(** The fields [email = EmailField(required=True)] and
    [password = CharField(required=True, write_only=True)] of
    [UserLoginSerializer], as the framework runs them on the value the
    request body holds for the field ([None] when it holds none): they
    give the validated value, or the message of the field's error. *)
Variable EmailField_run_validation : option string → FieldResult.
Variable CharField_run_validation : option string → FieldResult.

(** [serializer.is_valid()] for [UserLoginSerializer(data=request.data)]:
    the fields are validated first; [validate] runs on their values
    only when both pass, and a validation error it raises is kept.
    The result is [serializer.errors], or the validated user. *)
Definition UserLoginSerializer_is_valid (email password : option string) : M (Body + User.t) :=
  match EmailField_run_validation email, CharField_run_validation password with
  | Valid email, Valid password =>
      try_except
        (u <- UserLoginSerializer_validate email password ;; ret (inr u))
        (λ e, match e with
              | ValidationError detail => ret (inl (Errors detail))
              | _ => raise e
              end)
  | email, password => ret (inl (FieldErrors (message_of email) (message_of password)))
  end.

(** The function [login]; [email] and [password] are what [request.data]
    holds for the two fields, [new_id] is the primary key drawn for the
    new session. *)
Definition login_handler (now : Z) (new_id : string) (email password : option string)
    (request : Request) : M Response :=
  validated <- UserLoginSerializer_is_valid email password ;;
  match validated with
  | inr u =>
      token <- create_session now new_id u ;;
      ret (mkResponse 200 (Token token (User.id u)))
  | inl errors => ret (mkResponse 401 errors)
  end.

Definition login_view : View := mkView [AllowAny] None None.

(** A request to [/api/auth/login/]. *)
Definition login (now : Z) (new_id : string) (email password : option string)
    (request : Request) : M Response :=
  dispatch login_view (api_view ["POST"] (login_handler now new_id email password))
    now request.

(** Whether the platform's [datetime] can hold the moment [exp] seconds
    after the epoch. *)
Variable datetime_representable : Z → bool.

(** [timezone.datetime.fromtimestamp(exp, tz=timezone.utc)]: the moment
    itself, or an error ([OverflowError]; for some values [ValueError]
    or [OSError]) when [datetime] cannot hold it. *)
Definition fromtimestamp (exp : Z) : M Z :=
  if datetime_representable exp then ret exp else raise OverflowError.

(** The first half of [logout]: the token goes to the blacklist. *)
Definition revoke (now : Z) (token : string) : M unit :=
  try_except
    (payload <- jwt_decode token false now ;;
     let jti := Payload.jti payload in
     let exp := Payload.exp payload in
     if truthy_str jti && truthy_num exp
     then
       expires_at <- fromtimestamp (default 0 exp) ;;
       RevokedToken_get_or_create now (default "" jti) expires_at
     else ret tt)
    (λ e, if is_InvalidTokenError e then ret tt else raise e).

(** [logout] *)
Definition logout_handler (now : Z) (request : Request) : M Response :=
  let token := auth request in
  (if truthy_str token then revoke now (default "" token) else ret tt) >>
  match user request with
  | Some u =>
      deactivate_sessions (User.id u) >>
      ret (mkResponse 200 (Message "Успешный выход из системы"))
  | None => raise AttributeError      (* [AnonymousUser] has no [sessions] *)
  end.

Definition logout_view : View := mkView [IsAuthenticated] None None.

(** A request to [/api/auth/logout/]. *)
Definition logout (now : Z) (request : Request) : M Response :=
  dispatch logout_view (api_view ["POST"] (logout_handler now)) now request.

(** *** [models.py]: the remaining methods *)

(** [UserSession.deactivate] *)
Definition UserSession_deactivate (now : Z) (session_id : string) (self : UserSession.t)
    : M unit :=
  let self := UserSession.mk (UserSession.user self) false (UserSession.created_at self)
                (UserSession.expires_at self) (UserSession.last_activity_at self) in
  UserSession_save now session_id self.

(** [User.soft_delete]; the method also stamps [deleted_at], a column
    that nothing reads and the user record here does not carry. It
    returns the object as the method leaves it. *)
Definition soft_delete (self : User.t) : M User.t :=
  let self := User.mk (User.id self) (User.email self) (User.password self) false in
  deactivate_sessions (User.id self) >>
  User_save self >>
  ret self.

(** [User.roles]: [[ur.role for ur in self.user_roles.all()]] *)
Definition User_roles (d : Db) (self : User.t) : list Z :=
  UserRole.role <$> user_roles_all d self.

(** [first_of rows] is the row [first()] returns for a [UserRole]
    queryset of these rows: a query of its own, for one row under the
    model's ordering. Which of several rows assigned last it returns is
    the database's choice, and need not be the one [all()] lists first. *)
Variable first_of : list UserRole.t → option UserRole.t.

(** [User.role]: the role of [self.user_roles.first()], if any *)
Definition User_role (d : Db) (self : User.t) : option Z :=
  UserRole.role <$> first_of (List.filter (λ r, UserRole.user r =? User.id self)
                                (user_roles d)).

(** [AccessRoleRule.get_permissions_summary] *)
Definition get_permissions_summary (self : AccessRoleRule.t) : gmap string (gmap string bool) :=
  list_to_map
    [("global", list_to_map [("read", AccessRoleRule.read_all_permission self);
                             ("create", AccessRoleRule.create_permission self);
                             ("update", AccessRoleRule.update_all_permission self);
                             ("delete", AccessRoleRule.delete_all_permission self)]);
     ("own", list_to_map [("read", AccessRoleRule.read_own_permission self);
                          ("update", AccessRoleRule.update_own_permission self);
                          ("delete", AccessRoleRule.delete_own_permission self)]);
     ("additional", list_to_map [("export", AccessRoleRule.can_export self);
                                 ("import", AccessRoleRule.can_import self)])].

(** *** [middleware.py]: the middleware itself *)

Definition public_paths : list string :=
  ["/api/auth/login/"; "/api/auth/register/"; "/api/docs/"; "/api/schema/"].

(** The [try] block of [CustomAuthMiddleware.__call__]; [request]
    already has [user = None]. *)
Definition middleware_resolve (now : Z) (token : string) (request : Request) : M Request :=
  if (count_char "."%char token =? 2)%nat
  then
    revoked <- Middleware_is_token_revoked now token ;;
    if negb revoked
    then
      payload <- jwt_decode token true now ;;
      let session_id := Payload.session_id payload in
      if truthy_str session_id
      then
        found <- UserSession_objects_get now (default "" session_id) ;;
        let request := set_user_auth request (Some found.2) (auth request) in
        UserSession_save now found.1.1 found.1.2 >>
        ret request
      else ret request
    else ret request
  else ret request.

(** [CustomAuthMiddleware.__call__]; [path] is [request.path]. *)
Definition CustomAuthMiddleware_call (get_response : Request → M Response) (now : Z)
    (path : string) (request : Request) : M Response :=
  if startswith "/admin/" path || bool_decide (path ∈ public_paths)
  then get_response request
  else
    let auth_header := Authorization request in
    let token :=
      if truthy_str auth_header && startswith "Bearer " (default "" auth_header)
      then Some (slice_from 7 (default "" auth_header))
      else None in
    let request := set_user_auth request None (auth request) in
    request <-
      (if truthy_str token
       then try_except (middleware_resolve now (default "" token) request)
              (λ e, if is_ExpiredSignatureError e || is_InvalidTokenError e
                       || is_DoesNotExist e
                    then ret request else raise e)
       else ret request) ;;
    get_response request.

(** *** [permissions.py] and [views/admin.py]: the administrators' API

    The role table is only read here; it is an argument. *)

(** [IsAdminUser.has_permission] *)
Definition IsAdminUser_has_permission (roles : list Role.t) (request : Request) : M bool :=
  match user request with
  | None => ret false
  | Some u =>
      d <- get_db ;;
      ret (existsb
             (λ ur, (UserRole.user ur =? User.id u)
                    && existsb (λ r, (Role.id r =? UserRole.role ur)
                                     && String.eqb (Role.name r) "admin") roles)
             (user_roles d))
  end.

(** Whether the database can take an integer as the value of an id
    column (for SQLite, a signed 64-bit integer). *)
Variable int_fits : Z → bool.

(** [UserRoleManagementView.post], once the value given for [user_id]
    is an integer or nothing (see [UserRoleManagementView_post_data]);
    [role_name] is [request.data.get('role_name')], a text or nothing.
    An id the database cannot take is the id of no row; the query for
    it does not come back empty but raises [OverflowError], which the
    view does not catch. *)
Definition UserRoleManagementView_post (roles : list Role.t) (now : Z)
    (user_id : option Z) (role_name : option string) : M Response :=
  d <- get_db ;;
  match user_id ≫= λ i, List.find (λ u, (User.id u =? i) && User.is_active u) (users d) with
  | None =>
      if default true (int_fits <$> user_id)
      then ret (mkResponse 404 (Errors "Пользователь не найден"))
      else raise OverflowError
  | Some u =>
      match role_name ≫= λ n, List.find (λ r, String.eqb (Role.name r) n) roles with
      | None => ret (mkResponse 404 (Errors "Роль не найдена"))
      | Some role =>
          UserRole_get_or_create now (User.id u) (Role.id role) >>
          ret (mkResponse 200
                 (Message ("Роль " +:+ default "" role_name
                           +:+ " назначена пользователю " +:+ User.email u)))
      end
  end.

(** [int(s)] for a text: the integer it denotes, or [None] when it
    denotes none and Python raises [ValueError]. *)
Variable int_of_text : string → option Z.

(** [AutoField.get_prep_value]: what the id column makes of the value
    given for it in a query: [int(value)], nothing for [None], or the
    [ValueError] of a text that denotes no integer. *)
Definition AutoField_get_prep_value (value : Datum) : exn + option Z :=
  match value with
  | DataNone => inr None
  | DataInt i => inr (Some i)
  | DataText s =>
      match int_of_text s with
      | Some i => inr (Some i)
      | None => inl ValueError
      end
  end.

(** [UserRoleManagementView.post] on the value the request body holds
    for [user_id]: the user query converts it first, and the
    [ValueError] of a text that denotes no integer is not among the
    exceptions the view catches. *)
Definition UserRoleManagementView_post_data (roles : list Role.t) (now : Z)
    (user_id : Datum) (role_name : option string) : M Response :=
  match AutoField_get_prep_value user_id with
  | inl e => raise e
  | inr user_id => UserRoleManagementView_post roles now user_id role_name
  end.

(** *** [views/mock_views.py] and [views/auth.py]: further views *)

Definition MockOrderView : View :=
  mkView [CustomIsAuthenticated; HasPermission] (Some "orders") None.

(** [MockOrderView.get]; an order is listed as (id, owner_id). *)
Definition MockOrderView_get (request : Request) : M Response :=
  let me : option Z := User.id <$> user request in
  let mock_orders : list (Z * option Z) := [(1, Some 999); (2, Some 998); (3, me)] in
  let mock_orders :=
    if must_filter_by_owner request
    then List.filter (λ o, bool_decide (o.2 = me)) mock_orders
    else mock_orders in
  ret (mkResponse 200 (Objects mock_orders)).

Definition MockOrderView_handler (request : Request) : M Response :=
  if String.eqb (method request) "GET" || String.eqb (method request) "HEAD"
  then MockOrderView_get request
  else if String.eqb (method request) "OPTIONS" then ret (mkResponse 200 Empty)
  else raise (MethodNotAllowed (method request)).

(** A request to [/api/orders/]. *)
Definition orders (now : Z) (request : Request) : M Response :=
  dispatch MockOrderView MockOrderView_handler now request.

(** [MockUserManagementView] of [views/mock_views.py] *)
Definition MockUserManagementView : View :=
  mkView [HasPermission] (Some "users") None.

(** *** Example data *)

Definition alice : User.t := User.mk 1 "alice@example.com" "wonderland" true.
Definition bob : User.t := User.mk 2 "bob@example.com" "builder" false.

Definition role_manager : Z := 10.
Definition role_user : Z := 20.

Definition rule_read_all : AccessRoleRule.t :=
  AccessRoleRule.mk true false false false false false false false false.
Definition rule_read_own : AccessRoleRule.t :=
  AccessRoleRule.mk false false false false true false false false false.

Definition example_rules : gmap (Z * string) AccessRoleRule.t :=
  <[(role_manager, "products") := rule_read_all]>
    (<[(role_user, "products") := rule_read_own]> ∅).

(** Alice holds both roles; [manager] was assigned to her before [user]. *)
Definition db_manager_then_user : Db :=
  mkDb [alice; bob] ∅ []
    [UserRole.mk 1 role_manager 100; UserRole.mk 1 role_user 200] example_rules.

(** The same two roles, assigned in the other order. *)
Definition db_user_then_manager : Db :=
  mkDb [alice; bob] ∅ []
    [UserRole.mk 1 role_manager 200; UserRole.mk 1 role_user 100] example_rules.

(** *** Notions the statements use *)

(** The number of ledger rows with a given [jti]. *)
Definition entries_for (jti : string) (ledger : list RevokedToken.t) : nat :=
  length (List.filter (λ r, String.eqb (RevokedToken.jti r) jti) ledger).

(** The three ways a login attempt fails. *)
Definition email_absent (d : Db) (email : string) : Prop :=
  List.find (λ u, String.eqb (User.email u) email) (users d) = None.

Definition principal_inactive (d : Db) (email : string) : Prop :=
  ∃ u, List.find (λ u, String.eqb (User.email u) email) (users d) = Some u
       ∧ User.is_active u = false.

Definition password_mismatch (d : Db) (email password : string) : Prop :=
  ∃ u, List.find (λ u, String.eqb (User.email u) email) (users d) = Some u
       ∧ User.is_active u = true
       ∧ check_password password (User.password u) = false.

(** What a role's rule grants on one object: the action globally, or
    the action on own objects when the principal owns the object. *)
Definition role_grants_on (d : Db) (u : User.t) (obj : BusinessObject)
    (resource_name action : string) (ur : UserRole.t) : bool :=
  match access_rules d !! (UserRole.role ur, resource_name) with
  | Some rule =>
      AccessRoleRule.has_global_permission rule action
      || (AccessRoleRule.has_own_permission rule action && _is_owner u obj)
  | None => false
  end.

(** What a role's rule on a resource grants for an action, in either plane. *)
Definition role_grants (d : Db) (resource_name action : string) (ur : UserRole.t) : bool :=
  match access_rules d !! (UserRole.role ur, resource_name) with
  | Some rule =>
      AccessRoleRule.has_global_permission rule action
      || AccessRoleRule.has_own_permission rule action
  | None => false
  end.

(** What the role loop of [has_permission] comes to: the first role in
    the list whose rule grants the action decides. *)
Definition loop_outcome (d : Db) (request : Request) (resource_name action : string)
    (roles : list UserRole.t) : bool * Request :=
  match List.find (role_grants d resource_name action) roles with
  | Some ur =>
      match access_rules d !! (UserRole.role ur, resource_name) with
      | Some rule =>
          if AccessRoleRule.has_global_permission rule action
          then (true, request)
          else (true, set_must_filter_by_owner request true)
      | None => (false, request)
      end
  | None => (false, request)
  end.

(** The action a request asks for. *)
Definition action_of (request : Request) : string :=
  _get_action_from_method (method request).

(** The number of assignment rows of a role to a user. *)
Definition assignments_of (user role : Z) (l : list UserRole.t) : nat :=
  length (List.filter (λ r, (UserRole.user r =? user) && (UserRole.role r =? role)) l).

End Core.

(** ** A reference token codec

    An executable stand-in for PyJWT on which the parametric results
    below are instantiated: a token is the binary numeral of the
    [Countable] code of (key, claims); it parses back to both, and a
    signature validates under the key it was made with. *)

Fixpoint bits_of_pos (p : positive) : string :=
  match p with
  | xH => ""
  | xO q => String "0"%char (bits_of_pos q)
  | xI q => String "1"%char (bits_of_pos q)
  end.

Fixpoint pos_of_bits (s : string) : option positive :=
  match s with
  | EmptyString => Some xH
  | String c r =>
      if Ascii.eqb c "0"%char then xO <$> pos_of_bits r
      else if Ascii.eqb c "1"%char then xI <$> pos_of_bits r
      else None
  end.

Definition claims_tuple : Type :=
  option string * option Z * option string * option Z * option Z * option string.

Definition tuple_of_payload (p : Payload.t) : claims_tuple :=
  (Payload.session_id p, Payload.user_id p, Payload.email p,
   Payload.exp p, Payload.iat p, Payload.jti p).

Definition payload_of_tuple (c : claims_tuple) : Payload.t :=
  match c with
  | (session_id, user_id, email, exp, iat, jti) =>
      Payload.mk session_id user_id email exp iat jti
  end.

Definition ref_encode (key : string) (payload : Payload.t) : string :=
  bits_of_pos (encode (key, tuple_of_payload payload)).

Definition ref_parse (token : string) : option (string * claims_tuple) :=
  pos_of_bits token ≫= decode.

Definition ref_claims (token : string) : option Payload.t :=
  (λ kc, payload_of_tuple kc.2) <$> ref_parse token.

Definition ref_verify (key token : string) : bool :=
  match ref_parse token with
  | Some kc => String.eqb kc.1 key
  | None => false
  end.

(** The password "hasher" of the examples stores the password itself. *)
Definition ref_check_password (raw stored : string) : bool := String.eqb raw stored.

Definition ref_key : string := "k3y".

(** *** Reference instances of the other parameters

    Stand-ins on which the examples run: the order that keeps tied
    rows in table order; a conversion that accepts a UUID in the form
    [str] gives it (8-4-4-4-12 lower-case hexadecimal digits), which is
    one of the forms Python accepts; the range of years 1 to 9999 for
    [datetime]; signed 64-bit integers for the database; decimal
    numerals, with a minus sign or without, for the texts that denote
    an integer; and fields
    that trim white space, refuse what is then empty and, for an email,
    ask for an [@]. *)

Definition ref_ordered : list UserRole.t → list UserRole.t := order_by_assigned_at_desc.

Definition ref_first_of (rows : list UserRole.t) : option UserRole.t :=
  head (order_by_assigned_at_desc rows).

Definition is_hex_digit (c : ascii) : bool :=
  let n := nat_of_ascii c in
  ((48 <=? n) && (n <=? 57) || (97 <=? n) && (n <=? 102))%nat.

Fixpoint is_uuid_text_from (i : nat) (s : string) : bool :=
  match s with
  | EmptyString => (i =? 36)%nat
  | String c r =>
      (if (i =? 8)%nat || (i =? 13)%nat || (i =? 18)%nat || (i =? 23)%nat
       then Ascii.eqb c "-"%char
       else is_hex_digit c)
      && is_uuid_text_from (S i) r
  end.

Definition ref_UUIDField_to_python (text : string) : option string :=
  if is_uuid_text_from 0 text then Some text else None.

Definition ref_datetime_representable (exp : Z) : bool :=
  (-62135596800 <=? exp) && (exp <=? 253402300799).

(** SQLite's integers: signed, 64 bits. *)
Definition ref_int_fits (i : Z) : bool := (- 2 ^ 63 <=? i) && (i <? 2 ^ 63).

(** Decimal numerals with an optional minus sign. *)
Fixpoint digits_value (acc : Z) (s : string) : option Z :=
  match s with
  | EmptyString => Some acc
  | String c r =>
      let n := nat_of_ascii c in
      if ((48 <=? n) && (n <=? 57))%nat
      then digits_value (10 * acc + (Z.of_nat n - 48)) r
      else None
  end.

Definition natural_of_text (s : string) : option Z :=
  if String.eqb s "" then None else digits_value 0 s.

Definition ref_int_of_text (s : string) : option Z :=
  match s with
  | String c r => if Ascii.eqb c "-"%char then Z.opp <$> natural_of_text r
                  else natural_of_text s
  | EmptyString => None
  end.

Definition is_space (c : ascii) : bool :=
  let n := nat_of_ascii c in
  ((n =? 32) || (9 <=? n) && (n <=? 13))%nat.

Fixpoint lstrip (s : string) : string :=
  match s with
  | EmptyString => EmptyString
  | String c r => if is_space c then lstrip r else s
  end.

Definition strip (s : string) : string :=
  String.rev (lstrip (String.rev (lstrip s))).

Definition ref_CharField_run_validation (data : option string) : FieldResult :=
  match data with
  | None => Invalid "This field is required."
  | Some s =>
      if String.eqb (strip s) "" then Invalid "This field may not be blank."
      else Valid (strip s)
  end.

Definition ref_EmailField_run_validation (data : option string) : FieldResult :=
  match ref_CharField_run_validation data with
  | Valid s =>
      if (count_char "@"%char s =? 1)%nat then Valid s
      else Invalid "Enter a valid email address."
  | invalid => invalid
  end.

(** *** The code on the reference instances, and a login *)

Definition ref_login :=
  login ref_key ref_encode ref_claims ref_verify ref_check_password ref_ordered
    ref_UUIDField_to_python ref_EmailField_run_validation ref_CharField_run_validation.
Definition ref_logout :=
  logout ref_key ref_claims ref_verify ref_ordered ref_UUIDField_to_python
    ref_datetime_representable.
Definition ref_products :=
  products ref_key ref_claims ref_verify ref_ordered ref_UUIDField_to_python.
Definition ref_orders :=
  orders ref_key ref_claims ref_verify ref_ordered ref_UUIDField_to_python.
Definition ref_revoke := revoke ref_key ref_claims ref_verify ref_datetime_representable.
Definition ref_is_token_revoked := _is_token_revoked ref_key ref_claims ref_verify.
Definition ref_authenticate :=
  authenticate ref_key ref_claims ref_verify ref_UUIDField_to_python.
Definition ref_has_permission := HasPermission_has_permission ref_ordered.
Definition ref_has_object_permission := HasPermission_has_object_permission ref_ordered.
Definition ref_decide := decide ref_ordered.

(** Primary keys of sessions. *)
Definition sid_1 : string := "11111111-1111-4111-8111-111111111111".
Definition sid_2 : string := "22222222-2222-4222-8222-222222222222".
Definition sid_3 : string := "33333333-3333-4333-8333-333333333333".
Definition sid_9 : string := "99999999-9999-4999-8999-999999999999".

Definition empty_world : World := mkWorld (mkDb [] ∅ [] [] ∅) [].

Definition example_world : World := mkWorld db_manager_then_user [].

(** The session row alice's login at time 1000 creates under the key [sid_1]. *)
Definition alice_session : UserSession.t :=
  UserSession.mk 1 true 1000 (1000 + seven_days) 1000.

(** The token that login returns. *)
Definition alice_token : string :=
  create_jwt_token ref_key ref_encode 1000 sid_1 alice_session alice.

Definition bearer (method token : string) : Request :=
  mkRequest method (Some ("Bearer " +:+ token)) None None false.

(** A request that presents no token. *)
Definition plain (method : string) : Request :=
  mkRequest method None None None false.

(** A validly signed token whose [jti] claim is the empty string. *)
Definition empty_jti_payload : Payload.t :=
  Payload.mk None None None (Some 100) None (Some "").
Definition empty_jti_token : string := ref_encode ref_key empty_jti_payload.

(** A validly signed token with a [jti]. *)
Definition jti_payload : Payload.t :=
  Payload.mk None None None (Some 100) None (Some "7c9e").
Definition jti_token : string := ref_encode ref_key jti_payload.

(** A ledger that already holds a row for "7c9e", expired at time 20. *)
Definition stale_world : World :=
  mkWorld (mkDb [] ∅ [RevokedToken.mk "7c9e" 10 20] [] ∅) [].

(** A world with two sessions of alice and one of a third user. *)
Definition carol : User.t := User.mk 3 "carol@example.com" "c4r0l" true.
Definition sessions_world : World :=
  mkWorld (mkDb [alice; bob; carol]
             (<[sid_1 := alice_session]>
                (<[sid_2 := UserSession.mk 1 true 2000 (2000 + seven_days) 2000]>
                   (<[sid_3 := UserSession.mk 3 true 1500 (1500 + seven_days) 1500]> ∅)))
             [] [] ∅) [].

(** The role table of the examples. *)
Definition example_roles : list Role.t :=
  [Role.mk role_manager "manager" false; Role.mk role_user "user" false;
   Role.mk 30 "admin" true].

(** A world with sessions and roles: alice holds [manager] and, more
    recently, [user]; carol holds [user]. *)
Definition shop_world : World :=
  mkWorld (mkDb [alice; bob; carol] (sessions (db sessions_world)) []
             [UserRole.mk 1 role_manager 100; UserRole.mk 1 role_user 200;
              UserRole.mk 3 role_user 150]
             example_rules) [].

(** A request of an already resolved user. *)
Definition request_of (method : string) (u : User.t) : Request :=
  mkRequest method None (Some u) None false.

(** A product that alice owns. *)
Definition alice_product : BusinessObject :=
  mkBusinessObject "product" (Some 1) None None.

(** A validly signed, unexpired token whose [session_id] is no UUID. *)
Definition stray_payload : Payload.t :=
  Payload.mk (Some "not-a-uuid") (Some 1) (Some "alice@example.com") (Some 5000)
    (Some 1000) None.
Definition stray_token : string := ref_encode ref_key stray_payload.

(** A validly signed token with a [jti] whose [exp] no [datetime] holds. *)
Definition far_payload : Payload.t :=
  Payload.mk None None None (Some (10 ^ 20)) None (Some "7c9e").
Definition far_token : string := ref_encode ref_key far_payload.

(** ** Properties *)

Section Properties.

Variable SECRET_KEY : string.
Variable jwt_encode : string → Payload.t → string.
Variable jwt_claims : string → option Payload.t.
Variable jwt_verify : string → string → bool.
Variable check_password : string → string → bool.
Variable ordered : list UserRole.t → list UserRole.t.
Variable UUIDField_to_python : string → option string.
Variable datetime_representable : Z → bool.
Variable EmailField_run_validation : option string → FieldResult.
Variable CharField_run_validation : option string → FieldResult.
Variable int_fits : Z → bool.
Variable first_of : list UserRole.t → option UserRole.t.
Variable int_of_text : string → option Z.

(** A token parses back to the claims it was made from. *)
Hypothesis jwt_claims_encode :
  ∀ key payload, jwt_claims (jwt_encode key payload) = Some payload.

(** The database returns the rows of a queryset, all of them and no
    others, newest first. *)
Hypothesis ordered_Permutation : ∀ l, ordered l ≡ₚ l.
Hypothesis ordered_newest_first : ∀ l, newest_first (ordered l).

(** [first()] returns no row only when there is none, and otherwise one
    of the rows assigned last. *)
Hypothesis first_of_None : ∀ l, first_of l = None → l = [].
Hypothesis first_of_Some :
  ∀ l r, first_of l = Some r →
         r ∈ l ∧ ∀ r', r' ∈ l → UserRole.assigned_at r' ≤ UserRole.assigned_at r.

Local Abbreviation jwt_decode := (jwt_decode SECRET_KEY jwt_claims jwt_verify).
Local Abbreviation _is_token_revoked := (_is_token_revoked SECRET_KEY jwt_claims jwt_verify).
Local Abbreviation Middleware_is_token_revoked :=
  (Middleware_is_token_revoked SECRET_KEY jwt_claims jwt_verify).
Local Abbreviation UserSession_objects_get := (UserSession_objects_get UUIDField_to_python).
Local Abbreviation authenticate :=
  (authenticate SECRET_KEY jwt_claims jwt_verify UUIDField_to_python).
Local Abbreviation authenticator_authenticate :=
  (authenticator_authenticate SECRET_KEY jwt_claims jwt_verify UUIDField_to_python).
Local Abbreviation perform_authentication :=
  (perform_authentication SECRET_KEY jwt_claims jwt_verify UUIDField_to_python).
Local Abbreviation create_jwt_token := (create_jwt_token SECRET_KEY jwt_encode).
Local Abbreviation UserLoginSerializer_validate :=
  (UserLoginSerializer_validate check_password).
Local Abbreviation UserLoginSerializer_is_valid :=
  (UserLoginSerializer_is_valid check_password EmailField_run_validation
     CharField_run_validation).
Local Abbreviation login_handler :=
  (login_handler SECRET_KEY jwt_encode check_password EmailField_run_validation
     CharField_run_validation).
Local Abbreviation user_roles_all := (user_roles_all ordered).
Local Abbreviation HasPermission_has_permission := (HasPermission_has_permission ordered).
Local Abbreviation HasPermission_has_object_permission :=
  (HasPermission_has_object_permission ordered).
Local Abbreviation decide := (decide ordered).
Local Abbreviation has_permission := (has_permission ordered).
Local Abbreviation check_permissions := (check_permissions ordered).
Local Abbreviation User_roles := (User_roles ordered).
Local Abbreviation User_role := (User_role first_of).
Local Abbreviation dispatch := (dispatch SECRET_KEY jwt_claims jwt_verify ordered UUIDField_to_python).
Local Abbreviation login :=
  (login SECRET_KEY jwt_encode jwt_claims jwt_verify check_password ordered
     UUIDField_to_python EmailField_run_validation CharField_run_validation).
Local Abbreviation products := (products SECRET_KEY jwt_claims jwt_verify ordered UUIDField_to_python).
Local Abbreviation fromtimestamp := (fromtimestamp datetime_representable).
Local Abbreviation revoke :=
  (revoke SECRET_KEY jwt_claims jwt_verify datetime_representable).
Local Abbreviation logout_handler :=
  (logout_handler SECRET_KEY jwt_claims jwt_verify datetime_representable).
Local Abbreviation logout := (logout SECRET_KEY jwt_claims jwt_verify ordered UUIDField_to_python
     datetime_representable).
Local Abbreviation password_mismatch := (password_mismatch check_password).


(** *** The monad *)

Ltac monad_unfold :=
  unfold bind, ret, raise, try_except, get_db, put_db, log_rule_lookup in *.

Lemma bind_ret_l {A B} (a : A) (k : A → M B) w : bind (ret a) k w = k a w.
Proof. reflexivity. Qed.

(** *** Role rows in queryset order *)

Lemma insert_by_assigned_at_perm r l : insert_by_assigned_at r l ≡ₚ r :: l.
Proof.
  induction l as [|x xs IH]; simpl; [done|].
  destruct (UserRole.assigned_at x <=? UserRole.assigned_at r); [done|].
  rewrite IH. apply Permutation_swap.
Qed.

Lemma order_by_assigned_at_desc_perm l : order_by_assigned_at_desc l ≡ₚ l.
Proof.
  induction l as [|x xs IH]; simpl; [done|].
  unfold order_by_assigned_at_desc in *. simpl.
  rewrite insert_by_assigned_at_perm. by rewrite IH.
Qed.

Lemma elem_of_user_roles_all d u ur :
  ur ∈ user_roles_all d u ↔ ur ∈ user_roles d ∧ UserRole.user ur = User.id u.
Proof.
  unfold user_roles_all. rewrite ordered_Permutation.
  rewrite list_elem_of_In, filter_In, <- list_elem_of_In.
  by rewrite Z.eqb_eq.
Qed.

(** *** The permission loop *)

Lemma has_permission_body_eq request res action ur w :
  has_permission_body request res action ur w =
  (inr match access_rules (db w) !! (UserRole.role ur, res) with
       | Some rule =>
           if AccessRoleRule.has_global_permission rule action
           then Some (true, request)
           else if AccessRoleRule.has_own_permission rule action
           then Some (true, set_must_filter_by_owner request true)
           else None
       | None => None
       end,
   mkWorld (db w) ((UserRole.role ur, res) :: rule_lookups w)).
Proof.
  unfold has_permission_body, AccessRoleRule_get. monad_unfold. simpl.
  destruct (access_rules (db w) !! _) as [rule|]; simpl; [|done].
  destruct (AccessRoleRule.has_global_permission rule action); [done|].
  by destruct (AccessRoleRule.has_own_permission rule action).
Qed.

Lemma has_permission_loop_spec request res action roles w :
  ∃ r w', has_permission_loop request res action roles w = (inr r, w')
          ∧ db w' = db w
          ∧ r.1 = existsb (role_grants (db w) res action) roles.
Proof.
  revert w. induction roles as [|ur rest IH]; intros w; simpl.
  - by eexists _, _.
  - unfold bind. rewrite has_permission_body_eq. unfold role_grants at 1.
    destruct (access_rules (db w) !! _) as [rule|]; simpl.
    + destruct (AccessRoleRule.has_global_permission rule action); simpl.
      { by eexists _, _. }
      destruct (AccessRoleRule.has_own_permission rule action); simpl.
      { by eexists _, _. }
      destruct (IH (mkWorld (db w) ((UserRole.role ur, res) :: rule_lookups w)))
        as (r & w' & -> & Hdb & Hr).
      by eexists _, _.
    + destruct (IH (mkWorld (db w) ((UserRole.role ur, res) :: rule_lookups w)))
        as (r & w' & -> & Hdb & Hr).
      by eexists _, _.
Qed.

Lemma HasPermission_has_permission_spec request view u res w :
  user request = Some u → view_resource_name view = Some res →
  ∃ r w', HasPermission_has_permission request view w = (inr r, w')
          ∧ db w' = db w
          ∧ r.1 = existsb (role_grants (db w) res (_get_action_from_method (method request)))
                    (user_roles_all (db w) u).
Proof.
  intros Hu Hres. unfold HasPermission_has_permission. rewrite Hu, Hres.
  unfold bind, get_db. apply has_permission_loop_spec.
Qed.

(** Whether access is granted at all does not depend on the order of the roles. *)
Lemma existsb_Permutation {A} (f : A → bool) (l l' : list A) :
  l ≡ₚ l' → existsb f l = existsb f l'.
Proof.
  intros Hp. apply eq_true_iff_eq. rewrite !existsb_exists.
  split; intros (x & Hx & Hf); exists x; split; try done.
  - by rewrite <- list_elem_of_In, <- Hp, list_elem_of_In.
  - by rewrite <- list_elem_of_In, Hp, list_elem_of_In.
Qed.

Lemma has_permission_loop_granted_perm request res action roles roles' w r r' w1 w1' :
  roles ≡ₚ roles' →
  has_permission_loop request res action roles w = (inr r, w1) →
  has_permission_loop request res action roles' w = (inr r', w1') →
  r.1 = r'.1.
Proof.
  intros Hp H H'.
  destruct (has_permission_loop_spec request res action roles w) as (?&?&E&_&Hr).
  destruct (has_permission_loop_spec request res action roles' w) as (?&?&E'&_&Hr').
  rewrite H in E. rewrite H' in E'. simplify_eq.
  rewrite Hr, Hr'. by apply existsb_Permutation.
Qed.

(** *** Request methods and actions *)

Lemma _get_action_from_method_unlisted m :
  m ∉ ["GET"; "POST"; "PUT"; "PATCH"; "DELETE"] → _get_action_from_method m = "read".
Proof.
  intros Hm. unfold _get_action_from_method, method_map.
  by rewrite (not_elem_of_list_to_map_1 _ m).
Qed.

Lemma role_grants_read d res ur :
  role_grants d res "read" ur = true ↔
  ∃ rule, access_rules d !! (UserRole.role ur, res) = Some rule
          ∧ (AccessRoleRule.read_all_permission rule = true
             ∨ AccessRoleRule.read_own_permission rule = true).
Proof.
  unfold role_grants. destruct (access_rules d !! _) as [rule|].
  - change (AccessRoleRule.has_global_permission rule "read")
      with (AccessRoleRule.read_all_permission rule).
    change (AccessRoleRule.has_own_permission rule "read")
      with (AccessRoleRule.read_own_permission rule).
    rewrite orb_true_iff. split; [eauto|]. by intros (? & [= <-] & ?).
  - split; [done|]. by intros (? & ? & _).
Qed.

(** C10: a request whose method is none of GET, POST, PUT, PATCH, DELETE
    is checked as the action [read]: the permission check grants it
    exactly when some role of the principal has a rule on the resource
    with the read-all or the read-own permission. *)
Theorem unlisted_method_checked_as_read m request view u res w :
  m ∉ ["GET"; "POST"; "PUT"; "PATCH"; "DELETE"] →
  method request = m →
  user request = Some u →
  view_resource_name view = Some res →
  _get_action_from_method m = "read"
  ∧ ∃ r w', HasPermission_has_permission request view w = (inr r, w')
      ∧ (r.1 = true ↔
         ∃ ur rule, ur ∈ user_roles (db w) ∧ UserRole.user ur = User.id u
           ∧ access_rules (db w) !! (UserRole.role ur, res) = Some rule
           ∧ (AccessRoleRule.read_all_permission rule = true
              ∨ AccessRoleRule.read_own_permission rule = true)).
Proof.
  intros Hm Hreq Hu Hres.
  pose proof (_get_action_from_method_unlisted m Hm) as Hread.
  split; [done|].
  destruct (HasPermission_has_permission_spec request view u res w Hu Hres)
    as (r & w' & E & _ & Hr).
  exists r, w'. split; [done|].
  rewrite Hr, Hreq, Hread, existsb_exists. split.
  - intros (ur & Hin & Hg). apply role_grants_read in Hg as (rule & ? & ?).
    apply list_elem_of_In, elem_of_user_roles_all in Hin as [? ?].
    by exists ur, rule.
  - intros (ur & rule & ? & ? & ? & ?). exists ur. split.
    + by apply list_elem_of_In, elem_of_user_roles_all.
    + apply role_grants_read. by exists rule.
Qed.

(** *** Absence of a rule *)

Lemma decision_of_denied r : r.1 = false → decision_of r = Denied.
Proof. unfold decision_of. by intros ->. Qed.

(** C3: a principal none of whose roles has an access rule on the
    requested resource is denied, whatever the action and the method. *)
Theorem no_rule_means_denied principal m view res w :
  view_resource_name view = Some res →
  (∀ ur, ur ∈ user_roles (db w) → UserRole.user ur = User.id principal →
         access_rules (db w) !! (UserRole.role ur, res) = None) →
  (∀ request action, ∃ r w',
      has_permission_loop request res action (user_roles_all (db w) principal) w
      = (inr r, w') ∧ decision_of r = Denied)
  ∧ ∃ w', decide (Some principal) m view w = (inr Denied, w') ∧ db w' = db w.
Proof.
  intros Hres Hnone.
  assert (Hex : ∀ action,
    existsb (role_grants (db w) res action) (user_roles_all (db w) principal) = false).
  { intros action. apply not_true_iff_false. rewrite existsb_exists.
    intros (ur & Hin & Hg).
    apply list_elem_of_In, elem_of_user_roles_all in Hin as [Hin Hu].
    unfold role_grants in Hg. by rewrite (Hnone ur Hin Hu) in Hg. }
  split.
  - intros request action.
    destruct (has_permission_loop_spec request res action
                (user_roles_all (db w) principal) w) as (r & w' & E & _ & Hr).
    exists r, w'. split; [done|]. apply decision_of_denied. by rewrite Hr.
  - unfold decide.
    destruct (HasPermission_has_permission_spec
                (mkRequest m None (Some principal) None false) view principal res w
                eq_refl Hres) as (r & w' & E & Hdb & Hr).
    exists w'. unfold bind. rewrite E. unfold ret.
    rewrite decision_of_denied; [done|]. by rewrite Hr.
Qed.

(** *** Several roles *)

(** The loop returns at the first role whose rule grants anything: when
    that rule grants the action for own objects only, the request is
    narrowed whatever the remaining roles would grant. *)
Lemma has_permission_loop_first_own request res action ur rest rule w :
  access_rules (db w) !! (UserRole.role ur, res) = Some rule →
  AccessRoleRule.has_global_permission rule action = false →
  AccessRoleRule.has_own_permission rule action = true →
  (has_permission_loop request res action (ur :: rest) w).1
  = inr (true, set_must_filter_by_owner request true).
Proof.
  intros Hrule Hg Ho. simpl. unfold bind. rewrite has_permission_body_eq.
  by rewrite Hrule, Hg, Ho.
Qed.

(** The object-level check only answers yes or no, and its answer does
    not depend on the order of the roles. *)
Lemma has_object_permission_loop_spec u obj res action roles w :
  ∃ w', has_object_permission_loop u obj res action roles w
        = (inr (existsb (role_grants_on (db w) u obj res action) roles), w')
        ∧ db w' = db w.
Proof.
  revert w. induction roles as [|ur rest IH]; intros w; simpl; [by eexists|].
  unfold bind at 1, has_object_permission_body, AccessRoleRule_get, role_grants_on at 1.
  monad_unfold. simpl.
  destruct (access_rules (db w) !! _) as [rule|]; simpl.
  - destruct (AccessRoleRule.has_global_permission rule action); simpl; [by eexists|].
    destruct (AccessRoleRule.has_own_permission rule action && _is_owner u obj); simpl;
      [by eexists|].
    apply (IH (mkWorld (db w) ((UserRole.role ur, res) :: rule_lookups w))).
  - apply (IH (mkWorld (db w) ((UserRole.role ur, res) :: rule_lookups w))).
Qed.

Lemma has_object_permission_loop_perm u obj res action roles roles' w :
  roles ≡ₚ roles' →
  (has_object_permission_loop u obj res action roles w).1
  = (has_object_permission_loop u obj res action roles' w).1.
Proof.
  intros Hp.
  destruct (has_object_permission_loop_spec u obj res action roles w) as (?&->&_).
  destruct (has_object_permission_loop_spec u obj res action roles' w) as (?&->&_).
  simpl. f_equal. by apply existsb_Permutation.
Qed.

(** C1: the decision depends on the order in which the roles are
    examined. Alice holds the role [manager], whose rule grants global
    read on products, and the role [user], whose rule grants read-own
    only; when [user] is the more recently assigned role it is examined
    first and the decision is narrowed to [GrantedOwnOnly], while with
    the assignment times exchanged the decision is [GrantedGlobal]. *)
Theorem decide_narrowed_by_role_order :
  (decide (Some alice) "GET" MockProductView (mkWorld db_manager_then_user [])).1
  = inr GrantedOwnOnly
  ∧ (decide (Some alice) "GET" MockProductView (mkWorld db_user_then_manager [])).1
  = inr GrantedGlobal.
Proof.
  assert (Hnewer : ∀ x y, UserRole.assigned_at y < UserRole.assigned_at x →
            ordered [x; y] = [x; y] ∧ ordered [y; x] = [x; y]).
  { intros x y Hlt.
    assert (∀ l, l ≡ₚ [x; y] → newest_first l → l = [x; y]) as Hfix.
    { intros l Hp Hs. apply Permutation_sym, Permutation_length_2_inv in Hp as [-> | ->];
        [done|].
      destruct Hs as [Hall _]. apply Forall_cons in Hall as [Hle _]. lia. }
    split; apply Hfix; try apply ordered_newest_first.
    - apply ordered_Permutation.
    - rewrite ordered_Permutation. apply Permutation_swap. }
  split.
  - destruct (Hnewer (UserRole.mk 1 role_user 200) (UserRole.mk 1 role_manager 100))
      as [_ Heq]; [simpl; lia|].
    unfold decide, HasPermission_has_permission, user_roles_all. simpl.
    unfold bind at 1 2, get_db. simpl. rewrite Heq. reflexivity.
  - destruct (Hnewer (UserRole.mk 1 role_manager 200) (UserRole.mk 1 role_user 100))
      as [Heq _]; [simpl; lia|].
    unfold decide, HasPermission_has_permission, user_roles_all. simpl.
    unfold bind at 1 2, get_db. simpl. rewrite Heq. reflexivity.
Qed.

(** *** Token decoding and the revocation check *)

Lemma jwt_decode_world token verify_exp now w :
  (jwt_decode token verify_exp now w).2 = w.
Proof.
  unfold jwt_decode. destruct (jwt_claims token) as [p|]; [|done].
  destruct (jwt_verify SECRET_KEY token); simpl; [|done].
  by destruct (verify_exp && _).
Qed.

Lemma jwt_decode_raises token verify_exp now w e w' :
  jwt_decode token verify_exp now w = (inl e, w') → is_InvalidTokenError e = true.
Proof.
  unfold jwt_decode. destruct (jwt_claims token) as [p|]; [|by intros [= <- _]].
  destruct (jwt_verify SECRET_KEY token); simpl; [|by intros [= <- _]].
  destruct (verify_exp && _); [by intros [= <- _]|done].
Qed.

Lemma jwt_decode_returns token verify_exp now w p w' :
  jwt_decode token verify_exp now w = (inr p, w') →
  jwt_claims token = Some p ∧ jwt_verify SECRET_KEY token = true ∧ w' = w
  ∧ (verify_exp = true → ∀ e, Payload.exp p = Some e → now < e).
Proof.
  unfold jwt_decode. destruct (jwt_claims token) as [q|]; [|done].
  destruct (jwt_verify SECRET_KEY token); simpl; [|done].
  destruct verify_exp; simpl.
  - destruct (Payload.exp q) as [x|] eqn:Hx.
    + destruct (x <=? now) eqn:Hle; [done|]. intros [= -> ->].
      repeat split; try done. intros _ e He. rewrite Hx in He. simplify_eq. lia.
    + intros [= -> ->]. repeat split; try done. intros _ e He. by rewrite Hx in He.
  - intros [= -> ->]. by repeat split.
Qed.

Lemma jwt_decode_unverified token now w :
  jwt_decode token false now w =
  match jwt_claims token with
  | Some p => if jwt_verify SECRET_KEY token then (inr p, w)
              else (inl InvalidSignatureError, w)
  | None => (inl DecodeError, w)
  end.
Proof.
  unfold jwt_decode. destruct (jwt_claims token); [|done].
  by destruct (jwt_verify SECRET_KEY token).
Qed.

(** The revocation check is a read-only test that always returns. *)
Lemma _is_token_revoked_eq now token w :
  _is_token_revoked now token w =
  (inr match jwt_claims token with
       | Some p =>
           jwt_verify SECRET_KEY token && truthy_str (Payload.jti p)
           && RevokedToken_in_force (db w) now (default "" (Payload.jti p))
       | None => false
       end, w).
Proof.
  unfold _is_token_revoked, bind, try_except. rewrite jwt_decode_unverified.
  destruct (jwt_claims token) as [p|]; [|done].
  destruct (jwt_verify SECRET_KEY token); simpl; [|done].
  unfold get_db, ret.
  by destruct (truthy_str (Payload.jti p) && _).
Qed.

Lemma Middleware_is_token_revoked_eq now token w :
  Middleware_is_token_revoked now token w = _is_token_revoked now token w.
Proof. reflexivity. Qed.

(** C8: on a malformed token (one that does not parse, or whose
    signature does not validate under the secret key) both revocation
    checks return [False]; they raise nothing and change nothing. *)
Theorem malformed_token_not_revoked now token w :
  jwt_claims token = None ∨ jwt_verify SECRET_KEY token = false →
  _is_token_revoked now token w = (inr false, w)
  ∧ Middleware_is_token_revoked now token w = (inr false, w).
Proof.
  intros Hbad.
  assert (_is_token_revoked now token w = (inr false, w)) as Hr.
  { rewrite _is_token_revoked_eq.
    destruct Hbad as [-> | Hv]; [done|].
    rewrite Hv. by destruct (jwt_claims token). }
  split; [done|]. by rewrite <- Hr.
Qed.

(** *** Token resolution *)

Lemma UserSession_get_eq now sid w :
  UserSession_get now sid w =
  match sessions (db w) !! sid with
  | Some s =>
      match session_usable (db w) now s with
      | Some u => (inr (s, u), w)
      | None => (inl DoesNotExist, w)
      end
  | None => (inl DoesNotExist, w)
  end.
Proof.
  unfold UserSession_get, bind, get_db.
  destruct (sessions (db w) !! sid) as [s|]; [|done].
  by destruct (session_usable (db w) now s).
Qed.

Lemma UserSession_objects_get_eq now text w :
  UserSession_objects_get now text w =
  match UUIDField_to_python text with
  | None => (inl DjangoValidationError, w)
  | Some pk =>
      match sessions (db w) !! pk with
      | Some s =>
          match session_usable (db w) now s with
          | Some u => (inr (pk, s, u), w)
          | None => (inl DoesNotExist, w)
          end
      | None => (inl DoesNotExist, w)
      end
  end.
Proof.
  unfold UserSession_objects_get.
  destruct (UUIDField_to_python text) as [pk|]; [|done].
  unfold bind. rewrite UserSession_get_eq.
  destruct (sessions (db w) !! pk) as [s|]; [|done].
  by destruct (session_usable (db w) now s).
Qed.

(** The four ways [authenticate] ends: no credentials; a failure as
    [AuthenticationFailed]; Django's [ValidationError], which nothing
    catches, for a verified, unexpired token whose [session_id] denotes
    no UUID; or a principal resolved through a usable session, which is
    touched. Only the last changes the world. *)
Lemma authenticate_cases now request w :
  (authenticate now request w = (inr None, w)
   ∧ negb (truthy_str (Authorization request))
     || negb (startswith "Bearer " (default "" (Authorization request))) = true)
  ∨ (∃ detail, authenticate now request w = (inl (AuthenticationFailed detail), w)
       ∧ (detail = "Token revoked" →
          _is_token_revoked now (slice_from 7 (default "" (Authorization request))) w
          = (inr true, w)))
  ∨ (∃ token p text,
       token = slice_from 7 (default "" (Authorization request))
       ∧ jwt_claims token = Some p
       ∧ jwt_verify SECRET_KEY token = true
       ∧ Payload.session_id p = Some text
       ∧ UUIDField_to_python text = None
       ∧ authenticate now request w = (inl DjangoValidationError, w))
  ∨ (∃ token p text sid s u,
       token = slice_from 7 (default "" (Authorization request))
       ∧ jwt_claims token = Some p
       ∧ jwt_verify SECRET_KEY token = true
       ∧ Payload.session_id p = Some text
       ∧ UUIDField_to_python text = Some sid
       ∧ sessions (db w) !! sid = Some s
       ∧ session_usable (db w) now s = Some u
       ∧ authenticate now request w =
         (inr (Some (u, token)),
          mkWorld (with_sessions (db w) (<[sid := touch now s]> (sessions (db w))))
                  (rule_lookups w))).
Proof.
  destruct (authenticate now request w) as [res w'] eqn:E.
  unfold authenticate in E.
  destruct (negb (truthy_str (Authorization request)) || _).
  { left. by inversion E. }
  set (token := slice_from 7 (default "" (Authorization request))) in *.
  unfold try_except, bind at 1 in E. rewrite _is_token_revoked_eq in E.
  match type of E with context [if ?b then raise _ else _] => destruct b eqn:Hb end.
  { right; left. inversion E; subst. eexists. split; [done|].
    intros _. by rewrite _is_token_revoked_eq, Hb. }
  unfold bind at 1 in E.
  destruct (jwt_decode token true now w) as [[e|p] w1] eqn:Hdec.
  { pose proof (jwt_decode_world token true now w) as Hw. rewrite Hdec in Hw.
    simpl in Hw. subst w1. apply jwt_decode_raises in Hdec.
    right; left. destruct (is_ExpiredSignatureError e).
    - inversion E. by eexists.
    - rewrite Hdec in E. inversion E. by eexists. }
  apply jwt_decode_returns in Hdec as (Hp & Hv & -> & _).
  destruct (Payload.session_id p) as [text|] eqn:Htext; simpl in E;
    [|right; left; inversion E; by eexists].
  destruct (negb (negb (text =? "")%string)); simpl in E;
    [right; left; inversion E; by eexists|].
  unfold bind at 1 in E. rewrite UserSession_objects_get_eq in E.
  destruct (UUIDField_to_python text) as [sid|] eqn:Hsid.
  2:{ right; right; left. exists token, p, text. inversion E. by repeat split. }
  destruct (sessions (db w) !! sid) as [s|] eqn:Hs;
    [|right; left; inversion E; by eexists].
  destruct (session_usable (db w) now s) as [u|] eqn:Hu;
    [|right; left; inversion E; by eexists].
  right; right; right. exists token, p, text, sid, s, u. inversion E. by repeat split.
Qed.

Lemma substring_0_length s : String.substring 0 (String.length s) s = s.
Proof. induction s as [|c s IH]; simpl; [done|]. by rewrite IH. Qed.

Lemma bearer_header request token :
  Authorization request = Some ("Bearer " +:+ token) →
  negb (truthy_str (Authorization request))
  || negb (startswith "Bearer " (default "" (Authorization request))) = false
  ∧ slice_from 7 (default "" (Authorization request)) = token.
Proof.
  intros ->. split.
  - simpl. unfold startswith. simpl. by destruct token.
  - unfold slice_from. simpl. rewrite Nat.sub_0_r. apply substring_0_length.
Qed.

Lemma session_usable_Some d now s u :
  session_usable d now s = Some u →
  UserSession.is_active s = true ∧ now < UserSession.expires_at s
  ∧ User.is_active u = true ∧ User.id u = UserSession.user s.
Proof.
  unfold session_usable, find_user.
  destruct (List.find _ (users d)) as [u'|] eqn:Hf; [|done].
  apply find_some in Hf as [_ Hid].
  destruct (UserSession.is_active s); simpl; [|done].
  destruct (now <? UserSession.expires_at s) eqn:Hlt; simpl; [|done].
  destruct (User.is_active u') eqn:Ha; [|done]. intros [= <-].
  repeat split; try done; lia.
Qed.

(** [is_expired], which token resolution does not call, draws the line
    elsewhere: at [expires_at = now] it still answers [False]. *)
Remark is_expired_at_expires_at s :
  UserSession.is_expired (UserSession.expires_at s) s = false.
Proof. unfold UserSession.is_expired. lia. Qed.

(** C5: a session whose [expires_at] equals the current time is not
    found by the session lookup of token resolution, and a request
    bearing a token of that session fails to authenticate; a session the
    lookup does find has [now < expires_at], strictly. *)
Theorem session_expiring_now_is_unusable now sid s w :
  sessions (db w) !! sid = Some s →
  UserSession.expires_at s = now →
  UserSession_get now sid w = (inl DoesNotExist, w)
  ∧ (∀ request token p,
       Authorization request = Some ("Bearer " +:+ token) →
       jwt_claims token = Some p →
       ∀ text, Payload.session_id p = Some text →
       UUIDField_to_python text = Some sid →
       ∃ detail, authenticate now request w = (inl (AuthenticationFailed detail), w))
  ∧ (∀ now' u, UserSession_get now' sid w = (inr (s, u), w) →
               now' < UserSession.expires_at s).
Proof.
  intros Hs Hexp.
  assert (session_usable (db w) now s = None) as Hnone.
  { destruct (session_usable (db w) now s) as [u|] eqn:Hu; [|done].
    apply session_usable_Some in Hu as (_ & ? & _). lia. }
  split; [|split].
  - by rewrite UserSession_get_eq, Hs, Hnone.
  - intros request token p Hh Hp text Htext Hsid.
    destruct (bearer_header request token Hh) as [Hguard Htok].
    destruct (authenticate_cases now request w)
      as [[_ Hg] | [(detail & Hfail & _)
         | [(token' & p' & text' & Ht & Hp' & _ & Htext' & Hnone' & _)
           | (token' & p' & text' & sid' & s' & u & Ht & Hp' & _ & Htext' & Hsid'
              & Hs' & Hu & _)]]].
    + by rewrite Hguard in Hg.
    + by exists detail.
    + rewrite Htok in Ht. subst token'. rewrite Hp in Hp'. simplify_eq.
    + rewrite Htok in Ht. subst token'. rewrite Hp in Hp'. simplify_eq.
  - intros now' u. rewrite UserSession_get_eq, Hs.
    destruct (session_usable (db w) now' s) as [u'|] eqn:Hu; [|done].
    intros _. by apply session_usable_Some in Hu as (_ & ? & _).
Qed.

(** *** Anonymous requests *)

Lemma perform_authentication_default now request w :
  perform_authentication DEFAULT_AUTHENTICATION_CLASSES now request w
  = authenticate now request w.
Proof.
  simpl. unfold bind.
  by destruct (authenticate now request w) as [[e|[x|]] w1].
Qed.

(** *** Revocation and logout *)

Lemma RevokedToken_get_or_create_eq now jti expires_at w :
  RevokedToken_get_or_create now jti expires_at w =
  (inr tt,
   if existsb (λ r, String.eqb (RevokedToken.jti r) jti) (revoked_tokens (db w))
   then w
   else mkWorld (with_revoked_tokens (db w)
                   (revoked_tokens (db w) ++ [RevokedToken.mk jti now expires_at]))
                (rule_lookups w)).
Proof.
  unfold RevokedToken_get_or_create, bind, get_db.
  by destruct (existsb _ (revoked_tokens (db w))).
Qed.

(** [revoke] writes at most one row, and only for a validly signed
    token with a truthy [jti] and a truthy [exp]; it raises, and writes
    nothing, exactly when that [exp] is one [datetime] cannot hold. *)
Lemma revoke_eq now token w :
  revoke now token w =
  match jwt_claims token with
  | Some p =>
      if jwt_verify SECRET_KEY token
         && (truthy_str (Payload.jti p) && truthy_num (Payload.exp p))
      then
        if datetime_representable (default 0 (Payload.exp p))
        then (inr tt,
              (RevokedToken_get_or_create now (default "" (Payload.jti p))
                 (default 0 (Payload.exp p)) w).2)
        else (inl OverflowError, w)
      else (inr tt, w)
  | None => (inr tt, w)
  end.
Proof.
  unfold revoke, try_except, bind at 1. rewrite jwt_decode_unverified.
  destruct (jwt_claims token) as [p|]; [|done].
  destruct (jwt_verify SECRET_KEY token); simpl; [|done].
  destruct (truthy_str (Payload.jti p) && truthy_num (Payload.exp p)); [|done].
  unfold bind, fromtimestamp.
  destruct (datetime_representable (default 0 (Payload.exp p))); [|done].
  unfold ret. by rewrite RevokedToken_get_or_create_eq.
Qed.

Lemma revoke_frame now token w :
  sessions (db (revoke now token w).2) = sessions (db w)
  ∧ users (db (revoke now token w).2) = users (db w)
  ∧ rule_lookups (revoke now token w).2 = rule_lookups w.
Proof.
  rewrite revoke_eq.
  destruct (jwt_claims token) as [p|]; [|done].
  destruct (jwt_verify SECRET_KEY token && _); [|done].
  destruct (datetime_representable _); [|done].
  rewrite RevokedToken_get_or_create_eq. simpl.
  by destruct (existsb _ (revoked_tokens (db w))).
Qed.

(** [revoke] raises nothing but what [fromtimestamp] raises. *)
Lemma revoke_outcome now token w :
  (revoke now token w).1 = inr tt
  ∨ revoke now token w = (inl OverflowError, w).
Proof.
  rewrite revoke_eq.
  destruct (jwt_claims token) as [p|]; [|by left].
  destruct (jwt_verify SECRET_KEY token && _); [|by left].
  destruct (datetime_representable _); [by left | by right].
Qed.

Lemma deactivate_if_of_spec uid s :
  (UserSession.user s = uid → UserSession.is_active (deactivate_if_of uid s) = false)
  ∧ (UserSession.user s ≠ uid → deactivate_if_of uid s = s)
  ∧ UserSession.user (deactivate_if_of uid s) = UserSession.user s.
Proof.
  unfold deactivate_if_of.
  destruct (UserSession.user s =? uid) eqn:Hu; simpl.
  - apply Z.eqb_eq in Hu.
    destruct (UserSession.is_active s) eqn:Ha; simpl; by repeat split.
  - apply Z.eqb_neq in Hu. by repeat split.
Qed.

(** The body of [logout], run for the principal [u]: when it returns,
    it has answered 200 and deactivated the principal's sessions. *)
Lemma logout_handler_deactivates now request u w resp w' :
  user request = Some u →
  logout_handler now request w = (inr resp, w') →
  status_code resp = 200
  ∧ (∀ sid s, sessions (db w') !! sid = Some s →
              UserSession.user s = User.id u → UserSession.is_active s = false)
  ∧ (∀ sid s, sessions (db w) !! sid = Some s →
              UserSession.user s ≠ User.id u → sessions (db w') !! sid = Some s)
  ∧ (∀ now' request' u' token w'',
       authenticate now' request' w' = (inr (Some (u', token)), w'') →
       User.id u' ≠ User.id u).
Proof.
  intros Hu E. unfold logout_handler in E. rewrite Hu in E.
  set (first := if truthy_str (auth request) then revoke now (default "" (auth request))
                else ret tt) in E.
  assert (∃ w1, first w = (inr tt, w1) ∧ sessions (db w1) = sessions (db w)) as (w1 & E1 & Hs1).
  { unfold bind at 1 in E. destruct (first w) as [[e|[]] w1] eqn:E1; [done|].
    exists w1. split; [done|]. unfold first in E1.
    destruct (truthy_str (auth request)).
    - pose proof (revoke_frame now (default "" (auth request)) w) as (Hs & _).
      by rewrite E1 in Hs.
    - by inversion E1. }
  unfold bind at 1 in E. rewrite E1 in E.
  unfold bind, deactivate_sessions, bind, get_db, put_db, ret in E.
  inversion E; subst resp w'; clear E. simpl. split; [done|].
  assert (Hdeact : ∀ sid s,
    (deactivate_if_of (User.id u) <$> sessions (db w1)) !! sid = Some s →
    UserSession.user s = User.id u → UserSession.is_active s = false).
  { intros sid s. rewrite lookup_fmap.
    destruct (sessions (db w1) !! sid) as [s0|]; simpl; [|done].
    intros [= <-] Hus.
    destruct (deactivate_if_of_spec (User.id u) s0) as (H1 & _ & H3).
    apply H1. by rewrite <- H3. }
  split; [exact Hdeact|]. split.
  - intros sid s Hs Hne. rewrite lookup_fmap, Hs1, Hs. simpl. f_equal.
    by apply deactivate_if_of_spec.
  - intros now' request' u' token w'' E Hid.
    destruct (authenticate_cases now' request'
                (mkWorld (with_sessions (db w1)
                            (deactivate_if_of (User.id u) <$> sessions (db w1)))
                         (rule_lookups w1)))
      as [[E' _] | [(detail & E' & _)
         | [(t & p & text & _ & _ & _ & _ & _ & E')
           | (t & p & text & sid & s & u0 & _ & _ & _ & _ & _ & Hs & Hus & E')]]];
      rewrite E' in E; [done|done|done|].
    inversion E; subst u0.
    apply session_usable_Some in Hus as (Hact & _ & _ & Hid').
    simpl in Hs. rewrite (Hdeact sid s Hs) in Hact; [done|]. congruence.
Qed.

(** A POST that passed the checks reaches the function [@api_view]
    decorates. *)
Lemma api_view_POST handler request :
  method request = "POST" → api_view ["POST"] handler request = handler request.
Proof. unfold api_view. intros ->. done. Qed.

(** C9: a logout request that succeeds deactivates every session of the
    requesting principal, not only the one behind the presented token:
    afterwards none of the principal's sessions is active, the sessions
    of other principals are as they were, and no token, whichever login
    it came from, resolves to the principal any more. The logout request
    is a POST; the endpoint takes no other method. *)
Theorem logout_deactivates_every_session now request w resp w' :
  method request = "POST" →
  logout now request w = (inr resp, w') →
  status_code resp = 200 →
  ∃ u token w1,
    authenticate now request w = (inr (Some (u, token)), w1)
    ∧ logout_handler now (set_user_auth request (Some u) (Some token)) w1 = (inr resp, w')
    ∧ (∀ sid s, sessions (db w') !! sid = Some s →
                UserSession.user s = User.id u → UserSession.is_active s = false)
    ∧ (∀ sid s, sessions (db w) !! sid = Some s →
                UserSession.user s ≠ User.id u → sessions (db w') !! sid = Some s)
    ∧ (∀ now' request' u' token' w'',
         authenticate now' request' w' = (inr (Some (u', token')), w'') →
         User.id u' ≠ User.id u).
Proof.
  intros Hpost E Hok. unfold logout, dispatch, try_except, bind at 1 in E.
  rewrite perform_authentication_default in E.
  destruct (authenticate_cases now request w)
    as [[E' _] | [(detail & E' & _)
       | [(token & p & text & _ & _ & _ & _ & _ & E')
         | (token & p & text & sid & s & u & _ & _ & _ & _ & _ & Hs & Hus & E')]]];
    rewrite E' in E.
  - simpl in E. inversion E; subst. done.
  - simpl in E. inversion E; subst. done.
  - simpl in E. done.
  - set (w1 := mkWorld (with_sessions (db w) (<[sid := touch now s]> (sessions (db w))))
                 (rule_lookups w)) in *.
    change (check_permissions (permission_classes logout_view)
              (set_user_auth request (Some u) (Some token)) logout_view)
      with (ret (A:=Request) (set_user_auth request (Some u) (Some token))) in E.
    rewrite bind_ret_l, api_view_POST in E by done.
    destruct (logout_handler now (set_user_auth request (Some u) (Some token)) w1)
      as [[e|resp0] w0] eqn:Eh.
    { destruct e; simpl in E; try done; inversion E; subst; done. }
    inversion E; subst resp0 w0.
    destruct (logout_handler_deactivates now
                (set_user_auth request (Some u) (Some token)) u w1 resp w' eq_refl Eh)
      as (_ & Hall & Hframe & Hno).
    exists u, token, w1. split; [done|]. split; [done|]. split; [done|].
    split; [|done].
    intros sid' s' Hs' Hne. apply Hframe; [|done].
    apply session_usable_Some in Hus as (_ & _ & _ & Hid).
    simpl. rewrite lookup_insert_ne; [done|]. intros <-.
    rewrite Hs in Hs'. by simplify_eq.
Qed.

(** *** Minted tokens *)

(** C2: a token minted at login carries no [jti] claim. Revoking it
    therefore writes nothing to the ledger, the revocation check never
    reports it revoked, and a request presenting it is never rejected
    with "Token revoked". *)
Theorem minted_token_carries_no_jti now sid s owner :
  let token := create_jwt_token now sid s owner in
  (∃ p, jwt_claims token = Some p ∧ Payload.jti p = None)
  ∧ (∀ now' w, revoke now' token w = (inr tt, w))
  ∧ (∀ now' w, _is_token_revoked now' token w = (inr false, w))
  ∧ (∀ now' request w w',
       Authorization request = Some ("Bearer " +:+ token) →
       authenticate now' request w ≠ (inl (AuthenticationFailed "Token revoked"), w')).
Proof.
  intros token.
  assert (Hc : jwt_claims token =
               Some (Payload.mk (Some sid) (Some (User.id owner)) (Some (User.email owner))
                       (Some (UserSession.expires_at s)) (Some now) None)).
  { apply jwt_claims_encode. }
  assert (Hrev : ∀ now' w, _is_token_revoked now' token w = (inr false, w)).
  { intros now' w. rewrite _is_token_revoked_eq, Hc. simpl.
    by rewrite andb_false_r. }
  split; [by eexists|]. split; [|split; [done|]].
  - intros now' w. rewrite revoke_eq, Hc. simpl. by rewrite andb_false_r.
  - intros now' request w w' Hh E.
    destruct (bearer_header request token Hh) as [_ Htok].
    destruct (authenticate_cases now' request w)
      as [[E' _] | [(detail & E' & Hd)
         | [(?&?&?&_&_&_&_&_&E') | (?&?&?&?&?&?&_&_&_&_&_&_&_&E')]]];
      rewrite E' in E; try done.
    inversion E as [Hdetail]. specialize (Hd Hdetail).
    rewrite Htok, Hrev in Hd. done.
Qed.

(** *** Credential verification *)

Lemma User_get_by_email_eq email w :
  User_get_by_email email w =
  match List.find (λ u, String.eqb (User.email u) email) (users (db w)) with
  | Some u => (inr u, w)
  | None => (inl DoesNotExist, w)
  end.
Proof.
  unfold User_get_by_email, bind, get_db.
  by destruct (List.find _ (users (db w))).
Qed.

(** A view authenticates first; what authentication raises is the
    view's outcome, through [handle_exception]. *)
Lemma dispatch_authentication_fails view handler now request e w w1 :
  authenticate now request w = (inl e, w1) →
  dispatch view handler now request w = handle_exception e w1.
Proof.
  intros E. unfold dispatch, try_except, bind at 1.
  by rewrite perform_authentication_default, E.
Qed.

(** A request that presents no bearer token goes through the checks of
    a view open to all, unauthenticated and without touching the world. *)
Lemma dispatch_AllowAny_anonymous view handler now request w :
  permission_classes view = [AllowAny] →
  authenticate now request w = (inr None, w) →
  dispatch view handler now request w
  = try_except (handler (set_user_auth request None None)) handle_exception w.
Proof.
  intros Hperm E. unfold dispatch, try_except, bind at 1.
  rewrite perform_authentication_default, E, Hperm. done.
Qed.

Lemma UserLoginSerializer_validate_eq email password w :
  UserLoginSerializer_validate email password w =
  match List.find (λ u, String.eqb (User.email u) email) (users (db w)) with
  | None => (inl (ValidationError "Неверный email или пароль"), w)
  | Some u =>
      if negb (User.is_active u) then (inl (ValidationError "Аккаунт деактивирован"), w)
      else if negb (check_password password (User.password u))
      then (inl (ValidationError "Неверный email или пароль"), w)
      else (inr u, w)
  end.
Proof.
  unfold UserLoginSerializer_validate, bind, try_except.
  rewrite User_get_by_email_eq.
  destruct (List.find _ (users (db w))) as [u|]; [|done].
  destruct (User.is_active u); simpl; [|done].
  by destruct (check_password password (User.password u)).
Qed.

(** What [login] comes to for such a POST whose fields both pass. *)
Lemma login_validated now new_id request email_raw password_raw email password w :
  method request = "POST" →
  authenticate now request w = (inr None, w) →
  EmailField_run_validation email_raw = Valid email →
  CharField_run_validation password_raw = Valid password →
  login now new_id email_raw password_raw request w =
  match UserLoginSerializer_validate email password w with
  | (inr u, w1) =>
      (inr (mkResponse 200 (Token (create_jwt_token now new_id
                                     (UserSession.mk (User.id u) true now (now + seven_days)
                                        now) u) (User.id u))),
       mkWorld (with_sessions (db w1)
                  (<[new_id := UserSession.mk (User.id u) true now (now + seven_days) now]>
                     (sessions (db w1))))
               (rule_lookups w1))
  | (inl (ValidationError detail), w1) => (inr (mkResponse 401 (Errors detail)), w1)
  | (inl e, w1) => (inl e, w1)
  end.
Proof.
  intros Hpost E He Hp. unfold login.
  rewrite dispatch_AllowAny_anonymous by done.
  unfold try_except at 1. rewrite api_view_POST by done.
  unfold login_handler, UserLoginSerializer_is_valid, bind at 1. rewrite He, Hp.
  unfold try_except, bind at 1. rewrite UserLoginSerializer_validate_eq.
  destruct (List.find _ (users (db w))) as [u|]; [|done].
  destruct (User.is_active u); simpl; [|done].
  by destruct (check_password password (User.password u)).
Qed.

(** C4 as the code has it, for a login request that reaches the
    credential check (a POST without a bearer token whose two fields
    pass the field validation): each of the three failures makes the
    serializer raise a validation error and the login view answer 401
    without touching the world. An absent email and a wrong password
    give the same detail; an inactive principal gives a detail of its
    own. *)
Theorem credential_failures now new_id request email_raw password_raw email password w :
  method request = "POST" →
  authenticate now request w = (inr None, w) →
  EmailField_run_validation email_raw = Valid email →
  CharField_run_validation password_raw = Valid password →
  (email_absent (db w) email →
   UserLoginSerializer_validate email password w
   = (inl (ValidationError "Неверный email или пароль"), w)
   ∧ login now new_id email_raw password_raw request w
     = (inr (mkResponse 401 (Errors "Неверный email или пароль")), w))
  ∧ (password_mismatch (db w) email password →
     UserLoginSerializer_validate email password w
     = (inl (ValidationError "Неверный email или пароль"), w)
     ∧ login now new_id email_raw password_raw request w
       = (inr (mkResponse 401 (Errors "Неверный email или пароль")), w))
  ∧ (principal_inactive (db w) email →
     UserLoginSerializer_validate email password w
     = (inl (ValidationError "Аккаунт деактивирован"), w)
     ∧ login now new_id email_raw password_raw request w
       = (inr (mkResponse 401 (Errors "Аккаунт деактивирован")), w)).
Proof.
  intros Hpost Hanon He Hp.
  assert (Hlogin : ∀ detail,
    UserLoginSerializer_validate email password w = (inl (ValidationError detail), w) →
    login now new_id email_raw password_raw request w
    = (inr (mkResponse 401 (Errors detail)), w)).
  { intros detail E.
    rewrite (login_validated now new_id request email_raw password_raw email password w)
      by done.
    by rewrite E. }
  split; [|split].
  - intros Habs.
    assert (UserLoginSerializer_validate email password w
            = (inl (ValidationError "Неверный email или пароль"), w)) as E.
    { unfold UserLoginSerializer_validate, bind, try_except.
      rewrite User_get_by_email_eq. unfold email_absent in Habs. by rewrite Habs. }
    split; [done|]. by apply Hlogin.
  - intros (u & Hfind & Hact & Hpw).
    assert (UserLoginSerializer_validate email password w
            = (inl (ValidationError "Неверный email или пароль"), w)) as E.
    { unfold UserLoginSerializer_validate, bind, try_except.
      rewrite User_get_by_email_eq, Hfind, Hact. simpl. by rewrite Hpw. }
    split; [done|]. by apply Hlogin.
  - intros (u & Hfind & Hact).
    assert (UserLoginSerializer_validate email password w
            = (inl (ValidationError "Аккаунт деактивирован"), w)) as E.
    { unfold UserLoginSerializer_validate, bind, try_except.
      rewrite User_get_by_email_eq, Hfind, Hact. done. }
    split; [done|]. by apply Hlogin.
Qed.

(** *** The revocation ledger *)

Lemma entries_for_app jti (l l' : list RevokedToken.t) :
  entries_for jti (l ++ l')%list = (entries_for jti l + entries_for jti l')%nat.
Proof. unfold entries_for. by rewrite List.filter_app, length_app. Qed.

Lemma existsb_entries_for jti l :
  existsb (λ r, String.eqb (RevokedToken.jti r) jti) l = true ↔ (0 < entries_for jti l)%nat.
Proof.
  unfold entries_for. induction l as [|r l IH]; simpl; [split; [done|lia]|].
  destruct (String.eqb (RevokedToken.jti r) jti); simpl; [|done].
  split; [lia|done].
Qed.

Lemma existsb_entries_for_false jti l :
  existsb (λ r, String.eqb (RevokedToken.jti r) jti) l = false ↔ entries_for jti l = 0%nat.
Proof.
  rewrite <- not_true_iff_false, existsb_entries_for. lia.
Qed.

Lemma truthy_str_Some s : s ≠ "" → truthy_str (Some s) = true.
Proof.
  intros Hs. unfold truthy_str. apply negb_true_iff, String.eqb_neq. done.
Qed.

Lemma truthy_num_Some z : z ≠ 0 → truthy_num (Some z) = true.
Proof. intros Hz. unfold truthy_num. apply negb_true_iff. lia. Qed.

(** C6 as the code has it: for a validly signed token with a non-empty
    [jti] and a non-zero [exp] that [datetime] can hold, on a ledger
    with at most one row per [jti], revoking twice leaves exactly one
    row for that [jti]; the second call returns normally and changes
    nothing. If the ledger held no row for the [jti] before, the token
    is reported revoked after the first and after the second call at
    every time before [exp]. *)
Theorem revoke_twice_one_entry token p jti exp now1 now2 w :
  jwt_claims token = Some p →
  jwt_verify SECRET_KEY token = true →
  Payload.jti p = Some jti → jti ≠ "" →
  Payload.exp p = Some exp → exp ≠ 0 →
  datetime_representable exp = true →
  (entries_for jti (revoked_tokens (db w)) ≤ 1)%nat →
  let w1 := (revoke now1 token w).2 in
  let w2 := (revoke now2 token w1).2 in
  revoke now1 token w = (inr tt, w1)
  ∧ revoke now2 token w1 = (inr tt, w1)
  ∧ entries_for jti (revoked_tokens (db w1)) = 1%nat
  ∧ entries_for jti (revoked_tokens (db w2)) = 1%nat
  ∧ (entries_for jti (revoked_tokens (db w)) = 0%nat →
     ∀ now, now < exp →
       _is_token_revoked now token w1 = (inr true, w1)
       ∧ _is_token_revoked now token w2 = (inr true, w2)).
Proof.
  intros Hp Hv Hjti Hne Hexp Hnz Hrep Huniq w1 w2.
  assert (Hrev : ∀ now' w0, revoke now' token w0 =
            (inr tt, (RevokedToken_get_or_create now' jti exp w0).2)).
  { intros now' w0. rewrite revoke_eq, Hp, Hv, Hjti, Hexp.
    rewrite truthy_str_Some, truthy_num_Some by done. simpl. by rewrite Hrep. }
  assert (Hw1 : w1 = (RevokedToken_get_or_create now1 jti exp w).2).
  { unfold w1. by rewrite Hrev. }
  assert (H1 : entries_for jti (revoked_tokens (db w1)) = 1%nat
               ∧ (entries_for jti (revoked_tokens (db w)) = 0%nat →
                  revoked_tokens (db w1)
                  = (revoked_tokens (db w) ++ [RevokedToken.mk jti now1 exp])%list)).
  { rewrite Hw1, RevokedToken_get_or_create_eq. simpl.
    destruct (existsb _ (revoked_tokens (db w))) eqn:Hex; simpl.
    - apply existsb_entries_for in Hex. split; lia.
    - apply existsb_entries_for_false in Hex. split; [|done].
      rewrite entries_for_app, Hex. unfold entries_for. simpl.
      by rewrite String.eqb_refl. }
  destruct H1 as [H1 Hnew].
  assert (Hnoop : (RevokedToken_get_or_create now2 jti exp w1).2 = w1).
  { rewrite RevokedToken_get_or_create_eq. simpl.
    assert (existsb (λ r, String.eqb (RevokedToken.jti r) jti)
              (revoked_tokens (db w1)) = true) as ->; [|done].
    apply existsb_entries_for. lia. }
  assert (Hw2 : w2 = w1). { unfold w2. by rewrite Hrev. }
  split; [by rewrite Hrev, Hw1|]. split; [by rewrite Hrev, Hnoop|].
  split; [done|]. split; [by rewrite Hw2|].
  intros Hfresh now Hnow. rewrite Hw2.
  assert (_is_token_revoked now token w1 = (inr true, w1)) as ->; [|done].
  rewrite _is_token_revoked_eq, Hp, Hv, Hjti.
  rewrite truthy_str_Some by done. simpl.
  unfold RevokedToken_in_force. rewrite (Hnew Hfresh), existsb_app. simpl.
  rewrite String.eqb_refl. simpl.
  assert ((now <? exp) = true) as -> by lia. by rewrite orb_true_r.
Qed.

(** ** Further properties *)

(** *** The permission check *)

Lemma insert_by_assigned_at_sorted r l :
  newest_first l → newest_first (insert_by_assigned_at r l).
Proof.
  induction l as [|x xs IH]; intros Hs; simpl.
  - by split.
  - destruct Hs as [Hall Hxs].
    destruct (UserRole.assigned_at x <=? UserRole.assigned_at r) eqn:Hle.
    + apply Z.leb_le in Hle. simpl. split; [|done].
      constructor; [done|]. eapply Forall_impl; [exact Hall|]. simpl. lia.
    + apply Z.leb_gt in Hle. simpl. split; [|by apply IH].
      rewrite insert_by_assigned_at_perm. constructor; [lia|done].
Qed.

Lemma order_by_assigned_at_desc_newest_first l :
  newest_first (order_by_assigned_at_desc l).
Proof.
  unfold order_by_assigned_at_desc.
  induction l as [|x xs IH]; simpl.
  - done.
  - by apply insert_by_assigned_at_sorted.
Qed.

Lemma user_roles_all_sorted d u : newest_first (user_roles_all d u).
Proof. apply ordered_newest_first. Qed.

Lemma loop_outcome_cons d request res action ur rest :
  loop_outcome d request res action (ur :: rest) =
  match access_rules d !! (UserRole.role ur, res) with
  | Some rule =>
      if AccessRoleRule.has_global_permission rule action then (true, request)
      else if AccessRoleRule.has_own_permission rule action
      then (true, set_must_filter_by_owner request true)
      else loop_outcome d request res action rest
  | None => loop_outcome d request res action rest
  end.
Proof.
  unfold loop_outcome, role_grants. simpl.
  destruct (access_rules d !! (UserRole.role ur, res)) as [rule|] eqn:Hrule; [|done].
  destruct (AccessRoleRule.has_global_permission rule action) eqn:Hg; simpl.
  { by rewrite Hrule, Hg. }
  destruct (AccessRoleRule.has_own_permission rule action) eqn:Ho; simpl; [|done].
  by rewrite Hrule, Hg.
Qed.

(** The loop, exactly: its result, and the rule queries it issues. *)
Lemma has_permission_loop_exact request res action roles w :
  ∃ new,
    has_permission_loop request res action roles w
    = (inr (loop_outcome (db w) request res action roles),
       mkWorld (db w) (new ++ rule_lookups w))
    ∧ (length new ≤ length roles)%nat
    ∧ Forall (λ q, q.2 = res ∧ ∃ ur, ur ∈ roles ∧ q.1 = UserRole.role ur) new.
Proof.
  revert w. induction roles as [|ur rest IH]; intros w.
  - exists []. by destruct w.
  - simpl has_permission_loop. unfold bind.
    rewrite has_permission_body_eq, loop_outcome_cons.
    set (w1 := mkWorld (db w) ((UserRole.role ur, res) :: rule_lookups w)).
    assert (Hq : (UserRole.role ur, res).2 = res
                 ∧ ∃ ur', ur' ∈ ur :: rest ∧ (UserRole.role ur, res).1 = UserRole.role ur').
    { split; [done|]. exists ur. split; [apply list_elem_of_here|done]. }
    assert (Hrest : ∃ new,
      has_permission_loop request res action rest w1
      = (inr (loop_outcome (db w) request res action rest),
         mkWorld (db w) (new ++ rule_lookups w))
      ∧ (length new ≤ length (ur :: rest))%nat
      ∧ Forall (λ q, q.2 = res ∧ ∃ ur', ur' ∈ ur :: rest ∧ q.1 = UserRole.role ur') new).
    { destruct (IH w1) as (new & E & Hlen & Hall).
      exists (new ++ [(UserRole.role ur, res)])%list. split; [|split].
      - rewrite E. simpl. by rewrite <- app_assoc.
      - rewrite length_app. simpl. lia.
      - apply Forall_app. split; [|by constructor].
        eapply Forall_impl; [exact Hall|]. intros q (? & ur' & ? & ?).
        split; [done|]. exists ur'. split; [by apply list_elem_of_further|done]. }
    assert (Hstop : ∀ r : bool * Request, ∃ new,
      (inr r, w1) = (inr (B:=bool * Request) (A:=exn) r, mkWorld (db w) (new ++ rule_lookups w))
      ∧ (length new ≤ length (ur :: rest))%nat
      ∧ Forall (λ q, q.2 = res ∧ ∃ ur', ur' ∈ ur :: rest ∧ q.1 = UserRole.role ur') new).
    { intros r. exists [(UserRole.role ur, res)]. split; [done|].
      split; [simpl; lia|]. by constructor. }
    destruct (access_rules (db w) !! (UserRole.role ur, res)) as [rule|]; [|exact Hrest].
    destruct (AccessRoleRule.has_global_permission rule action); [apply Hstop|].
    destruct (AccessRoleRule.has_own_permission rule action); [apply Hstop|exact Hrest].
Qed.

Lemma role_grants_true d res action ur :
  role_grants d res action ur = true ↔
  ∃ rule, access_rules d !! (UserRole.role ur, res) = Some rule
          ∧ (AccessRoleRule.has_global_permission rule action = true
             ∨ AccessRoleRule.has_own_permission rule action = true).
Proof.
  unfold role_grants. destruct (access_rules d !! _) as [rule|].
  - rewrite orb_true_iff. split; [eauto|]. by intros (? & [= <-] & ?).
  - split; [done|]. by intros (? & ? & _).
Qed.

Lemma loop_outcome_cases d request res action roles :
  (List.find (role_grants d res action) roles = None
   ∧ loop_outcome d request res action roles = (false, request))
  ∨ (∃ ur rule,
       List.find (role_grants d res action) roles = Some ur
       ∧ access_rules d !! (UserRole.role ur, res) = Some rule
       ∧ role_grants d res action ur = true
       ∧ loop_outcome d request res action roles
         = if AccessRoleRule.has_global_permission rule action
           then (true, request)
           else (true, set_must_filter_by_owner request true)).
Proof.
  unfold loop_outcome.
  destruct (List.find _ roles) as [ur|] eqn:Hfind; [|by left].
  right. apply find_some in Hfind as [_ Hg].
  pose proof Hg as Hg'. apply role_grants_true in Hg' as (rule & Hrule & _).
  exists ur, rule. by rewrite Hrule.
Qed.

Lemma HasPermission_has_permission_exact request view u res w :
  user request = Some u → view_resource_name view = Some res →
  ∃ new,
    HasPermission_has_permission request view w
    = (inr (loop_outcome (db w) request res (action_of request) (user_roles_all (db w) u)),
       mkWorld (db w) (new ++ rule_lookups w))
    ∧ (length new ≤ length (user_roles_all (db w) u))%nat
    ∧ Forall (λ q, q.2 = res
                   ∧ ∃ ur, ur ∈ user_roles_all (db w) u ∧ q.1 = UserRole.role ur) new.
Proof.
  intros Hu Hres. unfold HasPermission_has_permission. rewrite Hu, Hres.
  unfold bind, get_db. apply has_permission_loop_exact.
Qed.

(** Access is granted exactly when some role of the principal has a
    rule on the view's resource granting the request's action, globally
    or on own objects; the check leaves the database alone and changes
    nothing of the request but the owner-filter flag. *)
Theorem has_permission_granted_iff request view u res w :
  user request = Some u →
  view_resource_name view = Some res →
  ∃ r w',
    HasPermission_has_permission request view w = (inr r, w')
    ∧ db w' = db w
    ∧ (r.1 = true ↔
       ∃ ur rule, ur ∈ user_roles (db w) ∧ UserRole.user ur = User.id u
         ∧ access_rules (db w) !! (UserRole.role ur, res) = Some rule
         ∧ (AccessRoleRule.has_global_permission rule (action_of request) = true
            ∨ AccessRoleRule.has_own_permission rule (action_of request) = true))
    ∧ method r.2 = method request
    ∧ Authorization r.2 = Authorization request
    ∧ user r.2 = user request
    ∧ auth r.2 = auth request.
Proof.
  intros Hu Hres.
  destruct (HasPermission_has_permission_exact request view u res w Hu Hres)
    as (new & E & _).
  eexists _, _. split; [exact E|]. split; [done|]. split.
  - destruct (loop_outcome_cases (db w) request res (action_of request)
                (user_roles_all (db w) u))
      as [[Hfind ->] | (ur & rule & Hfind & Hrule & Hg & ->)].
    + split; [done|]. intros (ur & rule & Hin & Hur & Hrule & Hor).
      assert (role_grants (db w) res (action_of request) ur = true) as Hg.
      { apply role_grants_true. by exists rule. }
      eapply find_none in Hfind; [by rewrite Hg in Hfind|].
      by apply list_elem_of_In, elem_of_user_roles_all.
    + split.
      * intros _. apply find_some in Hfind as [Hin _].
        apply list_elem_of_In, elem_of_user_roles_all in Hin as [Hin Hur].
        apply role_grants_true in Hg as (rule' & Hrule' & Hor).
        by exists ur, rule'.
      * intros _. by destruct (AccessRoleRule.has_global_permission rule _).
  - destruct (loop_outcome_cases (db w) request res (action_of request)
                (user_roles_all (db w) u))
      as [[_ ->] | (ur & rule & _ & _ & _ & ->)]; [done|].
    by destruct (AccessRoleRule.has_global_permission rule _).
Qed.

Lemma find_newest_first (P : UserRole.t → bool) l x :
  newest_first l → List.find P l = Some x →
  ∀ y, y ∈ l → P y = true → UserRole.assigned_at y ≤ UserRole.assigned_at x.
Proof.
  induction l as [|a l IH]; simpl; [done|]. intros [Hall Hs] Hfind y Hy Py.
  destruct (P a) eqn:Pa.
  - injection Hfind as <-. apply elem_of_cons in Hy as [-> | Hy]; [lia|].
    rewrite Forall_forall in Hall. by apply Hall.
  - apply elem_of_cons in Hy as [-> | Hy]; [congruence|]. by apply IH.
Qed.

(** Among the roles of the principal whose rule grants the action, a
    most recently assigned one decides: the decision is [GrantedGlobal]
    when its rule grants the action globally and [GrantedOwnOnly]
    otherwise; with no such role it is [Denied]. *)
Theorem latest_granting_role_decides request view u res w :
  user request = Some u →
  view_resource_name view = Some res →
  must_filter_by_owner request = false →
  ∃ r w',
    HasPermission_has_permission request view w = (inr r, w')
    ∧ ((decision_of r = Denied
        ∧ ∀ ur, ur ∈ user_roles (db w) → UserRole.user ur = User.id u →
                role_grants (db w) res (action_of request) ur = false)
       ∨ (∃ ur rule,
            ur ∈ user_roles (db w) ∧ UserRole.user ur = User.id u
            ∧ access_rules (db w) !! (UserRole.role ur, res) = Some rule
            ∧ role_grants (db w) res (action_of request) ur = true
            ∧ (∀ ur', ur' ∈ user_roles (db w) → UserRole.user ur' = User.id u →
                      role_grants (db w) res (action_of request) ur' = true →
                      UserRole.assigned_at ur' ≤ UserRole.assigned_at ur)
            ∧ decision_of r
              = if AccessRoleRule.has_global_permission rule (action_of request)
                then GrantedGlobal else GrantedOwnOnly)).
Proof.
  intros Hu Hres Hflag.
  destruct (HasPermission_has_permission_exact request view u res w Hu Hres)
    as (new & E & _).
  eexists _, _. split; [exact E|].
  destruct (loop_outcome_cases (db w) request res (action_of request)
              (user_roles_all (db w) u))
    as [[Hfind ->] | (ur & rule & Hfind & Hrule & Hg & ->)].
  - left. split; [done|]. intros ur Hin Hur.
    eapply find_none in Hfind; [exact Hfind|].
    by apply list_elem_of_In, elem_of_user_roles_all.
  - right. exists ur, rule.
    pose proof (find_newest_first _ _ _ (user_roles_all_sorted (db w) u) Hfind) as Hmax.
    apply find_some in Hfind as [Hin _].
    apply list_elem_of_In, elem_of_user_roles_all in Hin as [Hin Hur].
    repeat split; try done.
    + intros ur' Hin' Hur' Hg'. apply Hmax; [|done].
      by apply elem_of_user_roles_all.
    + unfold decision_of.
      destruct (AccessRoleRule.has_global_permission rule _); simpl; [|done].
      by rewrite Hflag.
Qed.

Lemma has_own_permission_other rule action :
  action ∉ ["read"; "update"; "delete"] →
  AccessRoleRule.has_own_permission rule action = false.
Proof.
  intros Ha. unfold AccessRoleRule.has_own_permission.
  by rewrite (not_elem_of_list_to_map_1 _ action).
Qed.

(** A POST request is never narrowed to own objects: creating has no
    own-objects permission, so the check returns the request as it got
    it, granted or not. *)
Theorem post_request_never_narrowed request view u res w :
  method request = "POST" →
  user request = Some u →
  view_resource_name view = Some res →
  ∃ b w', HasPermission_has_permission request view w = (inr (b, request), w').
Proof.
  intros Hm Hu Hres.
  destruct (HasPermission_has_permission_exact request view u res w Hu Hres)
    as (new & E & _).
  assert (Ha : action_of request = "create").
  { unfold action_of. by rewrite Hm. }
  rewrite Ha in E.
  destruct (loop_outcome_cases (db w) request res "create" (user_roles_all (db w) u))
    as [[_ Ho] | (ur & rule & _ & Hrule & Hg & Ho)]; rewrite Ho in E.
  - by eexists _, _.
  - apply role_grants_true in Hg as (rule' & Hrule' & Hor).
    rewrite Hrule in Hrule'. injection Hrule' as <-.
    rewrite has_own_permission_other in Hor.
    + destruct Hor as [Hg|]; [|done]. rewrite Hg in E. by eexists _, _.
    + apply (bool_decide_unpack _). vm_compute. exact I.
Qed.

(** The check never raises and never writes to the database. It asks
    for no access rule at all when the request is anonymous or the view
    names no resource; otherwise it issues at most one rule query per
    role row of the principal, each for the view's resource and a role
    the principal holds. *)
Theorem has_permission_rule_queries request view w :
  ∃ r w' new,
    HasPermission_has_permission request view w = (inr r, w')
    ∧ db w' = db w
    ∧ rule_lookups w' = (new ++ rule_lookups w)%list
    ∧ (user request = None ∨ view_resource_name view = None → new = [])
    ∧ (∀ u res, user request = Some u → view_resource_name view = Some res →
         (length new ≤ length (List.filter (λ r, (UserRole.user r =? User.id u)%Z)
                                 (user_roles (db w))))%nat
         ∧ ∀ q, q ∈ new →
             q.2 = res
             ∧ ∃ ur, ur ∈ user_roles (db w) ∧ UserRole.user ur = User.id u
                     ∧ q.1 = UserRole.role ur).
Proof.
  destruct (user request) as [u|] eqn:Hu.
  - destruct (view_resource_name view) as [res|] eqn:Hres.
    + destruct (HasPermission_has_permission_exact request view u res w Hu Hres)
        as (new & E & Hlen & Hall).
      eexists _, _, new. split; [exact E|]. split; [done|]. split; [done|].
      split; [by intros [|]|]. intros u' res' [= <-] [= <-]. split.
      * unfold user_roles_all in Hlen.
        by rewrite ordered_Permutation in Hlen.
      * intros q Hq. rewrite Forall_forall in Hall.
        destruct (Hall q) as (? & ur & Hin & ?); [done|].
        split; [done|]. apply elem_of_user_roles_all in Hin as [? ?]. by exists ur.
    + exists (false, request), w, []. unfold HasPermission_has_permission.
      rewrite Hu, Hres. by destruct w.
  - exists (false, request), w, []. unfold HasPermission_has_permission.
    rewrite Hu. by destruct w.
Qed.

(** *** The object-level check *)

Lemma _is_owner_true u obj :
  _is_owner u obj = true ↔
  owner obj = Some (User.id u) ∨ object_user obj = Some (User.id u)
  ∨ created_by obj = Some (User.id u).
Proof.
  clear. unfold _is_owner. repeat case_bool_decide; intuition congruence.
Qed.

Lemma role_grants_on_true d u obj res action ur :
  role_grants_on d u obj res action ur = true ↔
  ∃ rule, access_rules d !! (UserRole.role ur, res) = Some rule
          ∧ (AccessRoleRule.has_global_permission rule action = true
             ∨ (AccessRoleRule.has_own_permission rule action = true
                ∧ _is_owner u obj = true)).
Proof.
  unfold role_grants_on. destruct (access_rules d !! _) as [rule|].
  - rewrite orb_true_iff, andb_true_iff. split; [eauto|]. by intros (? & [= <-] & ?).
  - split; [done|]. by intros (? & ? & _).
Qed.

Lemma HasPermission_has_object_permission_eq request view obj u w :
  user request = Some u →
  ∃ w', HasPermission_has_object_permission request view obj w
        = (inr (existsb (role_grants_on (db w) u obj
                           (if truthy_str (resource_name view)
                            then default "" (resource_name view) else model_name obj)
                           (action_of request))
                  (user_roles_all (db w) u)), w')
        ∧ db w' = db w.
Proof.
  intros Hu. unfold HasPermission_has_object_permission. rewrite Hu.
  unfold bind, get_db. apply has_object_permission_loop_spec.
Qed.

(** The object-level check answers yes exactly when some role of the
    principal has a rule on the resource that grants the action
    globally, or grants it on own objects while the object names the
    principal as its owner, user or creator. It leaves the database
    alone. *)
Theorem has_object_permission_iff request view obj u w :
  user request = Some u →
  let res := if truthy_str (resource_name view)
             then default "" (resource_name view) else model_name obj in
  ∃ b w',
    HasPermission_has_object_permission request view obj w = (inr b, w')
    ∧ db w' = db w
    ∧ (b = true ↔
       ∃ ur rule, ur ∈ user_roles (db w) ∧ UserRole.user ur = User.id u
         ∧ access_rules (db w) !! (UserRole.role ur, res) = Some rule
         ∧ (AccessRoleRule.has_global_permission rule (action_of request) = true
            ∨ (AccessRoleRule.has_own_permission rule (action_of request) = true
               ∧ (owner obj = Some (User.id u) ∨ object_user obj = Some (User.id u)
                  ∨ created_by obj = Some (User.id u))))).
Proof.
  intros Hu res.
  destruct (HasPermission_has_object_permission_eq request view obj u w Hu)
    as (w' & E & Hdb).
  eexists _, w'. split; [exact E|]. split; [done|].
  fold res. rewrite existsb_exists. split.
  - intros (ur & Hin & Hg).
    apply list_elem_of_In, elem_of_user_roles_all in Hin as [Hin Hur].
    apply role_grants_on_true in Hg as (rule & Hrule & Hor).
    exists ur, rule. rewrite _is_owner_true in Hor. done.
  - intros (ur & rule & Hin & Hur & Hrule & Hor). exists ur. split.
    + by apply list_elem_of_In, elem_of_user_roles_all.
    + apply role_grants_on_true. exists rule. by rewrite _is_owner_true.
Qed.

(** The two checks fit together on a view that names its resource: an
    object the object-level check admits belongs to a request the
    view-level check grants, and a request decided [GrantedGlobal] is
    admitted on every object. *)
Theorem object_and_view_checks_agree request view u res w :
  user request = Some u →
  resource_name view = Some res → res ≠ "" →
  must_filter_by_owner request = false →
  ∃ r w',
    HasPermission_has_permission request view w = (inr r, w')
    ∧ (∀ obj, (HasPermission_has_object_permission request view obj w).1 = inr true →
              r.1 = true)
    ∧ (decision_of r = GrantedGlobal →
       ∀ obj, (HasPermission_has_object_permission request view obj w).1 = inr true).
Proof.
  intros Hu Hres Hne Hflag.
  assert (Htruthy : truthy_str (resource_name view) = true).
  { rewrite Hres. by apply truthy_str_Some. }
  assert (Hview : view_resource_name view = Some res).
  { unfold view_resource_name. by rewrite Htruthy. }
  destruct (HasPermission_has_permission_exact request view u res w Hu Hview)
    as (new & E & _).
  eexists _, _. split; [exact E|].
  assert (Hobj : ∀ obj, (HasPermission_has_object_permission request view obj w).1
            = inr (existsb (role_grants_on (db w) u obj res (action_of request))
                     (user_roles_all (db w) u))).
  { intros obj.
    destruct (HasPermission_has_object_permission_eq request view obj u w Hu)
      as (w' & -> & _). by rewrite Htruthy, Hres. }
  destruct (loop_outcome_cases (db w) request res (action_of request)
              (user_roles_all (db w) u))
    as [[Hfind ->] | (ur & rule & Hfind & Hrule & Hg & ->)].
  - split; [|done]. intros obj. rewrite Hobj. intros [= Hex].
    apply existsb_exists in Hex as (ur & Hin & Hon).
    eapply find_none in Hfind; [|exact Hin].
    apply role_grants_on_true in Hon as (rule & Hrule & Hor).
    assert (role_grants (db w) res (action_of request) ur = true) as Hg.
    { apply role_grants_true. exists rule. split; [done|].
      destruct Hor as [? | [? _]]; [by left | by right]. }
    by rewrite Hg in Hfind.
  - split.
    + intros _ _. by destruct (AccessRoleRule.has_global_permission rule _).
    + destruct (AccessRoleRule.has_global_permission rule (action_of request)) eqn:Hglobal;
        unfold decision_of; simpl; [|done].
      intros _ obj. rewrite Hobj. f_equal. apply existsb_exists.
      exists ur. split; [by apply find_some in Hfind as [? _]|].
      apply role_grants_on_true. exists rule. by split; [|left].
Qed.

(** *** Token resolution, case by case *)

Lemma prefix_slice p s :
  String.prefix p s = true → s = p +:+ slice_from (String.length p) s.
Proof.
  revert s. induction p as [|c p IH]; intros s.
  - intros _. unfold slice_from. simpl. rewrite Nat.sub_0_r.
    by rewrite substring_0_length.
  - destruct s as [|c' s]; simpl; [done|].
    destruct (Ascii.ascii_dec c c') as [<-|]; [|done].
    intros Hp. unfold slice_from. simpl.
    match goal with |- _ = String c p +:+ ?x =>
      change (String c p +:+ x) with (String c (p +:+ x)) end.
    f_equal. by apply (IH s).
Qed.

(** [authenticate] on a request that carries a bearer token, with the
    [try]/[except] flattened. *)
Lemma authenticate_bearer_eq now request token w :
  Authorization request = Some ("Bearer " +:+ token) →
  authenticate now request w =
  if match jwt_claims token with
     | Some p =>
         jwt_verify SECRET_KEY token && truthy_str (Payload.jti p)
         && RevokedToken_in_force (db w) now (default "" (Payload.jti p))
     | None => false
     end
  then (inl (AuthenticationFailed "Token revoked"), w)
  else
    match jwt_claims token with
    | None => (inl (AuthenticationFailed "Invalid token"), w)
    | Some p =>
        if negb (jwt_verify SECRET_KEY token)
        then (inl (AuthenticationFailed "Invalid token"), w)
        else if match Payload.exp p with Some e => e <=? now | None => false end
        then (inl (AuthenticationFailed "Token expired"), w)
        else if negb (truthy_str (Payload.session_id p))
        then (inl (AuthenticationFailed "Invalid token: no session_id"), w)
        else
          match UUIDField_to_python (default "" (Payload.session_id p)) with
          | None => (inl DjangoValidationError, w)
          | Some sid =>
              match sessions (db w) !! sid with
              | Some s =>
                  match session_usable (db w) now s with
                  | Some u =>
                      (inr (Some (u, token)),
                       mkWorld (with_sessions (db w)
                                  (<[sid := touch now s]> (sessions (db w))))
                               (rule_lookups w))
                  | None => (inl (AuthenticationFailed "Session not found or inactive"), w)
                  end
              | None => (inl (AuthenticationFailed "Session not found or inactive"), w)
              end
          end
    end.
Proof.
  intros Hh. destruct (bearer_header request token Hh) as [Hguard Htok].
  unfold authenticate. rewrite Hguard, Htok.
  unfold try_except, bind at 1. rewrite _is_token_revoked_eq.
  match goal with |- context [if ?b then raise _ else _] => destruct b end; [done|].
  unfold bind at 1, jwt_decode.
  destruct (jwt_claims token) as [p|]; [|done].
  destruct (jwt_verify SECRET_KEY token); simpl; [|done].
  match goal with |- context [if ?b then raise ExpiredSignatureError else _] =>
    destruct b end; [done|].
  simpl. destruct (negb (truthy_str (Payload.session_id p))); [done|].
  unfold bind at 1. rewrite UserSession_objects_get_eq.
  destruct (UUIDField_to_python _) as [sid|]; [|done].
  destruct (sessions (db w) !! _) as [s|]; [|done].
  by destruct (session_usable (db w) now s).
Qed.

(** Each way a bearer token can fail has its own outcome, tested in
    this order: revoked, then malformed or wrongly signed, then past its
    [exp], then lacking a [session_id]; then a [session_id] that denotes
    no UUID, for which the session query raises Django's
    [ValidationError], an error [authenticate] does not catch; then a
    session that is missing or unusable. A failure leaves the world as
    it was. *)
Theorem authenticate_failure_details now request token w :
  Authorization request = Some ("Bearer " +:+ token) →
  (_is_token_revoked now token w = (inr true, w) →
   authenticate now request w = (inl (AuthenticationFailed "Token revoked"), w))
  ∧ (jwt_claims token = None ∨ jwt_verify SECRET_KEY token = false →
     authenticate now request w = (inl (AuthenticationFailed "Invalid token"), w))
  ∧ (∀ p, jwt_claims token = Some p → jwt_verify SECRET_KEY token = true →
          _is_token_revoked now token w = (inr false, w) →
          ((∃ e, Payload.exp p = Some e ∧ e ≤ now) →
           authenticate now request w = (inl (AuthenticationFailed "Token expired"), w))
          ∧ ((∀ e, Payload.exp p = Some e → now < e) →
             (truthy_str (Payload.session_id p) = false →
              authenticate now request w
              = (inl (AuthenticationFailed "Invalid token: no session_id"), w))
             ∧ (∀ text, Payload.session_id p = Some text → text ≠ "" →
                  (UUIDField_to_python text = None →
                   authenticate now request w = (inl DjangoValidationError, w))
                  ∧ (∀ sid, UUIDField_to_python text = Some sid →
                       sessions (db w) !! sid = None
                       ∨ (∃ s, sessions (db w) !! sid = Some s
                               ∧ session_usable (db w) now s = None) →
                       authenticate now request w
                       = (inl (AuthenticationFailed "Session not found or inactive"),
                          w))))).
Proof.
  intros Hh. rewrite (authenticate_bearer_eq now request token w Hh).
  rewrite _is_token_revoked_eq.
  split; [|split].
  - intros [= ->]. done.
  - intros [-> | Hv]; [done|]. rewrite Hv.
    destruct (jwt_claims token); simpl; done.
  - intros p Hp Hv. rewrite Hp, Hv. intros [= Hnr]. simpl in Hnr |- *. rewrite Hnr. split.
    + intros (e & -> & Hle). by assert ((e <=? now) = true) as -> by lia.
    + intros Hexp.
      assert (match Payload.exp p with Some e => e <=? now | None => false end = false)
        as ->.
      { destruct (Payload.exp p) as [e|]; [|done]. specialize (Hexp e eq_refl). lia. }
      split.
      * by intros ->.
      * intros text Htext Hne. rewrite Htext, truthy_str_Some by done. simpl. split.
        -- by intros ->.
        -- intros sid -> Hmiss. destruct Hmiss as [-> | (s & -> & ->)]; done.
Qed.


(** What token resolution touches: nothing when it fails or finds no
    bearer token; on success only the [last_activity_at] of the one
    session the token names, which is active, unexpired and owned by the
    returned, active user. The header without a bearer prefix, and only
    that, makes the request anonymous. *)
Theorem authenticate_frame now request w :
  let header_is_bearer :=
    truthy_str (Authorization request)
    && startswith "Bearer " (default "" (Authorization request)) in
  ((authenticate now request w).1 = inr None ↔ header_is_bearer = false)
  ∧ (∀ e, (authenticate now request w).1 = inl e → (authenticate now request w).2 = w)
  ∧ ((authenticate now request w).1 = inr None → (authenticate now request w).2 = w)
  ∧ (∀ u token w',
       authenticate now request w = (inr (Some (u, token)), w') →
       Authorization request = Some ("Bearer " +:+ token)
       ∧ ∃ p text sid s,
           jwt_claims token = Some p
           ∧ jwt_verify SECRET_KEY token = true
           ∧ Payload.session_id p = Some text
           ∧ UUIDField_to_python text = Some sid
           ∧ sessions (db w) !! sid = Some s
           ∧ UserSession.is_active s = true
           ∧ now < UserSession.expires_at s
           ∧ UserSession.user s = User.id u
           ∧ User.is_active u = true
           ∧ find_user (db w) (UserSession.user s) = Some u
           ∧ w' = mkWorld (with_sessions (db w) (<[sid := touch now s]> (sessions (db w))))
                          (rule_lookups w)).
Proof.
  intros header_is_bearer.
  assert (Hguard : negb (truthy_str (Authorization request))
                   || negb (startswith "Bearer " (default "" (Authorization request)))
                   = negb header_is_bearer).
  { unfold header_is_bearer. by rewrite negb_andb. }
  destruct (authenticate_cases now request w)
    as [[E Hg] | [(detail & E & _)
       | [(token & p & text & _ & _ & _ & _ & _ & E)
         | (token & p & text & sid & s & u & Ht & Hp & Hv & Htext & Hsid & Hs & Hu & E)]]].
  - rewrite E. simpl. rewrite Hguard in Hg. apply negb_true_iff in Hg.
    repeat split; try done.
  - rewrite E. simpl. split; [|by repeat split].
    split; [done|]. intros Hb. unfold authenticate in E.
    rewrite Hguard, Hb in E. done.
  - rewrite E. simpl. split; [|by repeat split].
    split; [done|]. intros Hb. unfold authenticate in E.
    rewrite Hguard, Hb in E. done.
  - assert (Hb : header_is_bearer = true).
    { destruct header_is_bearer eqn:Hb; [done|]. unfold authenticate in E.
      rewrite Hguard in E. done. }
    rewrite E. simpl. split; [by rewrite Hb|]. split; [done|]. split; [done|].
    intros u' token' w' [= <- <- <-].
    assert (Hfind : find_user (db w) (UserSession.user s) = Some u).
    { unfold session_usable in Hu.
      destruct (find_user (db w) (UserSession.user s)) as [u0|]; [|done].
      match type of Hu with context [if ?b then _ else _] => destruct b end;
        by simplify_eq. }
    apply session_usable_Some in Hu as (? & ? & ? & ?).
    split; [|by exists p, text, sid, s].
    unfold header_is_bearer in Hb. apply andb_true_iff in Hb as [Htr Hpre].
    destruct (Authorization request) as [h|]; [|done].
    f_equal. simpl in Ht, Hpre. rewrite Ht. by apply (prefix_slice "Bearer " h).
Qed.

(** *** Login *)

Lemma login_eq now new_id request email_raw password_raw email password u w :
  method request = "POST" →
  authenticate now request w = (inr None, w) →
  EmailField_run_validation email_raw = Valid email →
  CharField_run_validation password_raw = Valid password →
  List.find (λ u, String.eqb (User.email u) email) (users (db w)) = Some u →
  User.is_active u = true →
  check_password password (User.password u) = true →
  login now new_id email_raw password_raw request w =
  (inr (mkResponse 200
          (Token (create_jwt_token now new_id
                    (UserSession.mk (User.id u) true now (now + seven_days) now) u)
                 (User.id u))),
   mkWorld (with_sessions (db w)
              (<[new_id := UserSession.mk (User.id u) true now (now + seven_days) now]>
                 (sessions (db w))))
           (rule_lookups w)).
Proof.
  intros Hpost Hanon He Hp Hfind Hact Hpw.
  rewrite (login_validated now new_id request email_raw password_raw email password w)
    by done.
  rewrite UserLoginSerializer_validate_eq, Hfind, Hact. simpl. by rewrite Hpw.
Qed.


(** Round trip: with a codec whose tokens parse back and verify, the
    token a successful login returns resolves to the user who logged in
    at every time before the session's expiry, seven days after the
    login, and is refused as expired from then on. The key drawn for the
    session is the text of a UUID. *)
Theorem login_token_resolves now new_id request email_raw password_raw email password u w :
  (∀ key payload, jwt_verify key (jwt_encode key payload) = true) →
  method request = "POST" →
  authenticate now request w = (inr None, w) →
  EmailField_run_validation email_raw = Valid email →
  CharField_run_validation password_raw = Valid password →
  List.find (λ u, String.eqb (User.email u) email) (users (db w)) = Some u →
  User.is_active u = true →
  check_password password (User.password u) = true →
  find_user (db w) (User.id u) = Some u →
  new_id ≠ "" →
  UUIDField_to_python new_id = Some new_id →
  ∃ token w',
    login now new_id email_raw password_raw request w
    = (inr (mkResponse 200 (Token token (User.id u))), w')
    ∧ (∀ t request', Authorization request' = Some ("Bearer " +:+ token) →
         t < now + seven_days →
         (authenticate t request' w').1 = inr (Some (u, token)))
    ∧ (∀ t request', Authorization request' = Some ("Bearer " +:+ token) →
         now + seven_days ≤ t →
         authenticate t request' w' = (inl (AuthenticationFailed "Token expired"), w')).
Proof.
  intros Hverify Hpost Hanon He Hp Hfind Hact Hpw Hid Hne Huuid. eexists _, _.
  split; [by apply (login_eq now new_id request email_raw password_raw email password)|].
  set (session := UserSession.mk (User.id u) true now (now + seven_days) now).
  set (token := create_jwt_token now new_id session u).
  set (w' := mkWorld _ _).
  assert (Hc : jwt_claims token =
               Some (Payload.mk (Some new_id) (Some (User.id u)) (Some (User.email u))
                       (Some (now + seven_days)) (Some now) None)).
  { apply jwt_claims_encode. }
  assert (Hv : jwt_verify SECRET_KEY token = true) by apply Hverify.
  split.
  - intros t request' Hh Ht.
    rewrite (authenticate_bearer_eq t request' token w' Hh), Hc, Hv.
    cbn [Payload.session_id Payload.exp Payload.jti].
    rewrite (truthy_str_Some new_id Hne). simpl.
    assert ((now + seven_days <=? t) = false) as -> by lia.
    rewrite Huuid, lookup_insert_eq.
    change (with_sessions (db w) (<[new_id:=session]> (sessions (db w)))) with (db w').
    assert (session_usable (db w') t session = Some u) as ->; [|done].
    unfold session_usable.
    change (find_user (db w') (UserSession.user session))
      with (find_user (db w) (User.id u)).
    rewrite Hid, Hact. unfold session. simpl.
    by assert ((t <? now + seven_days) = true) as -> by lia.
  - intros t request' Hh Ht.
    rewrite (authenticate_bearer_eq t request' token w' Hh), Hc, Hv. simpl.
    rewrite ?andb_false_r. simpl.
    by assert ((now + seven_days <=? t) = true) as -> by lia.
Qed.

(** *** The ledger under [revoke] *)



(** Once [revoke] has put a token's [jti] into a ledger that did not
    hold it, a request bearing the token is refused as revoked at every
    time before the token's [exp], and as expired from [exp] on: the
    ledger row is in force exactly as long as the token would have been
    valid. The token may already be past its [exp] when it is revoked;
    its [exp] is one [datetime] can hold. *)
Theorem revoked_token_is_refused now token p jti exp request w :
  jwt_claims token = Some p →
  jwt_verify SECRET_KEY token = true →
  Payload.jti p = Some jti → jti ≠ "" →
  Payload.exp p = Some exp → exp ≠ 0 →
  datetime_representable exp = true →
  entries_for jti (revoked_tokens (db w)) = 0%nat →
  Authorization request = Some ("Bearer " +:+ token) →
  let w1 := (revoke now token w).2 in
  revoked_tokens (db w1) = (revoked_tokens (db w) ++ [RevokedToken.mk jti now exp])%list
  ∧ (∀ t, t < exp →
       authenticate t request w1 = (inl (AuthenticationFailed "Token revoked"), w1))
  ∧ (∀ t, exp ≤ t →
       authenticate t request w1 = (inl (AuthenticationFailed "Token expired"), w1)).
Proof.
  intros Hp Hv Hj Hne He Hnz Hrep Hfresh Hh w1.
  assert (Hledger : revoked_tokens (db w1)
            = (revoked_tokens (db w) ++ [RevokedToken.mk jti now exp])%list).
  { unfold w1. rewrite revoke_eq, Hp, Hv, Hj, He.
    rewrite truthy_str_Some, truthy_num_Some by done. simpl. rewrite Hrep.
    rewrite RevokedToken_get_or_create_eq. simpl.
    apply existsb_entries_for_false in Hfresh. by rewrite Hfresh. }
  assert (Hforce : ∀ t, RevokedToken_in_force (db w1) t jti = (t <? exp)).
  { intros t. unfold RevokedToken_in_force. rewrite Hledger, existsb_app. simpl.
    rewrite String.eqb_refl, orb_false_r. simpl.
    assert (existsb (λ r, String.eqb (RevokedToken.jti r) jti
                          && (t <? RevokedToken.expires_at r))
              (revoked_tokens (db w)) = false) as ->; [|done].
    apply not_true_iff_false. rewrite existsb_exists.
    intros (r & Hin & Hr). apply andb_true_iff in Hr as [Hr _].
    apply existsb_entries_for_false in Hfresh.
    apply not_true_iff_false in Hfresh. apply Hfresh.
    apply existsb_exists. by exists r. }
  split; [done|]. split.
  - intros t Ht. rewrite (authenticate_bearer_eq t request token w1 Hh), Hp, Hv, Hj.
    rewrite (truthy_str_Some jti Hne). simpl. rewrite Hforce.
    by assert ((t <? exp) = true) as -> by lia.
  - intros t Ht. rewrite (authenticate_bearer_eq t request token w1 Hh), Hp, Hv, Hj, He.
    rewrite (truthy_str_Some jti Hne). simpl. rewrite Hforce.
    assert ((t <? exp) = false) as -> by lia.
    by assert ((exp <=? t) = true) as -> by lia.
Qed.

(** *** Requests through a view *)

(** On a view whose first permission class is not [AllowAny], a request
    for which no principal is resolved is answered 401 whatever the
    handler is, with one exception: a validly signed token whose
    [session_id] denotes no UUID makes the session query raise Django's
    [ValidationError], which nothing catches, and the request ends with
    that error. Either way the handler does not run, and the world is
    as it was. *)
Theorem unauthenticated_request_is_401 view handler now request w p ps :
  permission_classes view = p :: ps →
  p ≠ AllowAny →
  (∀ u token w', authenticate now request w ≠ (inr (Some (u, token)), w')) →
  (∃ detail,
     dispatch view handler now request w = (inr (mkResponse 401 (Errors detail)), w))
  ∨ (dispatch view handler now request w = (inl DjangoValidationError, w)
     ∧ authenticate now request w = (inl DjangoValidationError, w)
     ∧ ∃ token q text,
         token = slice_from 7 (default "" (Authorization request))
         ∧ jwt_claims token = Some q
         ∧ jwt_verify SECRET_KEY token = true
         ∧ Payload.session_id q = Some text
         ∧ UUIDField_to_python text = None).
Proof.
  intros Hperms Hp Hanon.
  destruct (authenticate_cases now request w)
    as [[E _] | [(detail & E & _)
       | [(token & q & text & Ht & Hq & Hv & Htext & Hnone & E)
         | (token & q & text & sid & s & u & _ & _ & _ & _ & _ & _ & _ & E)]]].
  - left. unfold dispatch, try_except, bind at 1.
    rewrite perform_authentication_default, E, Hperms.
    destruct p; [done| | |]; simpl; by eexists.
  - left. rewrite (dispatch_authentication_fails _ _ _ _ _ _ _ E). simpl. by eexists.
  - right. rewrite (dispatch_authentication_fails _ _ _ _ _ _ _ E). simpl.
    split; [done|]. split; [done|]. by exists token, q, text.
  - by apply Hanon in E.
Qed.

Lemma logout_handler_sessions now request u w resp w' :
  user request = Some u →
  logout_handler now request w = (inr resp, w') →
  sessions (db w') = deactivate_if_of (User.id u) <$> sessions (db w).
Proof.
  intros Hu E. unfold logout_handler in E. rewrite Hu in E.
  set (first := if truthy_str (auth request) then revoke now (default "" (auth request))
                else ret tt) in E.
  assert (∃ w1, first w = (inr tt, w1) ∧ sessions (db w1) = sessions (db w))
    as (w1 & E1 & Hs1).
  { unfold bind at 1 in E. destruct (first w) as [[e|[]] w1] eqn:E1; [done|].
    exists w1. split; [done|]. unfold first in E1.
    destruct (truthy_str (auth request)).
    - pose proof (revoke_frame now (default "" (auth request)) w) as (Hs & _).
      by rewrite E1 in Hs.
    - by inversion E1. }
  unfold bind at 1 in E. rewrite E1 in E.
  unfold bind, deactivate_sessions, bind, get_db, put_db, ret in E.
  inversion E; subst resp w'. simpl. by rewrite Hs1.
Qed.

(** After a logout that succeeded, the credentials it was made with are
    dead: any later request carrying the same [Authorization] header, to
    any view whose first permission class is not [AllowAny], is answered
    401 and changes nothing. The logout request is a POST; the endpoint
    takes no other method. *)
Theorem replay_after_logout_is_401 now request w resp w' :
  method request = "POST" →
  logout now request w = (inr resp, w') →
  status_code resp = 200 →
  ∀ view handler now' request' p ps,
    Authorization request' = Authorization request →
    permission_classes view = p :: ps →
    p ≠ AllowAny →
    ∃ detail,
      dispatch view handler now' request' w' = (inr (mkResponse 401 (Errors detail)), w').
Proof.
  intros Hpost E Hok view handler now' request' q qs Hsame Hperms Hq.
  assert (Hdead : (authenticate now' request' w').1 = inr None
                  ∨ ∃ detail, (authenticate now' request' w').1
                              = inl (AuthenticationFailed detail)); last first.
  { unfold dispatch, try_except, bind at 1.
    rewrite perform_authentication_default.
    destruct (authenticate_cases now' request' w')
      as [[E2 _] | [(detail & E2 & _)
         | [(?&?&?&_&_&_&_&_&E2) | (?&?&?&?&?&?&_&_&_&_&_&_&_&E2)]]].
    - rewrite E2, Hperms. destruct q; [done| | |]; simpl; by eexists.
    - rewrite E2. simpl. by eexists.
    - rewrite E2 in Hdead. by destruct Hdead as [? | [? ?]].
    - rewrite E2 in Hdead. by destruct Hdead as [? | [? ?]]. }
  unfold logout, dispatch, try_except, bind at 1 in E.
  rewrite perform_authentication_default in E.
  destruct (authenticate_cases now request w)
    as [[E' _] | [(detail & E' & _)
       | [(token & p & text & _ & _ & _ & _ & _ & E')
         | (token & p & text & sid & s & u & Ht & Hp & _ & Htext & Hsid & Hs & Hus & E')]]];
    rewrite E' in E.
  { simpl in E. inversion E; subst. done. }
  { simpl in E. inversion E; subst. done. }
  { simpl in E. done. }
  set (w1 := mkWorld (with_sessions (db w) (<[sid := touch now s]> (sessions (db w))))
               (rule_lookups w)) in *.
  change (check_permissions (permission_classes logout_view)
            (set_user_auth request (Some u) (Some token)) logout_view)
    with (ret (A:=Request) (set_user_auth request (Some u) (Some token))) in E.
  rewrite bind_ret_l, api_view_POST in E by done.
  destruct (logout_handler now (set_user_auth request (Some u) (Some token)) w1)
    as [[e|resp0] w0] eqn:Eh.
  { destruct e; simpl in E; try done; inversion E; subst; done. }
  inversion E; subst resp0 w0.
  pose proof (logout_handler_sessions now
                (set_user_auth request (Some u) (Some token)) u w1 resp w' eq_refl Eh)
    as Hsess.
  destruct (authenticate_cases now' request' w')
    as [[E2 _] | [(detail & E2 & _)
       | [(token2 & p2 & text2 & Ht2 & Hp2 & _ & Htext2 & Hnone2 & E2)
         | (token2 & p2 & text2 & sid2 & s2 & u2 & Ht2 & Hp2 & _ & Htext2 & Hsid2
            & Hs2 & Hus2 & E2)]]];
    rewrite E2; simpl; [by left | by right; eexists | |].
  - rewrite Hsame, <- Ht in Ht2. subst token2.
    rewrite Hp in Hp2. injection Hp2 as <-.
    rewrite Htext in Htext2. injection Htext2 as <-. congruence.
  - rewrite Hsame, <- Ht in Ht2. subst token2.
    rewrite Hp in Hp2. injection Hp2 as <-.
    rewrite Htext in Htext2. injection Htext2 as <-.
    rewrite Hsid in Hsid2. injection Hsid2 as <-.
    rewrite Hsess in Hs2. simpl in Hs2.
    rewrite lookup_fmap, lookup_insert_eq in Hs2. simpl in Hs2. injection Hs2 as <-.
    apply session_usable_Some in Hus as (_ & _ & _ & Hid).
    apply session_usable_Some in Hus2 as (Hact & _).
    destruct (deactivate_if_of_spec (User.id u) (touch now s)) as (Hd & _ & _).
    rewrite Hd in Hact; [done|]. simpl. done.
Qed.

Local Abbreviation orders := (orders SECRET_KEY jwt_claims jwt_verify ordered UUIDField_to_python).

Lemma decision_of_loop_outcome d request request' res action roles :
  must_filter_by_owner request = false →
  must_filter_by_owner request' = false →
  decision_of (loop_outcome d request res action roles)
  = decision_of (loop_outcome d request' res action roles).
Proof.
  intros Hf Hf'.
  destruct (loop_outcome_cases d request res action roles)
    as [[Hfind ->] | (ur & rule & Hfind & Hrule & _ & ->)];
  destruct (loop_outcome_cases d request' res action roles)
    as [[Hfind' ->] | (ur' & rule' & Hfind' & Hrule' & _ & ->)];
    rewrite Hfind in Hfind'; try done.
  injection Hfind' as <-. rewrite Hrule in Hrule'. injection Hrule' as <-.
  destruct (AccessRoleRule.has_global_permission rule action); unfold decision_of; simpl;
    [by rewrite Hf, Hf'|done].
Qed.

Lemma check_permissions_guarded request view u w :
  user request = Some u →
  check_permissions [CustomIsAuthenticated; HasPermission] request view w
  = match HasPermission_has_permission request view w with
    | (inr r, w2) => if r.1 then (inr r.2, w2) else permission_denied r.2 w2
    | (inl e, w2) => (inl e, w2)
    end.
Proof.
  intros Hu. simpl. unfold CustomIsAuthenticated_has_permission. rewrite Hu. simpl.
  unfold bind, ret. cbn [fst snd].
  destruct (HasPermission_has_permission request view w) as [[e|r] w2]; [done|].
  by destruct r.1.
Qed.

(** A GET through a view guarded by [CustomIsAuthenticated] and
    [HasPermission] whose handler is the mock listing. *)
Lemma listing_get view handler res now request u token w w1 :
  permission_classes view = [CustomIsAuthenticated; HasPermission] →
  view_resource_name view = Some res →
  (∀ request', method request' = "GET" → handler request' = MockProductView_get request') →
  method request = "GET" →
  must_filter_by_owner request = false →
  authenticate now request w = (inr (Some (u, token)), w1) →
  ∃ decision resp w',
    (decide (Some u) "GET" view w).1 = inr decision
    ∧ dispatch view handler now request w = (inr resp, w')
    ∧ db w' = db w1
    ∧ match decision with
      | Denied => status_code resp = 403
      | GrantedGlobal =>
          resp = mkResponse 200
                   (Objects [(1, Some 999); (2, Some 998); (3, Some (User.id u))])
      | GrantedOwnOnly =>
          resp = mkResponse 200
                   (Objects (List.filter (λ o, bool_decide (o.2 = Some (User.id u)))
                               [(1, Some 999); (2, Some 998); (3, Some (User.id u))]))
      end.
Proof.
  intros Hperms Hres Hhandler Hm Hflag E.
  set (fresh := mkRequest "GET" None (Some u) None false).
  set (request1 := set_user_auth request (Some u) (Some token)).
  assert (Hdb : user_roles (db w1) = user_roles (db w)
                ∧ access_rules (db w1) = access_rules (db w)).
  { destruct (authenticate_cases now request w)
      as [[E' _] | [(detail & E' & _)
         | [(?&?&?&_&_&_&_&_&E') | (?&?&?&?&?&?&_&_&_&_&_&_&_&E')]]];
      rewrite E' in E; [done|done|done|]. by injection E as _ _ <-. }
  destruct Hdb as [Hroles Hrules].
  assert (Hall : user_roles_all (db w1) u = user_roles_all (db w) u).
  { unfold user_roles_all. by rewrite Hroles. }
  assert (Hout : ∀ req roles, loop_outcome (db w1) req res "read" roles
                              = loop_outcome (db w) req res "read" roles).
  { intros req roles. unfold loop_outcome, role_grants. by rewrite Hrules. }
  destruct (HasPermission_has_permission_exact fresh view u res w eq_refl Hres)
    as (new0 & E0 & _).
  destruct (HasPermission_has_permission_exact request1 view u res w1 eq_refl Hres)
    as (new1 & E1 & _).
  assert (Ha : action_of request1 = "read").
  { unfold action_of, request1. simpl. by rewrite Hm. }
  change (action_of fresh) with "read" in E0. rewrite Ha, Hall, Hout in E1.
  exists (decision_of (loop_outcome (db w) fresh res "read" (user_roles_all (db w) u))).
  assert (Hdec : (decide (Some u) "GET" view w).1
            = inr (decision_of (loop_outcome (db w) fresh res "read"
                                  (user_roles_all (db w) u)))).
  { unfold decide, bind. fold fresh. by rewrite E0. }
  rewrite Hdec. clear Hdec E0.
  unfold dispatch, try_except, bind at 1. rewrite perform_authentication_default, E, Hperms.
  fold request1. unfold bind at 1.
  rewrite (check_permissions_guarded request1 view u w1 eq_refl), E1.
  rewrite (decision_of_loop_outcome (db w) fresh request1 res "read"
             (user_roles_all (db w) u) eq_refl Hflag).
  destruct (loop_outcome_cases (db w) request1 res "read" (user_roles_all (db w) u))
    as [[_ ->] | (ur & rule & _ & _ & _ & ->)].
  - simpl. eexists _, _. by repeat split.
  - destruct (AccessRoleRule.has_global_permission rule "read"); simpl.
    + rewrite Hhandler by (simpl; done).
      unfold decision_of, MockProductView_get, ret. simpl. rewrite Hflag.
      eexists _, _. by repeat split.
    + rewrite Hhandler by (simpl; done).
      unfold decision_of, MockProductView_get, ret. simpl.
      eexists _, _. by repeat split.
Qed.

Lemma own_listing uid :
  uid ≠ 999 → uid ≠ 998 →
  List.filter (λ o : Z * option Z, bool_decide (o.2 = Some uid))
    [(1, Some 999); (2, Some 998); (3, Some uid)]
  = [(3, Some uid)].
Proof.
  intros H1 H2. simpl. repeat case_bool_decide; congruence.
Qed.

(** A GET of an authenticated principal on the products and on the
    orders endpoint follows the permission decision: 403 when denied,
    200 with all three mock objects when granted globally, and 200 with
    the objects whose owner is the principal when granted for own
    objects only. That is the one object made for the principal, unless
    the principal's id is 999 or 998, the owners of the other two. *)
Theorem mock_listing_follows_decision now request u token w w1 :
  method request = "GET" →
  must_filter_by_owner request = false →
  authenticate now request w = (inr (Some (u, token)), w1) →
  let all := [(1, Some 999); (2, Some 998); (3, Some (User.id u))] in
  let own := List.filter (λ o : Z * option Z, bool_decide (o.2 = Some (User.id u))) all in
  (User.id u ≠ 999 → User.id u ≠ 998 → own = [(3, Some (User.id u))])
  ∧ (∃ decision resp w',
       (decide (Some u) "GET" MockProductView w).1 = inr decision
       ∧ products now request w = (inr resp, w')
       ∧ db w' = db w1
       ∧ match decision with
         | Denied => status_code resp = 403
         | GrantedGlobal => resp = mkResponse 200 (Objects all)
         | GrantedOwnOnly => resp = mkResponse 200 (Objects own)
         end)
  ∧ (∃ decision resp w',
       (decide (Some u) "GET" MockOrderView w).1 = inr decision
       ∧ orders now request w = (inr resp, w')
       ∧ db w' = db w1
       ∧ match decision with
         | Denied => status_code resp = 403
         | GrantedGlobal => resp = mkResponse 200 (Objects all)
         | GrantedOwnOnly => resp = mkResponse 200 (Objects own)
         end).
Proof.
  intros Hm Hflag E all own. split; [apply own_listing|]. split.
  - apply (listing_get MockProductView MockProductView_handler "products"
             now request u token w w1); try done.
    intros request' Hm'. unfold MockProductView_handler. by rewrite Hm'.
  - apply (listing_get MockOrderView MockOrderView_handler "orders"
             now request u token w w1); try done.
    intros request' Hm'. unfold MockOrderView_handler. by rewrite Hm'.
Qed.

(** *** Soft deletion *)

Lemma find_replace {A} (P Q : A → bool) (x' : A) l x :
  List.find P l = Some x → Q x = true → P x' = true →
  List.find P (List.map (λ r, if Q r then x' else r) l) = Some x'.
Proof.
  intros Hfind Hq Hp'. induction l as [|a l IH]; simpl in *; [done|].
  destruct (Q a) eqn:Hqa.
  - by rewrite Hp'.
  - destruct (P a) eqn:Hpa; [|by apply IH].
    injection Hfind as ->. congruence.
Qed.

Lemma soft_delete_eq u w :
  soft_delete u w =
  (inr (User.mk (User.id u) (User.email u) (User.password u) false),
   mkWorld
     (with_users
        (with_sessions (db w) (deactivate_if_of (User.id u) <$> sessions (db w)))
        (if existsb (λ r, User.id r =? User.id u) (users (db w))
         then List.map (λ r, if User.id r =? User.id u
                             then User.mk (User.id u) (User.email u) (User.password u) false
                             else r) (users (db w))
         else users (db w) ++ [User.mk (User.id u) (User.email u) (User.password u) false]))
     (rule_lookups w)).
Proof.
  unfold soft_delete, deactivate_sessions, User_save, bind, get_db, put_db, ret. simpl.
  by destruct (existsb _ (users (db w))).
Qed.

(** Soft deletion shuts the account out: afterwards every row of the
    user table with the user's id is inactive and every session of the
    user is inactive, so no token resolves to the user; the sessions and
    rows of other users are kept as they were; and a login request that
    reaches the credential check with the user's email (a POST without
    a bearer token whose two fields pass the field validation) is
    refused with the detail for a deactivated account, whatever the
    password. *)
Theorem soft_delete_cascade u w :
  ∃ u' w',
    soft_delete u w = (inr u', w')
    ∧ User.is_active u' = false ∧ User.id u' = User.id u
    ∧ (∀ r, r ∈ users (db w') → User.id r = User.id u → User.is_active r = false)
    ∧ (∀ r, r ∈ users (db w) → User.id r ≠ User.id u → r ∈ users (db w'))
    ∧ (∀ sid s, sessions (db w') !! sid = Some s →
                UserSession.user s = User.id u → UserSession.is_active s = false)
    ∧ (∀ sid s, sessions (db w) !! sid = Some s →
                UserSession.user s ≠ User.id u → sessions (db w') !! sid = Some s)
    ∧ (∀ now request v token w'',
         authenticate now request w' = (inr (Some (v, token)), w'') →
         User.id v ≠ User.id u)
    ∧ ((∃ u0, List.find (λ r, String.eqb (User.email r) (User.email u)) (users (db w))
              = Some u0 ∧ User.id u0 = User.id u) →
       ∀ now new_id request email_raw password_raw password,
         method request = "POST" →
         authenticate now request w' = (inr None, w') →
         EmailField_run_validation email_raw = Valid (User.email u) →
         CharField_run_validation password_raw = Valid password →
         login now new_id email_raw password_raw request w'
         = (inr (mkResponse 401 (Errors "Аккаунт деактивирован")), w')).
Proof.
  set (u' := User.mk (User.id u) (User.email u) (User.password u) false).
  eexists _, _. split; [apply soft_delete_eq|]. fold u'.
  set (w' := mkWorld _ _).
  assert (Hsess : ∀ sid s, sessions (db w') !! sid = Some s →
            UserSession.user s = User.id u → UserSession.is_active s = false).
  { intros sid s. simpl. rewrite lookup_fmap.
    destruct (sessions (db w) !! sid) as [s0|]; simpl; [|done].
    intros [= <-] Hus.
    destruct (deactivate_if_of_spec (User.id u) s0) as (H1 & _ & H3).
    apply H1. by rewrite <- H3. }
  split; [done|]. split; [done|]. split; [|split; [|split; [exact Hsess|split; [|split]]]].
  - intros r Hr Hid. simpl in Hr.
    destruct (existsb _ (users (db w))) eqn:Hex.
    + apply list_elem_of_fmap in Hr as (r0 & -> & _).
      destruct (User.id r0 =? User.id u) eqn:Hr0; [done|].
      apply Z.eqb_neq in Hr0. done.
    + apply elem_of_app in Hr as [Hr | Hr].
      * apply not_true_iff_false in Hex. destruct Hex. apply existsb_exists.
        exists r. split; [by apply list_elem_of_In|]. by apply Z.eqb_eq.
      * by apply list_elem_of_singleton in Hr as ->.
  - intros r Hr Hid. simpl. destruct (existsb _ (users (db w))).
    + apply list_elem_of_fmap. exists r. split; [|done].
      by assert ((User.id r =? User.id u) = false) as -> by lia.
    + apply elem_of_app. by left.
  - intros sid s Hs Hne. simpl. rewrite lookup_fmap, Hs. simpl. f_equal.
    by apply deactivate_if_of_spec.
  - intros now request v token w'' E Hid.
    destruct (authenticate_cases now request w')
      as [[E' _] | [(detail & E' & _)
         | [(t & p & text & _ & _ & _ & _ & _ & E')
           | (t & p & text & sid & s & v0 & _ & _ & _ & _ & _ & Hs & Hus & E')]]];
      rewrite E' in E; [done|done|done|].
    injection E as -> _ _.
    apply session_usable_Some in Hus as (Hact & _ & _ & Hid').
    rewrite (Hsess sid s Hs) in Hact; [done|]. congruence.
  - intros (u0 & Hfind & Hid0) now new_id request email_raw password_raw password
      Hpost Hanon He Hp.
    assert (Hex : existsb (λ r, User.id r =? User.id u) (users (db w)) = true).
    { apply existsb_exists. exists u0. split; [|by apply Z.eqb_eq].
      by apply find_some in Hfind as [? _]. }
    assert (Hfind' : List.find (λ r, String.eqb (User.email r) (User.email u))
                       (users (db w')) = Some u').
    { simpl. rewrite Hex.
      apply (find_replace _ (λ r, User.id r =? User.id u) u' _ u0 Hfind).
      - by apply Z.eqb_eq.
      - simpl. apply String.eqb_refl. }
    rewrite (login_validated now new_id request email_raw password_raw (User.email u)
               password w') by done.
    rewrite UserLoginSerializer_validate_eq. fold w'. by rewrite Hfind'.
Qed.

(** *** The middleware *)

Local Abbreviation middleware_resolve :=
  (middleware_resolve SECRET_KEY jwt_claims jwt_verify UUIDField_to_python).
Local Abbreviation CustomAuthMiddleware_call :=
  (CustomAuthMiddleware_call SECRET_KEY jwt_claims jwt_verify UUIDField_to_python).

(** The guarded [try] block of the middleware, flattened. *)
Lemma middleware_resolve_eq now token request0 w :
  try_except (middleware_resolve now token request0)
    (λ e, if is_ExpiredSignatureError e || is_InvalidTokenError e || is_DoesNotExist e
          then ret request0 else raise e) w
  = if negb (count_char "."%char token =? 2)%nat then (inr request0, w)
    else if match jwt_claims token with
            | Some p =>
                jwt_verify SECRET_KEY token && truthy_str (Payload.jti p)
                && RevokedToken_in_force (db w) now (default "" (Payload.jti p))
            | None => false
            end
    then (inr request0, w)
    else
      match jwt_claims token with
      | None => (inr request0, w)
      | Some p =>
          if negb (jwt_verify SECRET_KEY token) then (inr request0, w)
          else if match Payload.exp p with Some e => e <=? now | None => false end
          then (inr request0, w)
          else if negb (truthy_str (Payload.session_id p)) then (inr request0, w)
          else
            match UUIDField_to_python (default "" (Payload.session_id p)) with
            | None => (inl DjangoValidationError, w)
            | Some sid =>
                match sessions (db w) !! sid with
                | Some s =>
                    match session_usable (db w) now s with
                    | Some u =>
                        (inr (set_user_auth request0 (Some u) (auth request0)),
                         mkWorld (with_sessions (db w)
                                    (<[sid := touch now s]> (sessions (db w))))
                                 (rule_lookups w))
                    | None => (inr request0, w)
                    end
                | None => (inr request0, w)
                end
            end
      end.
Proof.
  unfold middleware_resolve, try_except.
  destruct (count_char "."%char token =? 2)%nat; simpl; [|done].
  unfold bind at 1.
  change (Middleware_is_token_revoked now token w) with (_is_token_revoked now token w).
  rewrite _is_token_revoked_eq.
  match goal with |- context [negb ?b] => destruct b end; simpl; [done|].
  unfold bind at 1, jwt_decode.
  destruct (jwt_claims token) as [p|]; [|done].
  destruct (jwt_verify SECRET_KEY token); simpl; [|done].
  match goal with |- context [if ?b then raise ExpiredSignatureError else _] =>
    destruct b end; [done|].
  simpl. destruct (truthy_str (Payload.session_id p)); simpl; [|done].
  unfold bind at 1. rewrite UserSession_objects_get_eq.
  destruct (UUIDField_to_python _) as [sid|]; [|done].
  destruct (sessions (db w) !! _) as [s|]; [|done].
  by destruct (session_usable (db w) now s).
Qed.

(** The middleware never answers a request itself, and it fails in one
    case only: on a path it guards, for a token with two dots whose
    [session_id] denotes no UUID, Django's [ValidationError] passes its
    [except] clause, the next layer is not called and nothing is
    written; the authentication class raises the same error for that
    token. In every other case it hands the request on to the next
    layer, unchanged on the admin and the public paths, and otherwise
    with the user it resolved or with none. It attaches a user exactly
    when the token has two dots and the authentication class would
    resolve it, to the same user and with the same effect on the world;
    otherwise it attaches no user and writes nothing. *)
Theorem middleware_agrees_with_authentication get_response now path request w :
  let excluded := startswith "/admin/" path || bool_decide (path ∈ public_paths) in
  let token := slice_from 7 (default "" (Authorization request)) in
  (CustomAuthMiddleware_call get_response now path request w = (inl DjangoValidationError, w)
   ∧ excluded = false
   ∧ authenticate now request w = (inl DjangoValidationError, w)
   ∧ count_char "."%char token = 2%nat)
  ∨ ∃ request' w1,
      CustomAuthMiddleware_call get_response now path request w = get_response request' w1
      ∧ method request' = method request
      ∧ Authorization request' = Authorization request
      ∧ auth request' = auth request
      ∧ must_filter_by_owner request' = must_filter_by_owner request
      ∧ (excluded = true → request' = request ∧ w1 = w)
      ∧ (excluded = false →
         match user request' with
         | Some u =>
             ∃ token, authenticate now request w = (inr (Some (u, token)), w1)
                      ∧ count_char "."%char token = 2%nat
         | None =>
             w1 = w
             ∧ ∀ r w2, authenticate now request w = (r, w2) →
                       (∃ u token0, r = inr (Some (u, token0))) ∨ r = inl DjangoValidationError →
                       count_char "."%char token ≠ 2%nat
         end).
Proof.
  intros excluded token. unfold CustomAuthMiddleware_call. fold excluded.
  destruct excluded eqn:Hex.
  { right. exists request, w. by repeat split. }
  set (request0 := set_user_auth request None (auth request)).
  assert (Hnone : ∀ P : Prop, P →
    ∃ request' w1,
      get_response request0 w = get_response request' w1
      ∧ method request' = method request
      ∧ Authorization request' = Authorization request
      ∧ auth request' = auth request
      ∧ must_filter_by_owner request' = must_filter_by_owner request
      ∧ (false = true → request' = request ∧ w1 = w)
      ∧ (false = false →
         match user request' with
         | Some u =>
             ∃ token, authenticate now request w = (inr (Some (u, token)), w1)
                      ∧ count_char "."%char token = 2%nat
         | None => w1 = w ∧ P
         end)).
  { intros P HP. exists request0, w. by repeat split. }
  assert (Hdots_ne : (count_char "."%char token ≠ 2)%nat →
    ∀ r w2, authenticate now request w = (r, w2) →
            (∃ u token0, r = inr (Some (u, token0))) ∨ r = inl DjangoValidationError →
            count_char "."%char token ≠ 2%nat).
  { intros Hne r w2 _ _. exact Hne. }
  destruct (truthy_str (Authorization request)
            && startswith "Bearer " (default "" (Authorization request))) eqn:Hguard.
  - fold token.
    change (default "" (Some token)) with token.
    change (truthy_str (Some token)) with (negb (String.eqb token "")).
    assert (Hheader : Authorization request = Some ("Bearer " +:+ token)).
    { apply andb_true_iff in Hguard as [Htr Hpre].
      destruct (Authorization request) as [h|]; [|done]. simpl in Hpre.
      f_equal. by apply (prefix_slice "Bearer " h). }
    pose proof (authenticate_bearer_eq now request token w Hheader) as Hauth.
    destruct (negb (String.eqb token "")) eqn:Hempty.
    + unfold bind. rewrite middleware_resolve_eq.
      destruct (count_char "."%char token =? 2)%nat eqn:Hdots; simpl.
      * apply Nat.eqb_eq in Hdots.
        assert (Hfail : ∀ detail,
          authenticate now request w = (inl (AuthenticationFailed detail), w) →
          ∀ r w2, authenticate now request w = (r, w2) →
                  (∃ u token0, r = inr (Some (u, token0))) ∨ r = inl DjangoValidationError →
                  count_char "."%char token ≠ 2%nat).
        { intros detail -> r w2 [= <- _] [(? & ? & ?) | ?]; done. }
        destruct (match jwt_claims token with Some _ => _ | None => false end);
          [right; eapply Hnone, Hfail, Hauth|].
        destruct (jwt_claims token) as [p|]; [|right; eapply Hnone, Hfail, Hauth].
        destruct (negb (jwt_verify SECRET_KEY token)); [right; eapply Hnone, Hfail, Hauth|].
        destruct (match Payload.exp p with Some _ => _ | None => false end);
          [right; eapply Hnone, Hfail, Hauth|].
        destruct (negb (truthy_str (Payload.session_id p)));
          [right; eapply Hnone, Hfail, Hauth|].
        destruct (UUIDField_to_python _) as [sid|]; [|by left].
        destruct (sessions (db w) !! _) as [s|]; [|right; eapply Hnone, Hfail, Hauth].
        destruct (session_usable (db w) now s) as [u|];
          [|right; eapply Hnone, Hfail, Hauth].
        right. eexists _, _. split; [done|]. simpl. repeat split; try done.
        intros _. by exists token.
      * apply Nat.eqb_neq in Hdots. right. by apply Hnone, Hdots_ne.
    + unfold bind, ret. right. apply Hnone, Hdots_ne.
      apply negb_false_iff, String.eqb_eq in Hempty. by rewrite Hempty.
  - change (truthy_str None) with false. unfold bind, ret. right. apply Hnone.
    intros r w2 E Hr. unfold authenticate in E.
    rewrite <- negb_andb, Hguard in E. simpl in E.
    injection E as <- _. by destruct Hr as [(? & ? & ?) | ?].
Qed.

(** *** Assigning roles *)

Local Abbreviation UserRoleManagementView_post := (UserRoleManagementView_post int_fits).
Local Abbreviation AutoField_get_prep_value := (AutoField_get_prep_value int_of_text).
Local Abbreviation UserRoleManagementView_post_data :=
  (UserRoleManagementView_post_data int_fits int_of_text).

Lemma assignments_of_app user role (l l' : list UserRole.t) :
  assignments_of user role (l ++ l')%list
  = (assignments_of user role l + assignments_of user role l')%nat.
Proof. unfold assignments_of. by rewrite List.filter_app, length_app. Qed.

Lemma existsb_assignments_of user role l :
  existsb (λ r, (UserRole.user r =? user) && (UserRole.role r =? role)) l = true
  ↔ (0 < assignments_of user role l)%nat.
Proof.
  unfold assignments_of. induction l as [|r l IH]; simpl; [split; [done|lia]|].
  destruct ((UserRole.user r =? user) && (UserRole.role r =? role)); simpl; [|done].
  split; [lia|done].
Qed.

Lemma existsb_assignments_of_false user role l :
  existsb (λ r, (UserRole.user r =? user) && (UserRole.role r =? role)) l = false
  ↔ assignments_of user role l = 0%nat.
Proof. rewrite <- not_true_iff_false, existsb_assignments_of. lia. Qed.

Lemma UserRole_get_or_create_eq now user role w :
  UserRole_get_or_create now user role w =
  (inr tt,
   if existsb (λ r, (UserRole.user r =? user) && (UserRole.role r =? role))
        (user_roles (db w))
   then w
   else mkWorld (with_user_roles (db w) (user_roles (db w) ++ [UserRole.mk user role now]))
                (rule_lookups w)).
Proof.
  unfold UserRole_get_or_create, bind, get_db.
  by destruct (existsb _ (user_roles (db w))).
Qed.

Lemma world_app_nil w :
  mkWorld (with_user_roles (db w) (user_roles (db w) ++ [])) (rule_lookups w) = w.
Proof. destruct w as [[] ?]. unfold with_user_roles. simpl. by rewrite app_nil_r. Qed.

(** The assignment, once the user id is an integer or absent. When the
    id names no active user it writes nothing, and answers 404 unless
    the id is one the database cannot take: then the user query raises
    [OverflowError]. It answers 404 and writes nothing, too, when the
    role name names no role. Otherwise it answers 200 and the user
    holds the role afterwards. *)
Lemma UserRoleManagementView_post_outcome roles now user_id role_name w :
  let no_user :=
    user_id ≫= (λ i, List.find (λ u, (User.id u =? i) && User.is_active u)
                       (users (db w))) = None in
  ∃ r added,
    UserRoleManagementView_post roles now user_id role_name w
    = (r, mkWorld (with_user_roles (db w) (user_roles (db w) ++ added)) (rule_lookups w))
    ∧ (length added ≤ 1)%nat
    ∧ (r = inl OverflowError ∧ added = [] ∧ no_user
         ∧ (∃ i, user_id = Some i ∧ int_fits i = false)
       ∨ (∃ resp, r = inr resp ∧ status_code resp = 404 ∧ added = []
            ∧ (no_user ∧ (∀ i, user_id = Some i → int_fits i = true)
               ∨ role_name ≫= (λ n, List.find (λ r, String.eqb (Role.name r) n) roles)
                 = None))
       ∨ (∃ resp, r = inr resp ∧ status_code resp = 200
            ∧ ∃ u role,
                user_id = Some (User.id u) ∧ u ∈ users (db w) ∧ User.is_active u = true
                ∧ role_name = Some (Role.name role) ∧ role ∈ roles
                ∧ (0 < assignments_of (User.id u) (Role.id role)
                         (user_roles (db w) ++ added)%list)%nat
                ∧ (∀ ur, ur ∈ added →
                     ur = UserRole.mk (User.id u) (Role.id role) now
                     ∧ assignments_of (User.id u) (Role.id role) (user_roles (db w))
                       = 0%nat)))
    ∧ ((∀ a b, assignments_of a b (user_roles (db w)) ≤ 1)%nat →
       ∀ a b, (assignments_of a b (user_roles (db w) ++ added)%list ≤ 1)%nat)
    ∧ (∀ now',
         UserRoleManagementView_post roles now' user_id role_name
           (mkWorld (with_user_roles (db w) (user_roles (db w) ++ added)) (rule_lookups w))
         = (r,
            mkWorld (with_user_roles (db w) (user_roles (db w) ++ added)) (rule_lookups w))).
Proof.
  intros no_user. unfold no_user.
  destruct (user_id ≫= (λ i, List.find (λ u, (User.id u =? i) && User.is_active u)
                               (users (db w)))) as [u|] eqn:Hu.
  2: { destruct (default true (int_fits <$> user_id)) eqn:Hfits.
       - exists (inr (mkResponse 404 (Errors "Пользователь не найден"))), [].
         rewrite world_app_nil.
         assert (∀ now', UserRoleManagementView_post roles now' user_id role_name w
                   = (inr (mkResponse 404 (Errors "Пользователь не найден")), w)) as Hcall.
         { intros now'. unfold UserRoleManagementView_post, bind at 1, get_db.
           by rewrite Hu, Hfits. }
         split; [apply Hcall|]. split; [simpl; lia|]. split.
         + right; left. eexists. split; [done|]. split; [done|]. split; [done|].
           left. split; [done|]. intros i ->. done.
         + split; [intros H a b; by rewrite app_nil_r|]. apply Hcall.
       - exists (inl OverflowError), [].
         rewrite world_app_nil.
         assert (∀ now', UserRoleManagementView_post roles now' user_id role_name w
                   = (inl OverflowError, w)) as Hcall.
         { intros now'. unfold UserRoleManagementView_post, bind at 1, get_db.
           by rewrite Hu, Hfits. }
         split; [apply Hcall|]. split; [simpl; lia|]. split.
         + left. split; [done|]. split; [done|]. split; [done|].
           destruct user_id as [i|]; [|done]. by exists i.
         + split; [intros H a b; by rewrite app_nil_r|]. apply Hcall. }
  destruct (role_name ≫= (λ n, List.find (λ r, String.eqb (Role.name r) n) roles))
    as [role|] eqn:Hrole.
  2: { exists (inr (mkResponse 404 (Errors "Роль не найдена"))), [].
       rewrite world_app_nil.
       assert (∀ now', UserRoleManagementView_post roles now' user_id role_name w
                 = (inr (mkResponse 404 (Errors "Роль не найдена")), w)) as Hcall.
       { intros now'. unfold UserRoleManagementView_post, bind at 1, get_db.
         by rewrite Hu, Hrole. }
       split; [apply Hcall|]. split; [simpl; lia|]. split.
       - right; left. eexists. split; [done|]. split; [done|]. split; [done|]. by right.
       - split; [intros H a b; by rewrite app_nil_r|]. apply Hcall. }
  set (resp := mkResponse 200
                 (Message ("Роль " +:+ default "" role_name
                           +:+ " назначена пользователю " +:+ User.email u))).
  assert (Hcall : ∀ now' w0, users (db w0) = users (db w) →
    UserRoleManagementView_post roles now' user_id role_name w0
    = (inr resp, (UserRole_get_or_create now' (User.id u) (Role.id role) w0).2)).
  { intros now' w0 Hus. unfold UserRoleManagementView_post, bind at 1, get_db.
    rewrite Hus, Hu, Hrole. unfold bind. by rewrite UserRole_get_or_create_eq. }
  assert (Hfacts : user_id = Some (User.id u) ∧ u ∈ users (db w) ∧ User.is_active u = true
                   ∧ role_name = Some (Role.name role) ∧ role ∈ roles).
  { destruct user_id as [i|]; [|done]. destruct role_name as [n|]; [|done].
    simpl in Hu, Hrole.
    apply find_some in Hu as [Huin Hu']. apply andb_true_iff in Hu' as [Hui Huact].
    apply Z.eqb_eq in Hui. subst i.
    apply find_some in Hrole as [Hrin Hrn]. apply String.eqb_eq in Hrn. subst n.
    repeat split; try done; by apply list_elem_of_In. }
  exists (inr resp).
  destruct (existsb (λ r, (UserRole.user r =? User.id u) && (UserRole.role r =? Role.id role))
              (user_roles (db w))) eqn:Hex.
  - exists []. rewrite world_app_nil.
    assert (Hsame : ∀ now', UserRoleManagementView_post roles now' user_id role_name w
                      = (inr resp, w)).
    { intros now'. rewrite (Hcall now' w eq_refl), UserRole_get_or_create_eq.
      by rewrite Hex. }
    split; [apply Hsame|]. split; [simpl; lia|]. split.
    + right; right. exists resp. split; [done|]. split; [done|].
      exists u, role. destruct Hfacts as (?&?&?&?&?).
      do 5 (split; [done|]). split.
      * rewrite app_nil_r. by apply existsb_assignments_of.
      * by intros ur Hur%elem_of_nil.
    + split; [intros H a b; by rewrite app_nil_r|]. apply Hsame.
  - exists [UserRole.mk (User.id u) (Role.id role) now].
    apply existsb_assignments_of_false in Hex.
    assert (Hheld : (0 < assignments_of (User.id u) (Role.id role)
                          (user_roles (db w) ++ [UserRole.mk (User.id u) (Role.id role) now])%list)%nat).
    { rewrite assignments_of_app. unfold assignments_of at 2. simpl.
      rewrite !Z.eqb_refl. simpl. lia. }
    split.
    { rewrite (Hcall now w eq_refl), UserRole_get_or_create_eq.
      apply existsb_assignments_of_false in Hex. by rewrite Hex. }
    split; [simpl; lia|]. split.
    + right; right. exists resp. split; [done|]. split; [done|].
      exists u, role. destruct Hfacts as (?&?&?&?&?).
      do 5 (split; [done|]). split; [done|].
      by intros ur ->%list_elem_of_singleton.
    + split.
      * intros Hall a b. rewrite assignments_of_app. unfold assignments_of at 2. simpl.
        destruct ((User.id u =? a) && (Role.id role =? b)) eqn:Hab; simpl.
        -- apply andb_true_iff in Hab as [Ha Hb].
           apply Z.eqb_eq in Ha. apply Z.eqb_eq in Hb. subst a b. lia.
        -- specialize (Hall a b). lia.
      * intros now'.
        rewrite (Hcall now'
                   (mkWorld (with_user_roles (db w)
                               (user_roles (db w)
                                ++ [UserRole.mk (User.id u) (Role.id role) now]))
                            (rule_lookups w)) eq_refl),
          UserRole_get_or_create_eq. simpl.
        apply existsb_assignments_of in Hheld. by rewrite Hheld.
Qed.

(** The assignment endpoint. A text given for the user id that denotes
    no integer makes the user query raise [ValueError], which the view
    does not catch, and nothing is written. Otherwise the id is an
    integer or absent. When it names no active user nothing is written,
    and the answer is 404 unless the id is one the database cannot
    take: then the user query raises [OverflowError], which the view
    does not catch either. The answer is 404, with nothing written,
    too, when the role name names no role. Otherwise the answer is 200
    and the user holds the role afterwards: a row stamped with the
    current time is added when the user did not hold the role, and
    nothing is written when they did. Rows are never removed or
    changed, a table with at most one row per user and role stays so,
    and repeating the request gives the same outcome and changes
    nothing. *)
Theorem role_assignment roles now value role_name w :
  ∃ r added,
    UserRoleManagementView_post_data roles now value role_name w
    = (r, mkWorld (with_user_roles (db w) (user_roles (db w) ++ added)) (rule_lookups w))
    ∧ (length added ≤ 1)%nat
    ∧ ((r = inl ValueError ∧ added = []
        ∧ ∃ s, value = DataText s ∧ int_of_text s = None)
       ∨ ∃ user_id,
           AutoField_get_prep_value value = inr user_id
           ∧ let no_user :=
               user_id ≫= (λ i, List.find (λ u, (User.id u =? i) && User.is_active u)
                                  (users (db w))) = None in
             (r = inl OverflowError ∧ added = [] ∧ no_user
                ∧ (∃ i, user_id = Some i ∧ int_fits i = false)
              ∨ (∃ resp, r = inr resp ∧ status_code resp = 404 ∧ added = []
                   ∧ (no_user ∧ (∀ i, user_id = Some i → int_fits i = true)
                      ∨ role_name ≫= (λ n, List.find (λ r, String.eqb (Role.name r) n) roles)
                        = None))
              ∨ (∃ resp, r = inr resp ∧ status_code resp = 200
                   ∧ ∃ u role,
                       user_id = Some (User.id u) ∧ u ∈ users (db w)
                       ∧ User.is_active u = true
                       ∧ role_name = Some (Role.name role) ∧ role ∈ roles
                       ∧ (0 < assignments_of (User.id u) (Role.id role)
                                (user_roles (db w) ++ added)%list)%nat
                       ∧ (∀ ur, ur ∈ added →
                            ur = UserRole.mk (User.id u) (Role.id role) now
                            ∧ assignments_of (User.id u) (Role.id role) (user_roles (db w))
                              = 0%nat))))
    ∧ ((∀ a b, assignments_of a b (user_roles (db w)) ≤ 1)%nat →
       ∀ a b, (assignments_of a b (user_roles (db w) ++ added)%list ≤ 1)%nat)
    ∧ (∀ now',
         UserRoleManagementView_post_data roles now' value role_name
           (mkWorld (with_user_roles (db w) (user_roles (db w) ++ added)) (rule_lookups w))
         = (r,
            mkWorld (with_user_roles (db w) (user_roles (db w) ++ added)) (rule_lookups w))).
Proof.
  unfold UserRoleManagementView_post_data.
  destruct (AutoField_get_prep_value value) as [e|user_id] eqn:Hprep.
  - assert (e = ValueError ∧ ∃ s, value = DataText s ∧ int_of_text s = None)
      as [-> Hvalue].
    { unfold AutoField_get_prep_value in Hprep. destruct value as [|i|s]; try done.
      destruct (int_of_text s) eqn:Hs; [done|]. injection Hprep as <-.
      split; [done|]. by exists s. }
    exists (inl ValueError), []. rewrite world_app_nil.
    split; [done|]. split; [simpl; lia|]. split; [by left|].
    split; [|done]. intros H a b. by rewrite app_nil_r.
  - destruct (UserRoleManagementView_post_outcome roles now user_id role_name w)
      as (r & added & Hcall & Hlen & Hcases & Huniq & Hagain).
    exists r, added. split; [done|]. split; [done|]. split; [|done].
    right. by exists user_id.
Qed.

(** A role assigned now, later than every role the user already held,
    is examined first by the permission check: when its rule on the
    resource grants the action it decides the request, [GrantedGlobal]
    if it grants globally and [GrantedOwnOnly] if it grants own objects
    only, whatever the user's older roles grant. *)
Theorem newly_assigned_role_decides roles now u role name rule request view res w :
  List.find (λ v, (User.id v =? User.id u) && User.is_active v) (users (db w)) = Some u →
  List.find (λ r, String.eqb (Role.name r) name) roles = Some role →
  assignments_of (User.id u) (Role.id role) (user_roles (db w)) = 0%nat →
  (∀ ur, ur ∈ user_roles (db w) → UserRole.user ur = User.id u →
         UserRole.assigned_at ur < now) →
  access_rules (db w) !! (Role.id role, res) = Some rule →
  AccessRoleRule.has_global_permission rule (action_of request) = true
  ∨ AccessRoleRule.has_own_permission rule (action_of request) = true →
  user request = Some u →
  view_resource_name view = Some res →
  must_filter_by_owner request = false →
  let w' := (UserRoleManagementView_post roles now (Some (User.id u)) (Some name) w).2 in
  ∃ r w'',
    HasPermission_has_permission request view w' = (inr r, w'')
    ∧ decision_of r
      = if AccessRoleRule.has_global_permission rule (action_of request)
        then GrantedGlobal else GrantedOwnOnly.
Proof.
  intros Hu Hrole Hnew Hold Hrule Hgrants Hreq Hres Hflag w'.
  set (new := UserRole.mk (User.id u) (Role.id role) now).
  assert (Hw' : w' = mkWorld (with_user_roles (db w) (user_roles (db w) ++ [new]))
                       (rule_lookups w)).
  { unfold w', UserRoleManagementView_post, bind at 1, get_db. simpl.
    rewrite Hu, Hrole. unfold bind. rewrite UserRole_get_or_create_eq.
    apply existsb_assignments_of_false in Hnew. by rewrite Hnew. }
  assert (Hin : new ∈ user_roles_all (db w') u).
  { apply elem_of_user_roles_all. rewrite Hw'. simpl. split; [|done].
    apply elem_of_app. right. apply list_elem_of_here. }
  assert (Hg : role_grants (db w') res (action_of request) new = true).
  { apply role_grants_true. exists rule. by rewrite Hw'. }
  destruct (HasPermission_has_permission_exact request view u res w' Hreq Hres)
    as (lookups & E & _).
  eexists _, _. split; [exact E|].
  destruct (loop_outcome_cases (db w') request res (action_of request)
              (user_roles_all (db w') u))
    as [[Hfind _] | (ur & rule' & Hfind & Hrule' & _ & ->)].
  - eapply find_none in Hfind; [|by apply list_elem_of_In]. by rewrite Hg in Hfind.
  - pose proof (find_newest_first _ _ _ (user_roles_all_sorted (db w') u) Hfind new Hin Hg)
      as Hle.
    apply find_some in Hfind as [Hur _].
    apply list_elem_of_In, elem_of_user_roles_all in Hur as [Hur Huser].
    rewrite Hw' in Hur. simpl in Hur. apply elem_of_app in Hur as [Hur | Hur].
    + specialize (Hold ur Hur Huser). simpl in Hle. lia.
    + apply list_elem_of_singleton in Hur. subst ur.
      rewrite Hw' in Hrule'. simpl in Hrule'. rewrite Hrule in Hrule'.
      injection Hrule' as <-. unfold decision_of.
      destruct (AccessRoleRule.has_global_permission rule _); simpl; [|done].
      by rewrite Hflag.
Qed.

(** The administrator check answers yes exactly for a resolved user
    with an assignment row to a role named [admin]. It reads the role
    assignments only: no access rule is asked for and nothing is
    written, so rights granted through access rules do not open the
    administrators' API. *)
Theorem admin_check_by_role_name roles request w :
  ∃ b,
    IsAdminUser_has_permission roles request w = (inr b, w)
    ∧ (b = true ↔
       ∃ u ur role,
         user request = Some u
         ∧ ur ∈ user_roles (db w) ∧ UserRole.user ur = User.id u
         ∧ role ∈ roles ∧ Role.id role = UserRole.role ur ∧ Role.name role = "admin")
    ∧ ∀ rules',
        IsAdminUser_has_permission roles request
          (mkWorld (mkDb (users (db w)) (sessions (db w)) (revoked_tokens (db w))
                      (user_roles (db w)) rules') (rule_lookups w))
        = (inr b, mkWorld (mkDb (users (db w)) (sessions (db w)) (revoked_tokens (db w))
                             (user_roles (db w)) rules') (rule_lookups w)).
Proof.
  unfold IsAdminUser_has_permission. destruct (user request) as [u|].
  - unfold bind, get_db, ret. eexists. split; [done|]. split; [|done].
    rewrite existsb_exists. split.
    + intros (ur & Hur & Hb). apply andb_true_iff in Hb as [Hu Hr].
      apply existsb_exists in Hr as (role & Hrole & Hb).
      apply andb_true_iff in Hb as [Hid Hname].
      exists u, ur, role. apply Z.eqb_eq in Hu. apply Z.eqb_eq in Hid.
      apply String.eqb_eq in Hname. repeat split; try done; by apply list_elem_of_In.
    + intros (u' & ur & role & [= <-] & Hur & Hu & Hrole & Hid & Hname).
      exists ur. split; [by apply list_elem_of_In|].
      apply andb_true_iff. split; [by apply Z.eqb_eq|].
      apply existsb_exists. exists role. split; [by apply list_elem_of_In|].
      apply andb_true_iff. split; [by apply Z.eqb_eq|]. by apply String.eqb_eq.
  - exists false. split; [done|]. split; [|done].
    split; [done|]. by intros (? & ? & ? & ? & _).
Qed.

(** *** Roles of a user *)

(** [User.role] is the role of a row of the user assigned last, and is
    absent exactly when the user has no row; [User.roles] lists the
    roles of the user's rows and of no others, newest first. The two
    are separate queries: [User.role] occurs in [User.roles], and it is
    the first element of [User.roles] whenever one row of the user is
    newer than all the others. *)
Theorem User_role_is_latest d u :
  (User_role d u = None ↔ ∀ ur, ur ∈ user_roles d → UserRole.user ur ≠ User.id u)
  ∧ (∀ r, User_role d u = Some r →
       r ∈ User_roles d u
       ∧ ∃ ur, ur ∈ user_roles d ∧ UserRole.user ur = User.id u ∧ UserRole.role ur = r
               ∧ ∀ ur', ur' ∈ user_roles d → UserRole.user ur' = User.id u →
                        UserRole.assigned_at ur' ≤ UserRole.assigned_at ur)
  ∧ (∀ r, r ∈ User_roles d u ↔
       ∃ ur, ur ∈ user_roles d ∧ UserRole.user ur = User.id u ∧ UserRole.role ur = r)
  ∧ (∃ rows, User_roles d u = UserRole.role <$> rows ∧ newest_first rows
             ∧ ∀ ur, ur ∈ rows ↔ ur ∈ user_roles d ∧ UserRole.user ur = User.id u)
  ∧ (∀ top, top ∈ user_roles d → UserRole.user top = User.id u →
       (∀ ur, ur ∈ user_roles d → UserRole.user ur = User.id u →
              UserRole.assigned_at top ≤ UserRole.assigned_at ur → ur = top) →
       User_role d u = Some (UserRole.role top)
       ∧ head (User_roles d u) = Some (UserRole.role top)).
Proof.
  unfold User_role, User_roles.
  pose proof (user_roles_all_sorted d u) as Hsorted.
  pose proof (elem_of_user_roles_all d u) as Hmem.
  set (mine := List.filter (λ r, UserRole.user r =? User.id u) (user_roles d)).
  assert (Hmine : ∀ ur, ur ∈ mine ↔ ur ∈ user_roles d ∧ UserRole.user ur = User.id u).
  { intros ur. unfold mine. rewrite list_elem_of_In, filter_In, <- list_elem_of_In.
    by rewrite Z.eqb_eq. }
  assert (Hroles : ∀ r, r ∈ UserRole.role <$> user_roles_all d u ↔
            ∃ ur, ur ∈ user_roles d ∧ UserRole.user ur = User.id u ∧ UserRole.role ur = r).
  { intros r. rewrite list_elem_of_fmap. split.
    - intros (ur & -> & Hin). apply Hmem in Hin as [? ?]. by exists ur.
    - intros (ur & Hin & Hu & <-). exists ur. split; [done|]. by apply Hmem. }
  split; [|split; [|split; [exact Hroles|split]]].
  - split.
    + intros Hnone ur Hin Hu.
      destruct (first_of mine) as [r|] eqn:Hfirst; [done|].
      apply first_of_None in Hfirst.
      assert (ur ∈ mine) as Hur by by apply Hmine. rewrite Hfirst in Hur.
      by apply elem_of_nil in Hur.
    + intros Hno. destruct (first_of mine) as [r|] eqn:Hfirst; [|done].
      apply first_of_Some in Hfirst as [Hin _]. apply Hmine in Hin as [Hin Hu].
      by apply Hno in Hin.
  - intros r Hr. destruct (first_of mine) as [ur|] eqn:Hfirst; [|done].
    injection Hr as <-. apply first_of_Some in Hfirst as [Hin Hmax].
    apply Hmine in Hin as [Hin Hu]. split.
    + apply Hroles. by exists ur.
    + exists ur. split; [done|]. split; [done|]. split; [done|].
      intros ur' Hin' Hu'. apply Hmax. by apply Hmine.
  - exists (user_roles_all d u). split; [done|]. split; [done|]. exact Hmem.
  - intros top Htop Hutop Hunique.
    split.
    + destruct (first_of mine) as [r|] eqn:Hfirst.
      * apply first_of_Some in Hfirst as [Hin Hmax].
        apply Hmine in Hin as [Hin Hu]. simpl. do 2 f_equal.
        apply Hunique; [done|done|]. apply Hmax. by apply Hmine.
      * apply first_of_None in Hfirst.
        assert (top ∈ mine) as Ht by by apply Hmine.
        rewrite Hfirst in Ht. by apply elem_of_nil in Ht.
    + destruct (user_roles_all d u) as [|x xs] eqn:Hall.
      * assert (top ∈ []) as Ht by by apply Hmem. by apply elem_of_nil in Ht.
      * simpl. do 2 f_equal.
        destruct (Hmem x) as [[Hx Hux] _]; [apply list_elem_of_here|].
        apply Hunique; [done|done|].
        assert (top ∈ x :: xs) as Ht by by apply Hmem.
        destruct Hsorted as [Hle _]. apply elem_of_cons in Ht as [-> | Ht]; [lia|].
        rewrite Forall_forall in Hle. by apply Hle.
Qed.

(** *** Deactivating a session *)

(** After [deactivate] the session is stored inactive, with its owner
    and its expiry as they were, and is not found by the lookup of
    token resolution at any time, whatever its expiry; no other session
    is touched. Deactivating the stored row again, at any time, leaves
    it inactive and changes nothing but its [last_activity_at], which
    every [save] sets to the current time. *)
Theorem deactivate_makes_unusable now sid s w :
  ∃ s' w',
    UserSession_deactivate now sid s w = (inr tt, w')
    ∧ sessions (db w') !! sid = Some s'
    ∧ s' = UserSession.mk (UserSession.user s) false (UserSession.created_at s)
             (UserSession.expires_at s) now
    ∧ (∀ t, UserSession_get t sid w' = (inl DoesNotExist, w'))
    ∧ (∀ sid', sid' ≠ sid → sessions (db w') !! sid' = sessions (db w) !! sid')
    ∧ users (db w') = users (db w)
    ∧ (∀ now', ∃ w'',
         UserSession_deactivate now' sid s' w' = (inr tt, w'')
         ∧ sessions (db w'') !! sid
           = Some (UserSession.mk (UserSession.user s) false (UserSession.created_at s)
                     (UserSession.expires_at s) now')
         ∧ (∀ sid', sid' ≠ sid → sessions (db w'') !! sid' = sessions (db w') !! sid')
         ∧ (∀ t, UserSession_get t sid w'' = (inl DoesNotExist, w''))
         ∧ (now' = now → w'' = w')).
Proof.
  unfold UserSession_deactivate, UserSession_save, bind, get_db, put_db.
  eexists _, _. split; [done|]. simpl. rewrite lookup_insert_eq.
  split; [done|]. split; [done|]. split; [|split; [|split; [done|]]].
  - intros t. rewrite UserSession_get_eq. simpl. rewrite lookup_insert_eq.
    unfold session_usable. simpl. by destruct (find_user _ _).
  - intros sid' Hne. by rewrite lookup_insert_ne.
  - intros now'. eexists. split; [done|]. simpl. rewrite lookup_insert_eq.
    split; [done|]. split; [|split].
    + intros sid' Hne. by rewrite !lookup_insert_ne.
    + intros t. rewrite UserSession_get_eq. simpl. rewrite lookup_insert_eq.
      unfold session_usable. simpl. by destruct (find_user _ _).
    + intros ->. unfold with_sessions, touch. simpl. by rewrite insert_insert_eq.
Qed.

(** *** The summary of a rule *)

(** The summary of a rule and the two checks read the same columns:
    an entry of the summary's [global] or [additional] section is the
    answer of [has_global_permission] for that action, an entry of its
    [own] section is the answer of [has_own_permission], and every
    action either check grants is listed as granted in the summary. *)
Theorem permissions_summary_agrees self action :
  let entry section := get_permissions_summary self !! section ≫= (.!! action) in
  (∀ b, entry "global" = Some b → AccessRoleRule.has_global_permission self action = b)
  ∧ (∀ b, entry "additional" = Some b → AccessRoleRule.has_global_permission self action = b)
  ∧ (∀ b, entry "own" = Some b → AccessRoleRule.has_own_permission self action = b)
  ∧ (AccessRoleRule.has_global_permission self action = true →
     entry "global" = Some true ∨ entry "additional" = Some true)
  ∧ (AccessRoleRule.has_own_permission self action = true → entry "own" = Some true).
Proof.
  clear. intros entry. subst entry. cbv beta.
  unfold get_permissions_summary, AccessRoleRule.has_global_permission,
    AccessRoleRule.has_own_permission.
  cbn [list_to_map foldr uncurry fst snd]. cbv zeta.
  rewrite (lookup_insert_eq _ "global").
  rewrite (lookup_insert_ne _ "global" "own"), (lookup_insert_eq _ "own") by done.
  rewrite (lookup_insert_ne _ "global" "additional"),
    (lookup_insert_ne _ "own" "additional"), (lookup_insert_eq _ "additional") by done.
  cbn [mbind option_bind].
  destruct (String.eqb_spec action "read") as [-> | Hread];
    [repeat first [rewrite lookup_insert_eq | rewrite lookup_insert_ne by done];
     rewrite ?lookup_empty; simpl; intuition congruence |].
  destruct (String.eqb_spec action "create") as [-> | Hcreate];
    [repeat first [rewrite lookup_insert_eq | rewrite lookup_insert_ne by done];
     rewrite ?lookup_empty; simpl; intuition congruence |].
  destruct (String.eqb_spec action "update") as [-> | Hupdate];
    [repeat first [rewrite lookup_insert_eq | rewrite lookup_insert_ne by done];
     rewrite ?lookup_empty; simpl; intuition congruence |].
  destruct (String.eqb_spec action "delete") as [-> | Hdelete];
    [repeat first [rewrite lookup_insert_eq | rewrite lookup_insert_ne by done];
     rewrite ?lookup_empty; simpl; intuition congruence |].
  destruct (String.eqb_spec action "export") as [-> | Hexport];
    [repeat first [rewrite lookup_insert_eq | rewrite lookup_insert_ne by done];
     rewrite ?lookup_empty; simpl; intuition congruence |].
  destruct (String.eqb_spec action "import") as [-> | Himport];
    [repeat first [rewrite lookup_insert_eq | rewrite lookup_insert_ne by done];
     rewrite ?lookup_empty; simpl; intuition congruence |].
  rewrite !lookup_insert_ne by done. rewrite !lookup_empty. simpl.
  intuition congruence.
Qed.

End Properties.

(** ** The results on the reference instances and the example data *)

Lemma pos_of_bits_of_pos p : pos_of_bits (bits_of_pos p) = Some p.
Proof. induction p as [q IH|q IH|]; simpl; rewrite ?IH; reflexivity. Qed.

Lemma ref_parse_encode key payload :
  ref_parse (ref_encode key payload) = Some (key, tuple_of_payload payload).
Proof.
  unfold ref_parse, ref_encode. rewrite pos_of_bits_of_pos. simpl.
  apply decode_encode.
Qed.

Lemma ref_claims_encode key payload : ref_claims (ref_encode key payload) = Some payload.
Proof.
  unfold ref_claims. rewrite ref_parse_encode. simpl. by destruct payload.
Qed.

Lemma ref_verify_encode key payload : ref_verify key (ref_encode key payload) = true.
Proof.
  unfold ref_verify. rewrite ref_parse_encode. simpl. apply String.eqb_refl.
Qed.

(** The reference order and the reference [first()] obey the laws
    assumed of the database. *)
Lemma ref_ordered_Permutation l : ref_ordered l ≡ₚ l.
Proof. apply order_by_assigned_at_desc_perm. Qed.

Lemma ref_ordered_newest_first l : newest_first (ref_ordered l).
Proof. apply order_by_assigned_at_desc_newest_first. Qed.

Lemma ref_first_of_None l : ref_first_of l = None → l = [].
Proof.
  unfold ref_first_of. intros Hhead.
  destruct (order_by_assigned_at_desc l) as [|x xs] eqn:Hl; [|done].
  apply Permutation_nil. rewrite <- Hl. apply order_by_assigned_at_desc_perm.
Qed.

Lemma ref_first_of_Some l r :
  ref_first_of l = Some r →
  r ∈ l ∧ ∀ r', r' ∈ l → UserRole.assigned_at r' ≤ UserRole.assigned_at r.
Proof.
  unfold ref_first_of. intros Hhead.
  pose proof (order_by_assigned_at_desc_newest_first l) as Hsorted.
  pose proof (order_by_assigned_at_desc_perm l) as Hperm.
  destruct (order_by_assigned_at_desc l) as [|x xs]; [done|].
  injection Hhead as ->. split.
  - rewrite <- Hperm. apply list_elem_of_here.
  - intros r' Hr'. rewrite <- Hperm in Hr'. destruct Hsorted as [Hle _].
    apply elem_of_cons in Hr' as [-> | Hr']; [lia|].
    rewrite Forall_forall in Hle. by apply Hle.
Qed.

(** On the reference order: [user], alice's more recent role, narrows
    the decision; with the times exchanged [manager] decides. *)
Lemma decide_narrowed_by_role_order_witness :
  (ref_decide (Some alice) "GET" MockProductView (mkWorld db_manager_then_user [])).1
  = inr GrantedOwnOnly
  ∧ (ref_decide (Some alice) "GET" MockProductView (mkWorld db_user_then_manager [])).1
    = inr GrantedGlobal.
Proof.
  apply (decide_narrowed_by_role_order ref_ordered).
  - apply ref_ordered_Permutation.
  - apply ref_ordered_newest_first.
Defined.

(** A HEAD request of alice to the products view is checked as [read]. *)
Lemma unlisted_method_checked_as_read_witness :
  _get_action_from_method "HEAD" = "read"
  ∧ ∃ r w',
      ref_has_permission (mkRequest "HEAD" None (Some alice) None false)
        MockProductView example_world = (inr r, w')
      ∧ (r.1 = true ↔
         ∃ ur rule, ur ∈ user_roles (db example_world)
           ∧ UserRole.user ur = User.id alice
           ∧ access_rules (db example_world) !! (UserRole.role ur, "products") = Some rule
           ∧ (AccessRoleRule.read_all_permission rule = true
              ∨ AccessRoleRule.read_own_permission rule = true)).
Proof.
  apply (unlisted_method_checked_as_read ref_ordered ref_ordered_Permutation "HEAD"
           (mkRequest "HEAD" None (Some alice) None false)
           MockProductView alice "products" example_world).
  - apply (bool_decide_unpack _). vm_compute. exact I.
  - reflexivity.
  - reflexivity.
  - reflexivity.
Defined.

(** Alice has no rule on [users]: she is denied there. *)
Lemma no_rule_means_denied_witness :
  ∃ w', ref_decide (Some alice) "GET" MockUserManagementView example_world
        = (inr Denied, w')
        ∧ db w' = db example_world.
Proof.
  apply (no_rule_means_denied ref_ordered ref_ordered_Permutation alice "GET"
           MockUserManagementView "users" example_world).
  - reflexivity.
  - intros ur Hin _. simpl in Hin.
    apply elem_of_cons in Hin as [-> | Hin]; [vm_compute; reflexivity|].
    apply elem_of_cons in Hin as [-> | Hin]; [vm_compute; reflexivity|].
    by apply elem_of_nil in Hin.
Defined.

(** Text that is no token is not reported revoked. *)
Lemma malformed_token_not_revoked_witness :
  ref_is_token_revoked 1000 "not.a.token" example_world = (inr false, example_world)
  ∧ Middleware_is_token_revoked ref_key ref_claims ref_verify 1000 "not.a.token"
      example_world = (inr false, example_world).
Proof.
  apply (malformed_token_not_revoked ref_key ref_claims ref_verify 1000 "not.a.token"
           example_world).
  left. vm_compute. reflexivity.
Defined.

(** alice's session [sid_1] at the very second it expires. *)
Lemma session_expiring_now_is_unusable_witness :
  UserSession_get (1000 + seven_days) sid_1 sessions_world
  = (inl DoesNotExist, sessions_world)
  ∧ ∃ detail,
      ref_authenticate (1000 + seven_days) (bearer "GET" alice_token) sessions_world
      = (inl (AuthenticationFailed detail), sessions_world).
Proof.
  destruct (session_expiring_now_is_unusable ref_key ref_claims ref_verify
              ref_UUIDField_to_python (1000 + seven_days) sid_1 alice_session
              sessions_world)
    as (Hget & Hauth & _).
  - vm_compute. reflexivity.
  - reflexivity.
  - split; [exact Hget|].
    apply (Hauth (bearer "GET" alice_token) alice_token
             (Payload.mk (Some sid_1) (Some 1) (Some "alice@example.com")
                (Some (1000 + seven_days)) (Some 1000) None)
             eq_refl (ref_claims_encode _ _) sid_1 eq_refl).
    vm_compute. reflexivity.
Defined.


(** alice, logged in twice, logs out with the token of [sid_1]. *)
Lemma logout_deactivates_every_session_witness :
  let w' := (ref_logout 3000 (bearer "POST" alice_token) sessions_world).2 in
  ∃ u token w1,
    ref_authenticate 3000 (bearer "POST" alice_token) sessions_world
    = (inr (Some (u, token)), w1)
    ∧ logout_handler ref_key ref_claims ref_verify ref_datetime_representable 3000
        (set_user_auth (bearer "POST" alice_token) (Some u) (Some token)) w1
      = (inr (mkResponse 200 (Message "Успешный выход из системы")), w')
    ∧ (∀ sid s, sessions (db w') !! sid = Some s →
                UserSession.user s = User.id u → UserSession.is_active s = false)
    ∧ (∀ sid s, sessions (db sessions_world) !! sid = Some s →
                UserSession.user s ≠ User.id u → sessions (db w') !! sid = Some s)
    ∧ (∀ now' request' u' token' w'',
         ref_authenticate now' request' w' = (inr (Some (u', token')), w'') →
         User.id u' ≠ User.id u).
Proof.
  apply (logout_deactivates_every_session ref_key ref_claims ref_verify ref_ordered
           ref_UUIDField_to_python ref_datetime_representable 3000
           (bearer "POST" alice_token) sessions_world
           (mkResponse 200 (Message "Успешный выход из системы"))).
  - reflexivity.
  - vm_compute. reflexivity.
  - reflexivity.
Defined.

(** The token alice's login mints. *)
Lemma minted_token_carries_no_jti_witness :
  (∃ p, ref_claims alice_token = Some p ∧ Payload.jti p = None)
  ∧ (∀ now' w, ref_revoke now' alice_token w = (inr tt, w))
  ∧ (∀ now' w, ref_is_token_revoked now' alice_token w = (inr false, w))
  ∧ (∀ now' request w w',
       Authorization request = Some ("Bearer " +:+ alice_token) →
       ref_authenticate now' request w
       ≠ (inl (AuthenticationFailed "Token revoked"), w')).
Proof.
  exact (minted_token_carries_no_jti ref_key ref_encode ref_claims ref_verify
           ref_UUIDField_to_python ref_datetime_representable
           ref_claims_encode 1000 sid_1 alice_session alice).
Defined.

(** Login, logout and a replay of the token: the ledger stays empty and
    the replay is turned away because the session is no longer active. *)
Example login_logout_replay :
  let login_result :=
    ref_login 1000 sid_1 (Some "alice@example.com") (Some "wonderland") (plain "POST")
      example_world in
  let w1 := login_result.2 in
  let w2 := (ref_logout 1010 (bearer "POST" alice_token) w1).2 in
  login_result.1 = inr (mkResponse 200 (Token alice_token 1))
  ∧ (ref_logout 1010 (bearer "POST" alice_token) w1).1
    = inr (mkResponse 200 (Message "Успешный выход из системы"))
  ∧ revoked_tokens (db w2) = []
  ∧ (ref_products 1020 (bearer "GET" alice_token) w2).1
    = inr (mkResponse 401 (Errors "Session not found or inactive")).
Proof. vm_compute. repeat split; reflexivity. Qed.

(** What the field validation does before the credential check runs:
    a padded password is trimmed and the login succeeds; a blank one is
    refused by the field, even for a deactivated account. *)
Example login_field_validation :
  (ref_login 1000 sid_1 (Some "alice@example.com") (Some "wonderland ") (plain "POST")
     example_world).1
  = inr (mkResponse 200 (Token alice_token 1))
  ∧ ref_login 1000 sid_1 (Some "bob@example.com") (Some " ") (plain "POST") example_world
    = (inr (mkResponse 401 (FieldErrors None (Some "This field may not be blank."))),
       example_world)
  ∧ ref_login 1000 sid_1 (Some "alice@example.com") (Some "wonderland") (plain "GET")
      example_world
    = (inr (mkResponse 405 (Errors ("Method " +:+ quoted "GET" +:+ " not allowed."))),
       example_world).
Proof. vm_compute. repeat split; reflexivity. Qed.

(** C4, as stated, fails: a login with an unknown email and a login as
    the inactive bob are both refused, but with different details, so
    the caller can tell that bob's account exists and is deactivated. *)
Lemma credential_failures_distinguishable :
  email_absent (db example_world) "nobody@example.com"
  ∧ principal_inactive (db example_world) "bob@example.com"
  ∧ (UserLoginSerializer_validate ref_check_password "nobody@example.com" "builder"
       example_world).1
    ≠ (UserLoginSerializer_validate ref_check_password "bob@example.com" "builder"
         example_world).1
  ∧ (ref_login 1000 sid_9 (Some "nobody@example.com") (Some "builder") (plain "POST")
       example_world).1
    ≠ (ref_login 1000 sid_9 (Some "bob@example.com") (Some "builder") (plain "POST")
         example_world).1.
Proof.
  split; [reflexivity|]. split; [by exists bob|].
  split; vm_compute; discriminate.
Qed.

(** An unknown email, alice with a wrong password, and the inactive bob. *)
Lemma credential_failures_witness :
  ref_login 1000 sid_9 (Some "nobody@example.com") (Some "builder") (plain "POST")
    example_world
  = (inr (mkResponse 401 (Errors "Неверный email или пароль")), example_world)
  ∧ ref_login 1000 sid_9 (Some "alice@example.com") (Some "looking-glass") (plain "POST")
      example_world
    = (inr (mkResponse 401 (Errors "Неверный email или пароль")), example_world)
  ∧ ref_login 1000 sid_9 (Some "bob@example.com") (Some "builder") (plain "POST")
      example_world
    = (inr (mkResponse 401 (Errors "Аккаунт деактивирован")), example_world).
Proof.
  split; [|split].
  - destruct (credential_failures ref_key ref_encode ref_claims ref_verify
                ref_check_password ref_ordered ref_UUIDField_to_python
                ref_EmailField_run_validation ref_CharField_run_validation
                1000 sid_9 (plain "POST") (Some "nobody@example.com") (Some "builder")
                "nobody@example.com" "builder" example_world)
      as (Habsent & _ & _); [reflexivity | reflexivity | reflexivity | reflexivity |].
    apply Habsent. reflexivity.
  - destruct (credential_failures ref_key ref_encode ref_claims ref_verify
                ref_check_password ref_ordered ref_UUIDField_to_python
                ref_EmailField_run_validation ref_CharField_run_validation
                1000 sid_9 (plain "POST") (Some "alice@example.com")
                (Some "looking-glass") "alice@example.com" "looking-glass" example_world)
      as (_ & Hwrong & _); [reflexivity | reflexivity | reflexivity | reflexivity |].
    apply Hwrong. exists alice. repeat split; reflexivity.
  - destruct (credential_failures ref_key ref_encode ref_claims ref_verify
                ref_check_password ref_ordered ref_UUIDField_to_python
                ref_EmailField_run_validation ref_CharField_run_validation
                1000 sid_9 (plain "POST") (Some "bob@example.com") (Some "builder")
                "bob@example.com" "builder" example_world)
      as (_ & _ & Hinactive); [reflexivity | reflexivity | reflexivity | reflexivity |].
    apply Hinactive. exists bob. split; reflexivity.
Defined.

(** C6, as stated, fails: the payload of this token contains a [jti]
    (the empty string) and an [exp], yet revoking it twice leaves no
    ledger row, and the token is not reported revoked before [exp]. *)
Lemma revoke_empty_jti_leaves_no_entry :
  let w1 := (ref_revoke 5 empty_jti_token empty_world).2 in
  let w2 := (ref_revoke 10 empty_jti_token w1).2 in
  ref_claims empty_jti_token = Some empty_jti_payload
  ∧ ref_verify ref_key empty_jti_token = true
  ∧ Payload.jti empty_jti_payload = Some ""
  ∧ Payload.exp empty_jti_payload = Some 100
  ∧ entries_for "" (revoked_tokens (db w2)) = 0%nat
  ∧ ref_is_token_revoked 50 empty_jti_token w1 = (inr false, w1)
  ∧ ref_is_token_revoked 50 empty_jti_token w2 = (inr false, w2).
Proof.
  split; [apply ref_claims_encode|]. split; [apply ref_verify_encode|].
  vm_compute. repeat split; reflexivity.
Qed.

(** Why the ledger must not hold an older row: [get_or_create] keeps
    the row it finds, expiry included, so the token is not reported
    revoked once that row has expired. *)
Lemma revoke_keeps_stale_entry :
  let w1 := (ref_revoke 30 jti_token stale_world).2 in
  w1 = stale_world
  ∧ entries_for "7c9e" (revoked_tokens (db w1)) = 1%nat
  ∧ ref_is_token_revoked 50 jti_token w1 = (inr false, w1).
Proof. vm_compute. repeat split; reflexivity. Qed.

(** Why the [exp] must be one [datetime] can hold: for the token with
    the [exp] 10^20 the revocation raises, no row is written and the
    token is not reported revoked. *)
Lemma revoke_far_exp_raises :
  ref_claims far_token = Some far_payload
  ∧ ref_verify ref_key far_token = true
  ∧ ref_revoke 5 far_token empty_world = (inl OverflowError, empty_world)
  ∧ ref_is_token_revoked 50 far_token empty_world = (inr false, empty_world).
Proof.
  split; [apply ref_claims_encode|]. split; [apply ref_verify_encode|].
  vm_compute. split; reflexivity.
Qed.

(** A token with the [jti] "7c9e", revoked at times 5 and 10. *)
Lemma revoke_twice_one_entry_witness :
  let w1 := (ref_revoke 5 jti_token empty_world).2 in
  let w2 := (ref_revoke 10 jti_token w1).2 in
  ref_revoke 5 jti_token empty_world = (inr tt, w1)
  ∧ ref_revoke 10 jti_token w1 = (inr tt, w1)
  ∧ entries_for "7c9e" (revoked_tokens (db w1)) = 1%nat
  ∧ entries_for "7c9e" (revoked_tokens (db w2)) = 1%nat
  ∧ (entries_for "7c9e" (revoked_tokens (db empty_world)) = 0%nat →
     ∀ now, now < 100 →
       ref_is_token_revoked now jti_token w1 = (inr true, w1)
       ∧ ref_is_token_revoked now jti_token w2 = (inr true, w2)).
Proof.
  apply (revoke_twice_one_entry ref_key ref_claims ref_verify ref_datetime_representable
           jti_token jti_payload "7c9e" 100 5 10 empty_world).
  - vm_compute. reflexivity.
  - vm_compute. reflexivity.
  - reflexivity.
  - discriminate.
  - reflexivity.
  - lia.
  - reflexivity.
  - vm_compute. lia.
Defined.

(** ** Further results on the example data *)

(** alice reads the products. *)
Lemma has_permission_granted_iff_witness :
  ∃ r w',
    ref_has_permission (request_of "GET" alice) MockProductView example_world
    = (inr r, w')
    ∧ db w' = db example_world
    ∧ (r.1 = true ↔
       ∃ ur rule, ur ∈ user_roles (db example_world) ∧ UserRole.user ur = User.id alice
         ∧ access_rules (db example_world) !! (UserRole.role ur, "products") = Some rule
         ∧ (AccessRoleRule.has_global_permission rule "read" = true
            ∨ AccessRoleRule.has_own_permission rule "read" = true))
    ∧ method r.2 = "GET"
    ∧ Authorization r.2 = None
    ∧ user r.2 = Some alice
    ∧ auth r.2 = None.
Proof.
  apply (has_permission_granted_iff ref_ordered ref_ordered_Permutation
           (request_of "GET" alice) MockProductView alice "products" example_world).
  - reflexivity.
  - reflexivity.
Defined.

(** alice's latest role, [user], grants reading her own products only. *)
Lemma latest_granting_role_decides_witness :
  ∃ r w',
    ref_has_permission (request_of "GET" alice) MockProductView example_world
    = (inr r, w')
    ∧ decision_of r = GrantedOwnOnly.
Proof.
  destruct (latest_granting_role_decides ref_ordered ref_ordered_Permutation
              ref_ordered_newest_first (request_of "GET" alice) MockProductView alice
              "products" example_world) as (r & w' & E & H).
  - reflexivity.
  - reflexivity.
  - reflexivity.
  - exists r, w'. split; [exact E|].
    vm_compute in E. injection E as <- _. reflexivity.
Defined.

(** A POST of alice to the products. *)
Lemma post_request_never_narrowed_witness :
  ∃ b w',
    ref_has_permission (request_of "POST" alice) MockProductView example_world
    = (inr (b, request_of "POST" alice), w').
Proof.
  apply (post_request_never_narrowed ref_ordered (request_of "POST" alice)
           MockProductView alice "products" example_world).
  - reflexivity.
  - reflexivity.
  - reflexivity.
Defined.

(** carol's GET of the products: one rule query, for her one role. *)
Lemma has_permission_rule_queries_witness :
  ∃ r w' new,
    ref_has_permission (request_of "GET" carol) MockProductView shop_world = (inr r, w')
    ∧ db w' = db shop_world
    ∧ rule_lookups w' = (new ++ rule_lookups shop_world)%list
    ∧ (length new ≤ 1)%nat.
Proof.
  destruct (has_permission_rule_queries ref_ordered ref_ordered_Permutation
              (request_of "GET" carol) MockProductView shop_world)
    as (r & w' & new & E & Hdb & Hlog & _ & Hbound).
  exists r, w', new. split; [exact E|]. split; [exact Hdb|]. split; [exact Hlog|].
  destruct (Hbound carol "products") as [Hlen _]; [reflexivity | reflexivity |].
  exact Hlen.
Defined.

(** alice and a product she owns. *)
Lemma has_object_permission_iff_witness :
  ∃ b w',
    ref_has_object_permission (request_of "GET" alice) MockProductView
      alice_product example_world = (inr b, w')
    ∧ db w' = db example_world
    ∧ (b = true ↔
       ∃ ur rule, ur ∈ user_roles (db example_world) ∧ UserRole.user ur = User.id alice
         ∧ access_rules (db example_world) !! (UserRole.role ur, "products") = Some rule
         ∧ (AccessRoleRule.has_global_permission rule "read" = true
            ∨ (AccessRoleRule.has_own_permission rule "read" = true
               ∧ (owner alice_product = Some (User.id alice)
                  ∨ object_user alice_product = Some (User.id alice)
                  ∨ created_by alice_product = Some (User.id alice))))).
Proof.
  apply (has_object_permission_iff ref_ordered ref_ordered_Permutation
           (request_of "GET" alice) MockProductView alice_product alice example_world).
  reflexivity.
Defined.

(** The two checks for alice on the products view. *)
Lemma object_and_view_checks_agree_witness :
  ∃ r w',
    ref_has_permission (request_of "GET" alice) MockProductView example_world
    = (inr r, w')
    ∧ (∀ obj, (ref_has_object_permission (request_of "GET" alice)
                 MockProductView obj example_world).1 = inr true →
              r.1 = true)
    ∧ (decision_of r = GrantedGlobal →
       ∀ obj, (ref_has_object_permission (request_of "GET" alice)
                 MockProductView obj example_world).1 = inr true).
Proof.
  apply (object_and_view_checks_agree ref_ordered (request_of "GET" alice)
           MockProductView alice "products" example_world).
  - reflexivity.
  - reflexivity.
  - discriminate.
  - reflexivity.
Defined.

(** alice's token, presented once its [exp] has passed and for a
    session that does not exist; and the token whose [session_id] is no
    UUID. *)
Lemma authenticate_failure_details_witness :
  ref_authenticate (1000 + seven_days) (bearer "GET" alice_token) sessions_world
  = (inl (AuthenticationFailed "Token expired"), sessions_world)
  ∧ ref_authenticate 1000 (bearer "GET" alice_token) example_world
    = (inl (AuthenticationFailed "Session not found or inactive"), example_world)
  ∧ ref_authenticate 1000 (bearer "GET" stray_token) example_world
    = (inl DjangoValidationError, example_world).
Proof.
  split; [|split].
  - destruct (authenticate_failure_details ref_key ref_claims ref_verify
                ref_UUIDField_to_python (1000 + seven_days) (bearer "GET" alice_token)
                alice_token sessions_world)
      as (_ & _ & H); [reflexivity|].
    destruct (H (Payload.mk (Some sid_1) (Some 1) (Some "alice@example.com")
                   (Some (1000 + seven_days)) (Some 1000) None)) as [Hexpired _].
    + apply ref_claims_encode.
    + apply ref_verify_encode.
    + vm_compute. reflexivity.
    + apply Hexpired. exists (1000 + seven_days). split; [reflexivity | lia].
  - destruct (authenticate_failure_details ref_key ref_claims ref_verify
                ref_UUIDField_to_python 1000 (bearer "GET" alice_token) alice_token
                example_world)
      as (_ & _ & H); [reflexivity|].
    destruct (H (Payload.mk (Some sid_1) (Some 1) (Some "alice@example.com")
                   (Some (1000 + seven_days)) (Some 1000) None)) as [_ Hlive].
    + apply ref_claims_encode.
    + apply ref_verify_encode.
    + vm_compute. reflexivity.
    + destruct Hlive as [_ Hsession].
      * intros e [= <-]. vm_compute. reflexivity.
      * destruct (Hsession sid_1) as [_ Hmissing]; [reflexivity | discriminate |].
        apply (Hmissing sid_1); [reflexivity|]. left. reflexivity.
  - destruct (authenticate_failure_details ref_key ref_claims ref_verify
                ref_UUIDField_to_python 1000 (bearer "GET" stray_token) stray_token
                example_world)
      as (_ & _ & H); [reflexivity|].
    destruct (H stray_payload) as [_ Hlive].
    + apply ref_claims_encode.
    + apply ref_verify_encode.
    + vm_compute. reflexivity.
    + destruct Hlive as [_ Hsession].
      * intros e [= <-]. lia.
      * destruct (Hsession "not-a-uuid") as [Hstray _]; [reflexivity | discriminate |].
        apply Hstray. reflexivity.
Defined.


(** The token of alice's login resolves to alice until it expires. *)
Lemma login_token_resolves_witness :
  ∃ token w',
    ref_login 1000 sid_1 (Some "alice@example.com") (Some "wonderland") (plain "POST")
      example_world
    = (inr (mkResponse 200 (Token token (User.id alice))), w')
    ∧ (∀ t request, Authorization request = Some ("Bearer " +:+ token) →
         t < 1000 + seven_days →
         (ref_authenticate t request w').1 = inr (Some (alice, token)))
    ∧ (∀ t request, Authorization request = Some ("Bearer " +:+ token) →
         1000 + seven_days ≤ t →
         ref_authenticate t request w' = (inl (AuthenticationFailed "Token expired"), w')).
Proof.
  apply (login_token_resolves ref_key ref_encode ref_claims ref_verify ref_check_password
           ref_ordered ref_UUIDField_to_python ref_EmailField_run_validation
           ref_CharField_run_validation ref_claims_encode 1000 sid_1 (plain "POST")
           (Some "alice@example.com") (Some "wonderland") "alice@example.com" "wonderland"
           alice example_world).
  - exact ref_verify_encode.
  - reflexivity.
  - reflexivity.
  - reflexivity.
  - reflexivity.
  - reflexivity.
  - reflexivity.
  - reflexivity.
  - reflexivity.
  - discriminate.
  - reflexivity.
Defined.

(** The token with the [jti] "7c9e", revoked at time 5. *)
Lemma revoked_token_is_refused_witness :
  let w1 := (ref_revoke 5 jti_token empty_world).2 in
  revoked_tokens (db w1) = [RevokedToken.mk "7c9e" 5 100]
  ∧ (∀ t, t < 100 →
       ref_authenticate t (bearer "GET" jti_token) w1
       = (inl (AuthenticationFailed "Token revoked"), w1))
  ∧ (∀ t, 100 ≤ t →
       ref_authenticate t (bearer "GET" jti_token) w1
       = (inl (AuthenticationFailed "Token expired"), w1)).
Proof.
  apply (revoked_token_is_refused ref_key ref_claims ref_verify ref_UUIDField_to_python
           ref_datetime_representable 5 jti_token jti_payload
           "7c9e" 100 (bearer "GET" jti_token) empty_world).
  - vm_compute. reflexivity.
  - vm_compute. reflexivity.
  - reflexivity.
  - discriminate.
  - reflexivity.
  - lia.
  - reflexivity.
  - reflexivity.
  - reflexivity.
Defined.

(** A request to the orders without an [Authorization] header. *)
Lemma unauthenticated_request_is_401_witness :
  ∃ detail,
    ref_orders 1000 (plain "GET") example_world
    = (inr (mkResponse 401 (Errors detail)), example_world).
Proof.
  destruct (unauthenticated_request_is_401 ref_key ref_claims ref_verify ref_ordered
              ref_UUIDField_to_python MockOrderView MockOrderView_handler 1000
              (plain "GET") example_world CustomIsAuthenticated [HasPermission])
    as [H401 | (_ & Hraised & _)].
  - reflexivity.
  - discriminate.
  - intros u token w'. vm_compute. discriminate.
  - exact H401.
  - vm_compute in Hraised. discriminate.
Defined.

(** alice logs out with the token of [sid_1] and presents it again. *)
Lemma replay_after_logout_is_401_witness :
  let w' := (ref_logout 3000 (bearer "POST" alice_token) sessions_world).2 in
  ∃ detail,
    ref_products 3010 (bearer "GET" alice_token) w'
    = (inr (mkResponse 401 (Errors detail)), w').
Proof.
  apply (replay_after_logout_is_401 ref_key ref_claims ref_verify ref_ordered
           ref_UUIDField_to_python ref_datetime_representable 3000
           (bearer "POST" alice_token) sessions_world
           (mkResponse 200 (Message "Успешный выход из системы"))
           (ref_logout 3000 (bearer "POST" alice_token) sessions_world).2
           eq_refl ltac:(vm_compute; reflexivity) eq_refl
           MockProductView MockProductView_handler 3010 (bearer "GET" alice_token)
           CustomIsAuthenticated [HasPermission]).
  - reflexivity.
  - reflexivity.
  - discriminate.
Defined.

(** alice, whose latest role grants her own objects only, lists the
    products and the orders. *)
Lemma mock_listing_follows_decision_witness :
  ∃ w1 w2,
    ref_products 3000 (bearer "GET" alice_token) shop_world
    = (inr (mkResponse 200 (Objects [(3, Some 1)])), w1)
    ∧ ref_orders 3000 (bearer "GET" alice_token) shop_world
      = (inr (mkResponse 403
                (Errors "You do not have permission to perform this action.")), w2).
Proof.
  destruct (mock_listing_follows_decision ref_key ref_claims ref_verify ref_ordered
              ref_UUIDField_to_python 3000
              (bearer "GET" alice_token) alice alice_token shop_world
              (ref_authenticate 3000 (bearer "GET" alice_token) shop_world).2)
    as (_ & (d1 & r1 & w1 & Hd1 & E1 & _ & H1) & (d2 & r2 & w2 & Hd2 & E2 & _ & H2)).
  - reflexivity.
  - reflexivity.
  - vm_compute. reflexivity.
  - exists w1, w2. split.
    + vm_compute in Hd1. injection Hd1 as <-. rewrite H1 in E1. exact E1.
    + unfold ref_orders. rewrite E2. vm_compute in E2. injection E2 as <- _. reflexivity.
Defined.

(** carol, a plain user, is made a manager at time 300 and then reads
    all products. *)
Lemma newly_assigned_role_decides_witness :
  let w' := (UserRoleManagementView_post ref_int_fits example_roles 300 (Some 3)
               (Some "manager") shop_world).2 in
  ∃ r w'',
    ref_has_permission (request_of "GET" carol) MockProductView w' = (inr r, w'')
    ∧ decision_of r = GrantedGlobal.
Proof.
  apply (newly_assigned_role_decides ref_ordered ref_int_fits ref_ordered_Permutation
           ref_ordered_newest_first example_roles 300 carol
           (Role.mk role_manager "manager" false) "manager" rule_read_all
           (request_of "GET" carol) MockProductView "products" shop_world).
  - reflexivity.
  - reflexivity.
  - reflexivity.
  - intros ur Hin Hu. simpl in Hin.
    apply elem_of_cons in Hin as [-> | Hin]; [simpl; lia|].
    apply elem_of_cons in Hin as [-> | Hin]; [simpl; lia|].
    apply elem_of_cons in Hin as [-> | Hin]; [simpl; lia|].
    by apply elem_of_nil in Hin.
  - reflexivity.
  - left. reflexivity.
  - reflexivity.
  - reflexivity.
  - reflexivity.
Defined.

(** The assignment endpoint on ids that name no user: an id beyond the
    64-bit range and a text that is no number make it raise; an unknown
    id within the range, as a number or as a text, is answered 404, and
    so is an absent id. *)
Example role_assignment_unknown_ids :
  let post := UserRoleManagementView_post_data ref_int_fits ref_int_of_text
                example_roles 300 in
  post (DataInt (2 ^ 63)) (Some "manager") shop_world = (inl OverflowError, shop_world)
  ∧ post (DataText "abc") (Some "manager") shop_world = (inl ValueError, shop_world)
  ∧ post (DataInt 77) (Some "manager") shop_world
    = (inr (mkResponse 404 (Errors "Пользователь не найден")), shop_world)
  ∧ post (DataText "77") (Some "manager") shop_world
    = (inr (mkResponse 404 (Errors "Пользователь не найден")), shop_world)
  ∧ post DataNone (Some "manager") shop_world
    = (inr (mkResponse 404 (Errors "Пользователь не найден")), shop_world).
Proof. vm_compute. repeat split; reflexivity. Qed.

(** alice's role on the reference instances: [user], her latest. *)
Lemma User_role_is_latest_witness :
  User_role ref_first_of (db example_world) alice = Some role_user
  ∧ head (User_roles ref_ordered (db example_world) alice) = Some role_user.
Proof.
  destruct (User_role_is_latest ref_ordered ref_first_of ref_ordered_Permutation
              ref_ordered_newest_first ref_first_of_None ref_first_of_Some
              (db example_world) alice) as (_ & _ & _ & _ & Htop).
  apply (Htop (UserRole.mk 1 role_user 200)).
  - simpl. apply list_elem_of_further, list_elem_of_here.
  - reflexivity.
  - intros ur Hin _ Hle. simpl in Hin.
    apply elem_of_cons in Hin as [-> | Hin]; [simpl in Hle; lia|].
    apply elem_of_cons in Hin as [-> | Hin]; [reflexivity|].
    by apply elem_of_nil in Hin.
Defined.
